(** * MingJing: checksum validators, verification escalation, masking and
      risk aggregation

    A shallow embedding of the detection-and-confidence pipeline of MingJing:
    - [cn_bank_card_recognizer.py]  (Luhn check, [validate_result]),
    - [cn_id_card_recognizer.py]    (GB 11643-1999 check, [validate_result]),
    - [llm_verifier.py]             ([parse_response], [verify_single],
                                     [verify_results], the mock backend),
    - [backend/main.py]             ([_mask_value], [_apply_masks_to_text],
                                     [filter_false_positives],
                                     [anonymize_text_segment]),
    - [report_generator.py]         ([add_entity], [_calculate_risk],
                                     [_calculate_statistics],
                                     [_generate_risk_summaries]),
    - the filters [invalidate_result] of these recognizers and the driver
      licence, social credit code and postal code recognizers beside them.

    Conventions of the embedding.
    - A Python [str] is a list of Unicode code points ([list N]); literals are
      written as UTF-8 and decoded by [py].  [upper], [int] of a character and
      [isdigit] are modelled on the ASCII range; other code points are left
      unchanged by [upper] and are not digits.
    - A Python [int] is a [Z]; slices follow Python's clamping rules.
    - A Python [float] is the rational ([Q]) it stands for.  The product of
      a weight and a score is rounded to the nearest double, as Python
      computes it ([round_double]); NaN and the infinities are outside the
      model, and the theorems that depend on it keep products finite.
    - An exception is a value of [exn]; a call that may raise returns a
      [result]. *)

From Stdlib Require Import ZArith NArith QArith Qabs Qround Qminmax List String Ascii Bool Lia.
From Stdlib Require Import Sorting.Sorted Sorting.Permutation DecimalString.
Import ListNotations.

Local Open Scope Z_scope.
#[local] Set Warnings "-register-all".

(* ================================================================== *)
(** * Python strings *)
(* ================================================================== *)

Module Py.

Definition char := N.
Definition str := list char.

(** UTF-8 decoding of a literal (well-formed input only; a stray byte is
    kept as it is). *)
Fixpoint utf8_decode (bs : list N) (fuel : nat) : str :=
  match fuel with
  | O => []
  | S fuel' =>
    match bs with
    | [] => []
    | b :: r =>
      if (b <? 128)%N then b :: utf8_decode r fuel'
      else if (b <? 224)%N then
        match r with
        | b1 :: r' => ((b - 192) * 64 + (b1 - 128))%N :: utf8_decode r' fuel'
        | _ => [b]
        end
      else if (b <? 240)%N then
        match r with
        | b1 :: b2 :: r' =>
            ((b - 224) * 4096 + (b1 - 128) * 64 + (b2 - 128))%N
              :: utf8_decode r' fuel'
        | _ => b :: r
        end
      else
        match r with
        | b1 :: b2 :: b3 :: r' =>
            ((b - 240) * 262144 + (b1 - 128) * 4096 + (b2 - 128) * 64
             + (b3 - 128))%N :: utf8_decode r' fuel'
        | _ => b :: r
        end
    end
  end.

Definition py (s : string) : str :=
  let bs := map N_of_ascii (list_ascii_of_string s) in
  utf8_decode bs (List.length bs).

Definition ch (a : ascii) : char := N_of_ascii a.

Definition len (s : str) : Z := Z.of_nat (List.length s).

Fixpoint str_eqb (a b : str) : bool :=
  match a, b with
  | [], [] => true
  | x :: a', y :: b' => (x =? y)%N && str_eqb a' b'
  | _, _ => false
  end.

(** [s[lo:hi]] with Python's treatment of negative and out-of-range bounds. *)
Definition norm_index (n i : Z) : Z :=
  if i <? 0 then Z.max 0 (i + n) else Z.min i n.

Definition slice (s : str) (lo hi : Z) : str :=
  let n := len s in
  let l := norm_index n lo in
  let h := norm_index n hi in
  skipn (Z.to_nat l) (firstn (Z.to_nat h) s).

(** [s[lo:]] and [s[:hi]]. *)
Definition slice_from (s : str) (lo : Z) : str := slice s lo (len s).
Definition slice_to (s : str) (hi : Z) : str := slice s 0 hi.

(** [s[i]]: [None] stands for IndexError. *)
Definition index (s : str) (i : Z) : option char :=
  let n := len s in
  let j := if i <? 0 then i + n else i in
  if (j <? 0) || (n <=? j) then None else nth_error s (Z.to_nat j).

(** [c * k] for a one-character string [c]. *)
Definition repeat_char (c : char) (k : Z) : str := repeat c (Z.to_nat k).

(** [s.replace(c, "")] for a one-character [c]. *)
Definition remove_char (c : char) (s : str) : str :=
  filter (fun x => negb (x =? c)%N) s.

(** [s.upper()] as it acts on ASCII text: a-z are raised and every other
    character is kept.  Python's mapping outside ASCII (where a character
    may even become two) is not part of the model. *)
Definition upper_char (c : char) : char :=
  if ((97 <=? c) && (c <=? 122))%N then (c - 32)%N else c.

Definition upper (s : str) : str := map upper_char s.

(** The ASCII digits.  The digits of other scripts, which [str.isdigit]
    and [int] also accept, are not part of the model. *)
Definition is_digit (c : char) : bool := ((48 <=? c) && (c <=? 57))%N.

(** [s.isdigit()]: false on the empty string. *)
Definition isdigit (s : str) : bool :=
  match s with [] => false | _ => forallb is_digit s end.

(** [int(c)] for a one-character string: [None] stands for ValueError. *)
Definition int_of_char (c : char) : option Z :=
  if is_digit c then Some (Z.of_N c - 48) else None.

(** The value of a decimal digit character. *)
Definition digit_value (c : char) : Z := Z.of_N c - 48.

Fixpoint startswith (p s : str) : bool :=
  match p, s with
  | [], _ => true
  | x :: p', y :: s' => (x =? y)%N && startswith p' s'
  | _ :: _, [] => false
  end.

(** [s.find(c)] for a one-character [c]; -1 when absent. *)
Fixpoint find_from (c : char) (s : str) (i : Z) : Z :=
  match s with
  | [] => -1
  | x :: s' => if (x =? c)%N then i else find_from c s' (i + 1)
  end.

Definition find (c : char) (s : str) : Z := find_from c s 0.

(** Code points on which [str.isspace] holds. *)
Definition is_space (c : char) : bool :=
  (((9 <=? c) && (c <=? 13)) || ((28 <=? c) && (c <=? 32))
   || (c =? 133) || (c =? 160) || (c =? 5760)
   || ((8192 <=? c) && (c <=? 8202)) || (c =? 8232) || (c =? 8233)
   || (c =? 8239) || (c =? 8287) || (c =? 12288))%N.

Fixpoint lstrip (s : str) : str :=
  match s with
  | c :: s' => if is_space c then lstrip s' else s
  | [] => []
  end.

Definition strip (s : str) : str := rev (lstrip (rev (lstrip s))).

(** [s.split(sep)] for a one-character separator. *)
Fixpoint split (sep : char) (s : str) : list str :=
  match s with
  | [] => [[]]
  | c :: s' =>
    match split sep s' with
    | [] => [[c]]
    | w :: ws => if (c =? sep)%N then [] :: w :: ws else (c :: w) :: ws
    end
  end.

(** [sep.join(parts)]. *)
Fixpoint join (sep : str) (parts : list str) : str :=
  match parts with
  | [] => []
  | [p] => p
  | p :: ps => p ++ sep ++ join sep ps
  end.

(** [xs[1:-1]] on a list. *)
Definition drop_first_last {A} (xs : list A) : list A :=
  removelast (tl xs).

End Py.

Import Py.

(* ================================================================== *)
(** * Luhn check of the bank-card recognizer *)
(* ================================================================== *)

Module CnBankCard.

(** [digits_of]: [[int(d) for d in n]]; [None] stands for ValueError. *)
Fixpoint digits_of (n : str) : option (list Z) :=
  match n with
  | [] => Some []
  | d :: r =>
    match int_of_char d, digits_of r with
    | Some v, Some vs => Some (v :: vs)
    | _, _ => None
    end
  end.

(** One turn of the loop [for i, d in enumerate(digits)]. *)
Definition luhn_step (i d : Z) : Z :=
  if i mod 2 =? 1 then
    let d2 := d * 2 in
    if 9 <? d2 then d2 - 9 else d2
  else d.

Fixpoint luhn_loop (digits : list Z) (i checksum : Z) : Z :=
  match digits with
  | [] => checksum
  | d :: r => luhn_loop r (i + 1) (checksum + luhn_step i d)
  end.

Definition luhn_total (digits : list Z) : Z := luhn_loop (rev digits) 0 0.

Definition _luhn_checksum (card_number : str) : option bool :=
  match digits_of card_number with
  | Some digits => Some (luhn_total digits mod 10 =? 0)
  | None => None
  end.

(** [validate_result]: [Some true] Confirmed, [Some false] Rejected,
    [None] Uncertain. *)
Definition validate_result (pattern_text : str) : option bool :=
  let card_number := remove_char (ch " ") (remove_char (ch "-") pattern_text) in
  if (len card_number <? 15) || (19 <? len card_number) then Some false
  else if negb (isdigit card_number) then Some false
  else
    match _luhn_checksum card_number with
    | Some true => Some true
    | _ => None
    end.

(** The rule in the words of the specification: counting positions from the
    right starting at one, every second digit is doubled, nine is taken off
    a doubled digit above nine, and everything is summed. *)
Definition doubled (d : Z) : Z := if 9 <? 2 * d then 2 * d - 9 else 2 * d.

(** [spec_sum ds] reads the digits from the left; a digit followed by [k]
    further digits stands at place [k + 1] counted from the right, and the
    digits at even places are the "second" ones. *)
Fixpoint spec_sum (digits : list Z) : Z :=
  match digits with
  | [] => 0
  | d :: r =>
    (if Nat.even (S (List.length r)) then doubled d else d) + spec_sum r
  end.

Definition spec_luhn_valid (digits : list Z) : bool :=
  spec_sum digits mod 10 =? 0.

End CnBankCard.

(* ================================================================== *)
(** * GB 11643-1999 check of the ID-card recognizer *)
(* ================================================================== *)

Module CnIdCard.

Definition WEIGHTS : list Z := [7; 9; 10; 5; 8; 4; 2; 1; 6; 3; 7; 9; 10; 5; 8; 4; 2].

Definition CHECKSUM_MAP : list char :=
  [ch "1"; ch "0"; ch "X"; ch "9"; ch "8"; ch "7"; ch "6"; ch "5"; ch "4";
   ch "3"; ch "2"].

Definition VALID_PROVINCE_CODES : list str :=
  map py
    ["11"; "12"; "13"; "14"; "15";
     "21"; "22"; "23";
     "31"; "32"; "33"; "34"; "35"; "36"; "37";
     "41"; "42"; "43"; "44"; "45"; "46";
     "50"; "51"; "52"; "53"; "54";
     "61"; "62"; "63"; "64"; "65";
     "71";
     "81"; "82"]%string.

Definition normalize (pattern_text : str) : str :=
  upper (remove_char (ch " ") (remove_char (ch "-") pattern_text)).

(** The loop [for i in range(17): total += int(id_number[i]) * WEIGHTS[i]];
    [None] stands for the ValueError or IndexError caught by the caller. *)
Fixpoint weighted_loop (id_number : str) (idxs : list nat) (total : Z) : option Z :=
  match idxs with
  | [] => Some total
  | i :: r =>
    match index id_number (Z.of_nat i), nth_error WEIGHTS i with
    | Some c, Some w =>
      match int_of_char c with
      | Some d => weighted_loop id_number r (total + d * w)
      | None => None
      end
    | _, _ => None
    end
  end.

Definition weighted_total (id_number : str) : option Z :=
  weighted_loop id_number (seq 0 17) 0.

(** [validate_result]: [Some true] Confirmed, [Some false] Rejected,
    [None] Uncertain. *)
Definition validate_result (pattern_text : str) : option bool :=
  let id_number := normalize pattern_text in
  if negb (len id_number =? 18) then Some false
  else
    let province_code := slice_to id_number 2 in
    if negb (existsb (str_eqb province_code) VALID_PROVINCE_CODES) then None
    else
      match weighted_total id_number with
      | None => None
      | Some total =>
        match nth_error CHECKSUM_MAP (Z.to_nat (total mod 11)),
              index id_number 17 with
        | Some expected_checksum, Some c =>
          let actual_checksum := upper_char c in
          if (actual_checksum =? expected_checksum)%N then Some true else None
        | _, _ => None
        end
      end.

(** The rule in the words of the specification, on a normalised string:
    eighteen characters, seventeen digits first, a listed province code in
    front, and at the end the character that the weighted sum of the
    seventeen digits selects in the alphabet. *)
Fixpoint spec_weighted_sum (cs : str) (ws : list Z) : Z :=
  match cs, ws with
  | c :: cs', w :: ws' => digit_value c * w + spec_weighted_sum cs' ws'
  | _, _ => 0
  end.

Definition spec_check_char (id : str) : option char :=
  nth_error CHECKSUM_MAP
    (Z.to_nat (spec_weighted_sum (firstn 17 id) WEIGHTS mod 11)).

Definition spec_valid_id (id : str) : bool :=
  (List.length id =? 18)%nat
  && forallb is_digit (firstn 17 id)
  && existsb (str_eqb (firstn 2 id)) VALID_PROVINCE_CODES
  && match nth_error id 17, spec_check_char id with
     | Some c, Some e => (c =? e)%N
     | _, _ => false
     end.

Definition is_separator (c : char) : bool :=
  ((c =? ch "-") || (c =? ch " "))%N.

End CnIdCard.

(* ================================================================== *)
(** * Python values, exceptions and the library interface *)
(* ================================================================== *)

(** Values that [json.loads] can return.  [PyInt] is a Python [int], read
    from a numeral without fraction and exponent; [PyNum] is a [float],
    kept as the exact rational it stands for. *)
Inductive pyval : Type :=
| PyNone
| PyBool (b : bool)
| PyInt (z : Z)
| PyNum (q : Q)
| PyStr (s : str)
| PyList (l : list pyval)
| PyDict (kv : list (str * pyval)).

Inductive exn_class : Type :=
| JSONDecodeError | KeyError | ValueError | TypeError | AttributeError
| OverflowError | OtherException.

Record exn : Type := mkExn { exn_kind : exn_class; exn_msg : str }.

Inductive result (A : Type) : Type :=
| Ok (a : A)
| Raise (e : exn).
Arguments Ok {A} a.
Arguments Raise {A} e.

(** The standard-library functions the verifier calls.
    [json_loads] answers [None] when [json.loads] raises JSONDecodeError (or
    the ValueError it raises for a numeral of too many digits, which the
    same handler catches), [float_of_str] answers [None] for the ValueError
    of [float] on a string. *)
Record pylib : Type := mkPylib {
  json_loads : str -> option pyval;
  json_dumps : pyval -> str;
  float_of_str : str -> option Q
}.

(** [bool(v)]. *)
Definition truthy (v : pyval) : bool :=
  match v with
  | PyNone => false
  | PyBool b => b
  | PyInt z => negb (z =? 0)
  | PyNum q => negb (Qnum q =? 0)
  | PyStr s => match s with [] => false | _ => true end
  | PyList l => match l with [] => false | _ => true end
  | PyDict kv => match kv with [] => false | _ => true end
  end.

(** [d.get(key, default)]. *)
Fixpoint dict_get {A} (kv : list (str * A)) (key : str) (default : A) : A :=
  match kv with
  | [] => default
  | (k, v) :: r => if str_eqb k key then v else dict_get r key default
  end.

Fixpoint dict_mem {A} (kv : list (str * A)) (key : str) : bool :=
  match kv with
  | [] => false
  | (k, _) :: r => str_eqb k key || dict_mem r key
  end.

Definition Qltb (a b : Q) : bool := negb (Qle_bool b a).

(** [max(a, b)]: the first argument unless the second is greater. *)
Definition py_max (a b : Q) : Q := if Qltb a b then b else a.

(** [int(q)] of a float: truncation towards zero. *)
Definition py_int (q : Q) : Z := Z.quot (Qnum q) (Zpos (Qden q)).

(** ** Doubles *)

(** A Python [float] is a binary64 number: 53 bits of precision, least
    exponent -1074.  The product of an [int] and a [float] is the double
    nearest to the exact product, ties going to the even significand. *)

(** The integer nearest to [n / d], ties to even, for [0 <= n], [0 < d]. *)
Definition round_half_even (n d : Z) : Z :=
  let q := n / d in
  let r := n mod d in
  if 2 * r <? d then q
  else if d <? 2 * r then q + 1
  else if Z.even q then q else q + 1.

(** The [e] with [2^e <= n / d < 2^(e + 1)]. *)
Definition floor_log2 (n d : positive) : Z :=
  let e := Z.log2 (Zpos n) - Z.log2 (Zpos d) in
  let reached :=
    if 0 <=? e then Zpos d * 2 ^ e <=? Zpos n
    else Zpos d <=? Zpos n * 2 ^ (- e) in
  if reached then e else e - 1.

(** The exponent of the last place of a double near [n / d]. *)
Definition ulp_exponent (n d : positive) : Z :=
  Z.max (floor_log2 n d - 52) (-1074).

Definition round_double_pos (n d : positive) : Q :=
  let x := ulp_exponent n d in
  if 0 <=? x then
    inject_Z (round_half_even (Zpos n) (Zpos d * 2 ^ x) * 2 ^ x)
  else
    Qmake (round_half_even (Zpos n * 2 ^ (- x)) (Zpos d)) (Z.to_pos (2 ^ (- x))).

(** The double nearest to [q].  Doubles end below 2^1024: a larger result
    is infinite in Python, which this function does not model. *)
Definition round_double (q : Q) : Q :=
  match Qnum q with
  | Z0 => 0%Q
  | Zpos n => round_double_pos n (Qden q)
  | Zneg n => (- round_double_pos n (Qden q))%Q
  end.

(** The largest double, 2^1024 - 2^971, and the least integer that
    [float] refuses with OverflowError, 2^1024 - 2^970. *)
Definition DOUBLE_MAX : Z := 2 ^ 1024 - 2 ^ 971.
Definition FLOAT_OVERFLOW : Z := 2 ^ 1024 - 2 ^ 970.

(* ================================================================== *)
(** * The verification escalator *)
(* ================================================================== *)

Module LLMVerifier.

Record VerificationResult : Type := mkVerificationResult {
  entity_text : str;
  entity_type : str;
  original_score : Q;
  is_sensitive : pyval;
  confidence : Q;
  final_score : Q;
  reason : pyval;
  context : str
}.

Record RecognizerResult : Type := mkRecognizerResult {
  r_entity_type : str;
  r_start : Z;
  r_end : Z;
  r_score : Q
}.

(** A verifier: the two settings of [BaseLLMVerifier] and the abstract
    method [_call_llm].  The backend may answer differently from call to
    call, so it reads the prompts sent so far.  An answer that is not a
    string makes [response.strip()] raise inside the [try] block of
    [verify_single], and counts as a call that raises. *)
Record verifier : Type := mkVerifier {
  score_threshold : Q;
  context_window : Z;
  _call_llm : list str -> str -> result str
}.

Definition quote : str := [34%N].
Definition newline : str := [10%N].

Definition PROMPT_HEAD : str :=
  py "你是一个敏感信息识别专家。请判断以下文本中标记的内容是否为真正的敏感信息。

【上下文】
".

Definition PROMPT_ENTITY : str :=
  py "

【待验证内容】
- 文本: " ++ quote.

Definition PROMPT_TYPE : str :=
  quote ++ py "
- 预测类型: ".

Definition PROMPT_TAIL : str :=
  py "

【实体类型说明】
- PERSON: 真实人名（不是称呼、职位、代词）
- LOCATION: 真实地址/地名（不是方位词、泛指）
- ORGANIZATION: 真实组织机构名（不是泛指、行业名）
- CN_ID_CARD: 中国身份证号
- CN_PHONE: 中国手机号/电话号码
- CN_BANK_CARD: 银行卡号
- CN_EMAIL: 电子邮箱地址
- CN_IP_ADDRESS: IP地址（需要是真实IP，不是版本号）
- CN_POSTAL_CODE: 邮政编码（需要是真实邮编，不是普通数字）

请以JSON格式回答：
{
    " ++ quote ++ py "is_sensitive" ++ quote ++ py ": true/false,
    " ++ quote ++ py "confidence" ++ quote ++ py ": 0.0-1.0,
    " ++ quote ++ py "reason" ++ quote ++ py ": " ++ quote ++ py "判断理由"
    ++ quote ++ py "
}

只输出JSON，不要其他内容。".

Definition extract_context (v : verifier) (text : str) (start end_ : Z) : str :=
  let context_start := Z.max 0 (start - context_window v) in
  let context_end := Z.min (len text) (end_ + context_window v) in
  let before := slice text context_start start in
  let entity := slice text start end_ in
  let after := slice text end_ context_end in
  let prefix := if 0 <? context_start then py "..." else [] in
  let suffix := if context_end <? len text then py "..." else [] in
  prefix ++ before ++ py "【" ++ entity ++ py "】" ++ after ++ suffix.

Definition build_prompt (entity_text entity_type context : str) : str :=
  PROMPT_HEAD ++ context ++ PROMPT_ENTITY ++ entity_text ++ PROMPT_TYPE
    ++ entity_type ++ PROMPT_TAIL.

Definition PARSE_FAILURE_REASON : str := py "解析失败，保守判断为敏感信息".
Definition CALL_FAILURE_PREFIX : str := py "LLM调用失败: ".

Definition FENCE : str := py "```".

(** The text handed to [json.loads]: stripped, and without its first and
    last line when it opens with a code fence. *)
Definition unfence (response : str) : str :=
  let response := strip response in
  if startswith FENCE response then
    let lines := split 10%N response in
    join newline (drop_first_last lines)
  else response.

Definition FLOAT_TYPE_ERROR : str :=
  py "float() argument must be a string or a real number, not ".

(** [float(v)] of a decoded JSON value.  An [int] becomes the nearest
    double, and raises OverflowError when that is beyond the largest one. *)
Definition py_float (L : pylib) (v : pyval) : result Q :=
  match v with
  | PyNum q => Ok q
  | PyInt z =>
    if Z.abs z <? FLOAT_OVERFLOW then Ok (Qred (round_double (inject_Z z)))
    else Raise (mkExn OverflowError (py "int too large to convert to float"))
  | PyBool b => Ok (if b then 1 else 0)%Q
  | PyStr s =>
    match float_of_str L s with
    | Some q => Ok q
    | None => Raise (mkExn ValueError (py "could not convert string to float"))
    end
  | PyNone => Raise (mkExn TypeError (FLOAT_TYPE_ERROR ++ py "'NoneType'"))
  | PyList _ => Raise (mkExn TypeError (FLOAT_TYPE_ERROR ++ py "'list'"))
  | PyDict _ => Raise (mkExn TypeError (FLOAT_TYPE_ERROR ++ py "'dict'"))
  end.

(** The classes named by the [except] clause of [parse_response]. *)
Definition caught_by_parse (c : exn_class) : bool :=
  match c with
  | JSONDecodeError | KeyError | ValueError => true
  | _ => false
  end.

Definition parse_fallback : pyval * Q * pyval :=
  (PyBool true, 0.5%Q, PyStr PARSE_FAILURE_REASON).

Definition parse_response (L : pylib) (response : str)
  : result (pyval * Q * pyval) :=
  match json_loads L (unfence response) with
  | None => Ok parse_fallback
  | Some (PyDict data) =>
    let is_sensitive := dict_get data (py "is_sensitive") (PyBool false) in
    match py_float L (dict_get data (py "confidence") (PyNum 0.5%Q)) with
    | Ok confidence =>
      let reason := dict_get data (py "reason") (PyStr []) in
      Ok (is_sensitive, confidence, reason)
    | Raise e =>
      if caught_by_parse (exn_kind e) then Ok parse_fallback else Raise e
    end
  | Some _ =>
    Raise (mkExn AttributeError (py "object has no attribute 'get'"))
  end.

Definition call_fallback (e : exn) : pyval * Q * pyval :=
  (PyBool true, 0.5%Q, PyStr (CALL_FAILURE_PREFIX ++ exn_msg e)).

(** The [try] block of [verify_single]: the call, the parsing of its
    answer, and the conservative verdict when either raises. *)
Definition llm_verdict (L : pylib) (v : verifier) (log : list str)
    (prompt : str) : pyval * Q * pyval :=
  match _call_llm v log prompt with
  | Ok response =>
    match parse_response L response with
    | Ok t => t
    | Raise e => call_fallback e
    end
  | Raise e => call_fallback e
  end.

(** [verify_single] reads the log of prompts sent so far and returns the
    log extended with its own prompt. *)
Definition verify_single (L : pylib) (v : verifier) (log : list str)
    (text entity_text entity_type : str) (start end_ : Z) (original_score : Q)
  : VerificationResult * list str :=
  let context := extract_context v text start end_ in
  let prompt := build_prompt entity_text entity_type context in
  let '(is_sensitive, confidence, reason) := llm_verdict L v log prompt in
  let final_score :=
    if truthy is_sensitive then py_max original_score confidence else 0%Q in
  (mkVerificationResult entity_text entity_type original_score is_sensitive
     confidence final_score reason context,
   log ++ [prompt]).

Fixpoint verify_loop (L : pylib) (v : verifier) (text : str)
    (results : list RecognizerResult) (log : list str)
  : list (RecognizerResult * option VerificationResult) * list str :=
  match results with
  | [] => ([], log)
  | r :: rest =>
    if Qltb (r_score r) (score_threshold v) then
      let entity_text := slice text (r_start r) (r_end r) in
      let '(verification, log') :=
        verify_single L v log text entity_text (r_entity_type r)
          (r_start r) (r_end r) (r_score r) in
      let '(verified, log'') := verify_loop L v text rest log' in
      ((r, Some verification) :: verified, log'')
    else
      let '(verified, log') := verify_loop L v text rest log in
      ((r, None) :: verified, log')
  end.

Definition verify_results (L : pylib) (v : verifier) (text : str)
    (results : list RecognizerResult) (log : list str) :=
  verify_loop L v text results log.

(** [MockLLMVerifier]. *)
Definition mock_payload (default_is_sensitive : bool) (default_confidence : Q)
  : pyval :=
  PyDict [(py "is_sensitive", PyBool default_is_sensitive);
          (py "confidence", PyNum default_confidence);
          (py "reason", PyStr (py "模拟验证结果"))].

Definition MockLLMVerifier (L : pylib) (score_threshold : Q)
    (context_window : Z) (default_is_sensitive : bool)
    (default_confidence : Q) : verifier :=
  mkVerifier score_threshold context_window
    (fun _ _ => Ok (json_dumps L (mock_payload default_is_sensitive default_confidence))).

(** The prompt sent for a recognizer result when it is escalated. *)
Definition escalation_prompt (v : verifier) (text : str) (r : RecognizerResult)
  : str :=
  build_prompt (slice text (r_start r) (r_end r)) (r_entity_type r)
    (extract_context v text (r_start r) (r_end r)).

Definition needs_verification (v : verifier) (r : RecognizerResult) : bool :=
  Qltb (r_score r) (score_threshold v).

(** The library reads back what it wrote for [x]: the text written for [x]
    has no surrounding white space and no code fence, and decodes to [x]. *)
Definition dumps_faithful (L : pylib) (x : pyval) : Prop :=
  json_loads L (unfence (json_dumps L x)) = Some x.

(** How a result is paired by [verify_results]. *)
Definition paired (L : pylib) (v : verifier) (text : str)
    (r : RecognizerResult)
    (p : RecognizerResult * option VerificationResult) : Prop :=
  fst p = r
  /\ if needs_verification v r then
       exists log0,
         snd p = Some (fst (verify_single L v log0 text
                              (slice text (r_start r) (r_end r))
                              (r_entity_type r) (r_start r) (r_end r)
                              (r_score r)))
     else snd p = None.

(** The consumer in [backend/main.py]: an escalated span is kept, with its
    final score, exactly when the verdict is truthy; a span that was not
    escalated keeps its own score.  The reason is carried as the verdict
    has it; the check that pydantic makes of it when the entity is built is
    not part of this record. *)
Record EntityResult : Type := mkEntityResult {
  er_entity_type : str;
  er_text : str;
  er_start : Z;
  er_end : Z;
  er_score : Q;
  er_verified : bool;
  er_llm_reason : option pyval
}.

Fixpoint collect_entity_results (text : str)
    (verified : list (RecognizerResult * option VerificationResult))
  : list EntityResult :=
  match verified with
  | [] => []
  | (original, o) :: rest =>
    let entity_text := slice text (r_start original) (r_end original) in
    match o with
    | Some verification =>
      if truthy (is_sensitive verification) then
        mkEntityResult (r_entity_type original) entity_text (r_start original)
          (r_end original) (final_score verification) true
          (Some (reason verification))
          :: collect_entity_results text rest
      else collect_entity_results text rest
    | None =>
      mkEntityResult (r_entity_type original) entity_text (r_start original)
        (r_end original) (r_score original) false None
        :: collect_entity_results text rest
    end
  end.

End LLMVerifier.

(* ================================================================== *)
(** * The masking engine of [backend/main.py] *)
(* ================================================================== *)

Module Masking.

Record span : Type := mkSpan {
  entity_type : str;
  start : Z;
  end_ : Z
}.

Definition stars (k : Z) : str := repeat_char (ch "*") k.

(** [value[0]] at the places where the value is known to be non-empty. *)
Definition first_char (value : str) : str := slice value 0 1.

Definition is_type (entity_type : str) (name : string) : bool :=
  str_eqb entity_type (py name).

Definition _mask_value (entity_type value : str) : str :=
  match value with
  | [] => value
  | _ =>
    let length := len value in
    if is_type entity_type "CN_PHONE" then
      if length =? 11 then slice_to value 3 ++ py "****" ++ slice_from value 7
      else slice_to value (Z.min 3 length) ++ py "****"
    else if is_type entity_type "CN_ID_CARD" then
      if length =? 18 then slice_to value 4 ++ stars 10 ++ slice_from value 14
      else if length =? 15 then slice_to value 4 ++ stars 7 ++ slice_from value 11
      else slice_to value 4 ++ stars (Z.max 0 (length - 8))
             ++ slice_from value (Z.max 4 (length - 4))
    else if is_type entity_type "CN_BANK_CARD" then
      if 16 <=? length then slice_to value 4 ++ py " **** **** " ++ slice_from value (-4)
      else slice_to value 4 ++ py "****" ++ slice_from value (Z.max 4 (length - 4))
    else if is_type entity_type "CN_EMAIL" then
      let at_index := find (ch "@") value in
      if 0 <? at_index then
        let local_part := slice_to value at_index in
        let domain := slice_from value at_index in
        if len local_part <=? 3 then first_char local_part ++ py "***" ++ domain
        else slice_to local_part 3 ++ py "***" ++ domain
      else slice_to value 3 ++ py "***"
    else if is_type entity_type "PERSON" then
      if length =? 2 then first_char value ++ py "*"
      else if length =? 3 then first_char value ++ py "**"
      else if 4 <=? length then slice_to value 2 ++ stars (length - 2)
      else first_char value ++ py "*"
    else if is_type entity_type "CN_PASSPORT"
         || is_type entity_type "CN_DRIVER_LICENSE"
         || is_type entity_type "CN_MILITARY_ID" then
      if 4 <? length then slice_to value 2 ++ stars (length - 4) ++ slice_from value (-2)
      else py "***"
    else if is_type entity_type "CN_VEHICLE_PLATE" then
      if 7 <=? length then slice_to value 2 ++ py "****" ++ slice_from value (-1)
      else slice_to value 2 ++ py "****"
    else if is_type entity_type "LOCATION" then
      if 10 <? length then slice_to value 6 ++ py "***"
      else slice_to value (Z.min 4 length) ++ py "***"
    else repeat_char 9679%N length
  end.

(** [sorted(results, key=lambda r: r.start)]: a stable sort, written as the
    insertion sort that keeps equal keys in their order of arrival. *)
Fixpoint insert_by_start (r : span) (l : list span) : list span :=
  match l with
  | [] => [r]
  | x :: l' =>
    if start r <=? start x then r :: l else x :: insert_by_start r l'
  end.

Definition sorted_by_start (results : list span) : list span :=
  fold_right insert_by_start [] results.

Definition by_start (a b : span) : Prop := start a <= start b.

(** The loop over [sorted_results]; [parts] is kept in reverse order. *)
Fixpoint mask_loop (text : str) (rs : list span) (last_end : Z)
    (parts : list str) : list str * Z :=
  match rs with
  | [] => (parts, last_end)
  | r :: rest =>
    if start r <? last_end then mask_loop text rest last_end parts
    else
      let original := slice text (start r) (end_ r) in
      mask_loop text rest (end_ r)
        (_mask_value (entity_type r) original
           :: slice text last_end (start r) :: parts)
  end.

Definition _apply_masks_to_text (text : str) (results : list span) : str :=
  match results with
  | [] => text
  | _ =>
    let sorted_results := sorted_by_start results in
    let '(parts, last_end) := mask_loop text sorted_results 0 [] in
    List.concat (rev (slice_from text last_end :: parts))
  end.

(** The curation rule in the words of the specification: walking the spans
    in order, a span is retained when no span has been retained yet or when
    it starts at or after the end of the last retained one. *)
Fixpoint spec_retained (rs : list span) (last : option span) : list span :=
  match rs with
  | [] => []
  | r :: rest =>
    match last with
    | None => r :: spec_retained rest (Some r)
    | Some p =>
      if end_ p <=? start r then r :: spec_retained rest (Some r)
      else spec_retained rest last
    end
  end.

(** The text built from a list of retained spans: the untouched text before
    each span, the span's mask, and the text after the last span. *)
Fixpoint render (text : str) (kept : list span) (from : Z) : str :=
  match kept with
  | [] => slice_from text from
  | r :: rest =>
    slice text from (start r)
      ++ _mask_value (entity_type r) (slice text (start r) (end_ r))
      ++ render text rest (end_ r)
  end.

End Masking.

(* ================================================================== *)
(** * The risk aggregator of [report_generator.py] *)
(* ================================================================== *)

Module Report.

Record EntityInfo : Type := mkEntityInfo {
  entity_type : str;
  text : str;
  start : Z;
  end_ : Z;
  score : Q;
  source : str;
  verified : bool;
  llm_reason : option str
}.

Record FileResult : Type := mkFileResult {
  filename : str;
  filepath : str;
  file_type : str;
  file_size : Z;
  entities : list EntityInfo;
  error : option str;
  process_time : Q
}.

Definition RISK_LEVELS : list (str * Z) :=
  [(py "critical", 80); (py "high", 60); (py "medium", 40); (py "low", 0)].

Definition ENTITY_WEIGHTS : list (str * Z) :=
  [(py "CN_ID_CARD", 10);
   (py "CN_BANK_CARD", 10);
   (py "CN_PASSPORT", 8);
   (py "CN_PHONE", 5);
   (py "CN_EMAIL", 3);
   (py "PERSON", 4);
   (py "CN_DRIVER_LICENSE", 6);
   (py "CN_MILITARY_ID", 8);
   (py "CN_SOCIAL_CREDIT_CODE", 5);
   (py "CN_JWT", 7);
   (py "CN_CLOUD_KEY", 9);
   (py "PRIVATE_KEY", 10);
   (py "DB_CONNECTION", 8);
   (py "default", 2)].

(** [ENTITY_WEIGHTS.get(entity_type, ENTITY_WEIGHTS["default"])]. *)
Definition weight_of (entity_type : str) : Z :=
  dict_get ENTITY_WEIGHTS entity_type (dict_get ENTITY_WEIGHTS (py "default") 0).

(** [score += int(weight * entity.score)] for one entity: the product is
    a double, rounded from the exact product, and [int] truncates it. *)
Definition contribution (e : EntityInfo) : Z :=
  py_int (round_double (inject_Z (weight_of (entity_type e)) * score e)).

Fixpoint entity_loop (es : list EntityInfo) (score : Z) : Z :=
  match es with
  | [] => score
  | e :: r => entity_loop r (score + contribution e)
  end.

Fixpoint file_loop (frs : list FileResult) (score : Z) : Z :=
  match frs with
  | [] => score
  | fr :: r => file_loop r (entity_loop (entities fr) score)
  end.

(** The first level, in the order of the table, whose minimum the score
    reaches; "low" when there is none. *)
Fixpoint level_loop (levels : list (str * Z)) (score : Z) : str :=
  match levels with
  | [] => py "low"
  | (level, min_score) :: r =>
    if min_score <=? score then level else level_loop r score
  end.

Definition _calculate_risk (_file_results : list FileResult) : Z * str :=
  let score := file_loop _file_results 0 in
  let score := Z.min score 100 in
  (score, level_loop RISK_LEVELS score).

(** [add_entity]: the entity is appended to the first file result with the
    given name, or to a new file result appended to the list.  The file
    type of a new file result, [Path(filename).suffix], is passed in. *)
Definition new_entity (filename entity_type text : str) (start end_ : Z)
    (score : Q) (source : str) (verified : bool) (llm_reason : option str)
  : EntityInfo :=
  mkEntityInfo entity_type text start end_ score
    (match source with [] => filename | _ => source end) verified llm_reason.

Definition append_entity (fr : FileResult) (e : EntityInfo) : FileResult :=
  mkFileResult (filename fr) (filepath fr) (file_type fr) (file_size fr)
    (entities fr ++ [e]) (error fr) (process_time fr).

Fixpoint add_to_files (suffix : str) (frs : list FileResult) (name : str)
    (e : EntityInfo) : list FileResult :=
  match frs with
  | [] => [mkFileResult name [] suffix 0 [e] None 0%Q]
  | fr :: r =>
    if str_eqb (filename fr) name then append_entity fr e :: r
    else fr :: add_to_files suffix r name e
  end.

Definition add_entity (suffix : str) (_file_results : list FileResult)
    (filename entity_type text : str) (start end_ : Z) (score : Q)
    (source : str) (verified : bool) (llm_reason : option str)
  : list FileResult :=
  add_to_files suffix _file_results filename
    (new_entity filename entity_type text start end_ score source verified
       llm_reason).

(** The aggregate in the words of the specification: the floor of the sum
    of weight times score over all entities, capped at 100. *)
Definition all_entities (frs : list FileResult) : list EntityInfo :=
  flat_map entities frs.

Definition weighted_sum (es : list EntityInfo) : Q :=
  fold_right (fun e acc => inject_Z (weight_of (entity_type e)) * score e + acc)%Q
    0%Q es.

Definition spec_risk_score (frs : list FileResult) : Z :=
  Z.min 100 (Qfloor (weighted_sum (all_entities frs))).

(** What the loops add up: each entity's product, truncated on its own. *)
Definition sum_contributions (es : list EntityInfo) : Z :=
  fold_right (fun e acc => contribution e + acc) 0 es.

(** The level of a score, by the thresholds of [RISK_LEVELS]. *)
Definition spec_level (score : Z) : str :=
  if 80 <=? score then py "critical"
  else if 60 <=? score then py "high"
  else if 40 <=? score then py "medium"
  else py "low".

Definition nonneg_scores (frs : list FileResult) : Prop :=
  Forall (fun e => (0 <= score e)%Q) (all_entities frs).

(** The product of weight and score is a double as it stands: nothing is
    lost when Python rounds it. *)
Definition exact_product (e : EntityInfo) : Prop :=
  (round_double (inject_Z (weight_of (entity_type e)) * score e)
   == inject_Z (weight_of (entity_type e)) * score e)%Q.

Definition exact_products (frs : list FileResult) : Prop :=
  Forall exact_product (all_entities frs).

(** The product stays within the range of doubles.  Beyond it Python's
    product is infinite and [int] raises OverflowError, which
    [_calculate_risk] lets through. *)
Definition finite_product (e : EntityInfo) : Prop :=
  (Qabs (inject_Z (weight_of (entity_type e)) * score e)
   < inject_Z FLOAT_OVERFLOW)%Q.

Definition finite_products (frs : list FileResult) : Prop :=
  Forall finite_product (all_entities frs).

End Report.

(* ================================================================== *)
(** * A small JSON reader and writer *)
(* ================================================================== *)

(** An instance of [pylib] on which the development can be run: the JSON
    grammar of RFC 8259 read into [pyval], and the writer with the
    separators and the ASCII escaping of [json.dumps].  Code points above
    the basic plane, NaN and the infinities are not handled. *)
Module MiniJson.

Definition is_ws (c : char) : bool :=
  ((c =? 32) || (c =? 9) || (c =? 10) || (c =? 13))%N.

Fixpoint skip_ws (s : str) : str :=
  match s with
  | c :: r => if is_ws c then skip_ws r else s
  | [] => []
  end.

Fixpoint take_digits (s : str) (acc : list Z) : list Z * str :=
  match s with
  | c :: r =>
    match int_of_char c with
    | Some d => take_digits r (d :: acc)
    | None => (rev acc, s)
    end
  | [] => (rev acc, [])
  end.

Definition digits_value (ds : list Z) : Z :=
  fold_left (fun acc d => acc * 10 + d) ds 0.

Definition pow10 (k : Z) : Q :=
  if 0 <=? k then inject_Z (10 ^ k) else (1 # Z.to_pos (10 ^ (- k))).

Definition parse_exponent (s : str) : option (Z * str) :=
  match s with
  | c :: r =>
    if ((c =? 101) || (c =? 69))%N then
      let '(neg, r1) :=
        match r with
        | 45%N :: r' => (true, r')
        | 43%N :: r' => (false, r')
        | _ => (false, r)
        end in
      match take_digits r1 [] with
      | ([], _) => None
      | (ds, r2) => Some (if neg then - digits_value ds else digits_value ds, r2)
      end
    else Some (0, s)
  | [] => Some (0, [])
  end.

Definition parse_fraction (s : str) : option (Q * str) :=
  match s with
  | 46%N :: r =>
    match take_digits r [] with
    | ([], _) => None
    | (ds, r1) =>
      Some (inject_Z (digits_value ds) * pow10 (- Z.of_nat (List.length ds)), r1)%Q
    end
  | _ => Some (0%Q, s)
  end.

(** A numeral with a fraction or an exponent is a float. *)
Definition float_tail (s : str) : bool :=
  match s with
  | c :: _ => ((c =? 46) || (c =? 101) || (c =? 69))%N
  | [] => false
  end.

Definition parse_number (s : str) : option (pyval * str) :=
  let '(neg, s1) :=
    match s with 45%N :: r => (true, r) | _ => (false, s) end in
  match take_digits s1 [] with
  | ([], _) => None
  | (d :: ds, s2) =>
    if (d =? 0) && negb (match ds with [] => true | _ => false end) then None
    else if negb (float_tail s2) then
      let n := digits_value (d :: ds) in
      Some (PyInt (if neg then - n else n), s2)
    else
      match parse_fraction s2 with
      | None => None
      | Some (f, s3) =>
        match parse_exponent s3 with
        | None => None
        | Some (e, s4) =>
          let m := ((inject_Z (digits_value (d :: ds)) + f) * pow10 e)%Q in
          Some (PyNum (Qred (if neg then - m else m)%Q), s4)
        end
      end
  end.

Definition hex_value (c : char) : option N :=
  if is_digit c then Some (c - 48)%N
  else if ((97 <=? c) && (c <=? 102))%N then Some (c - 87)%N
  else if ((65 <=? c) && (c <=? 70))%N then Some (c - 55)%N
  else None.

Definition hex4 (a b c d : char) : option N :=
  match hex_value a, hex_value b, hex_value c, hex_value d with
  | Some x, Some y, Some z, Some w => Some (((x * 16 + y) * 16 + z) * 16 + w)%N
  | _, _, _, _ => None
  end.

Definition simple_escape (e : char) : option char :=
  if (e =? 34)%N then Some 34%N
  else if (e =? 92)%N then Some 92%N
  else if (e =? 47)%N then Some 47%N
  else if (e =? 98)%N then Some 8%N
  else if (e =? 102)%N then Some 12%N
  else if (e =? 110)%N then Some 10%N
  else if (e =? 114)%N then Some 13%N
  else if (e =? 116)%N then Some 9%N
  else None.

(** The body of a string, after its opening quote. *)
Fixpoint parse_string_body (s : str) (acc : str) : option (str * str) :=
  match s with
  | [] => None
  | c :: r =>
    if (c =? 34)%N then Some (rev acc, r)
    else if (c =? 92)%N then
      match r with
      | e :: r1 =>
        if (e =? 117)%N then
          match r1 with
          | a :: b :: x :: d :: r2 =>
            match hex4 a b x d with
            | Some u => parse_string_body r2 (u :: acc)
            | None => None
            end
          | _ => None
          end
        else
          match simple_escape e with
          | Some u => parse_string_body r1 (u :: acc)
          | None => None
          end
      | [] => None
      end
    else if (c <? 32)%N then None
    else parse_string_body r (c :: acc)
  end.

(** Assignment into a dict: a repeated key keeps its place and takes the
    later value. *)
Fixpoint dict_set (kv : list (str * pyval)) (k : str) (v : pyval)
  : list (str * pyval) :=
  match kv with
  | [] => [(k, v)]
  | (k', v') :: r =>
    if str_eqb k' k then (k', v) :: r else (k', v') :: dict_set r k v
  end.

Fixpoint parse_value (fuel : nat) (s : str) : option (pyval * str) :=
  match fuel with
  | O => None
  | S f =>
    match skip_ws s with
    | 123%N :: r =>
      match skip_ws r with
      | 125%N :: r' => Some (PyDict [], r')
      | _ => parse_members f r []
      end
    | 91%N :: r =>
      match skip_ws r with
      | 93%N :: r' => Some (PyList [], r')
      | _ => parse_elems f r []
      end
    | 34%N :: r =>
      match parse_string_body r [] with
      | Some (t, r') => Some (PyStr t, r')
      | None => None
      end
    | 116%N :: 114%N :: 117%N :: 101%N :: r => Some (PyBool true, r)
    | 102%N :: 97%N :: 108%N :: 115%N :: 101%N :: r => Some (PyBool false, r)
    | 110%N :: 117%N :: 108%N :: 108%N :: r => Some (PyNone, r)
    | s' =>
      parse_number s'
    end
  end
with parse_elems (fuel : nat) (s : str) (acc : list pyval)
  : option (pyval * str) :=
  match fuel with
  | O => None
  | S f =>
    match parse_value f s with
    | Some (v, r) =>
      match skip_ws r with
      | 44%N :: r' => parse_elems f r' (v :: acc)
      | 93%N :: r' => Some (PyList (rev (v :: acc)), r')
      | _ => None
      end
    | None => None
    end
  end
with parse_members (fuel : nat) (s : str) (acc : list (str * pyval))
  : option (pyval * str) :=
  match fuel with
  | O => None
  | S f =>
    match skip_ws s with
    | 34%N :: r =>
      match parse_string_body r [] with
      | Some (k, r1) =>
        match skip_ws r1 with
        | 58%N :: r2 =>
          match parse_value f r2 with
          | Some (v, r3) =>
            match skip_ws r3 with
            | 44%N :: r4 => parse_members f r4 (dict_set acc k v)
            | 125%N :: r4 => Some (PyDict (dict_set acc k v), r4)
            | _ => None
            end
          | None => None
          end
        | _ => None
        end
      | None => None
      end
    | _ => None
    end
  end.

Definition loads (s : str) : option pyval :=
  match parse_value (2 * List.length s + 2) s with
  | Some (v, r) => match skip_ws r with [] => Some v | _ => None end
  | None => None
  end.

(** A digit part of [float]: digits, with single underscores allowed
    between two digits. *)
Fixpoint take_digitpart (s : str) (acc : list Z) : list Z * str :=
  match s with
  | c :: r =>
    match int_of_char c with
    | Some d => take_digitpart r (d :: acc)
    | None =>
      match acc, r with
      | _ :: _, c' :: _ =>
        if (c =? 95)%N && is_digit c' then take_digitpart r acc
        else (rev acc, s)
      | _, _ => (rev acc, s)
      end
    end
  | [] => (rev acc, [])
  end.

Definition float_exponent (s : str) : option (Z * str) :=
  match s with
  | c :: r =>
    if ((c =? 101) || (c =? 69))%N then
      let '(neg, r1) :=
        match r with
        | 45%N :: r' => (true, r')
        | 43%N :: r' => (false, r')
        | _ => (false, r)
        end in
      match take_digitpart r1 [] with
      | ([], _) => None
      | (ds, r2) => Some (if neg then - digits_value ds else digits_value ds, r2)
      end
    else Some (0, s)
  | [] => Some (0, [])
  end.

(** [float] of a string: surrounding white space, an optional sign, and
    [digits], [digits.], [.digits] or [digits.digits] with an optional
    exponent.  The words inf, infinity and nan, which [float] also reads,
    have no value here and are refused. *)
Definition float_of_str (s : str) : option Q :=
  let t := strip s in
  let '(neg, t1) :=
    match t with
    | 45%N :: r => (true, r)
    | 43%N :: r => (false, r)
    | _ => (false, t)
    end in
  let '(ds, t2) := take_digitpart t1 [] in
  let '(fs, t3) :=
    match t2 with
    | 46%N :: r => take_digitpart r []
    | _ => ([], t2)
    end in
  match ds, fs with
  | [], [] => None
  | _, _ =>
    match float_exponent t3 with
    | Some (e, []) =>
      let f :=
        (inject_Z (digits_value fs) * pow10 (- Z.of_nat (List.length fs)))%Q in
      let m := ((inject_Z (digits_value ds) + f) * pow10 e)%Q in
      Some (Qred (if neg then - m else m)%Q)
    | _ => None
    end
  end.

(** ** Writer *)

Definition dec (z : Z) : str :=
  py (DecimalString.NilZero.string_of_int (Z.to_int z)).

Fixpoint frac_digits (fuel : nat) (num den : Z) : str :=
  match fuel with
  | O => []
  | S f =>
    let d := (num * 10) / den in
    let r := (num * 10) mod den in
    N.of_nat (Z.to_nat (48 + d)) :: (if r =? 0 then [] else frac_digits f r den)
  end.

Definition dumps_num (q : Q) : str :=
  let n := Z.abs (Qnum q) in
  let d := Zpos (Qden q) in
  (if Qnum q <? 0 then py "-" else []) ++ dec (n / d) ++ py "."
    ++ frac_digits 17 (n mod d) d.

Definition hex_digit (n : N) : char :=
  if (n <? 10)%N then (48 + n)%N else (87 + n)%N.

Definition escape_char (c : char) : str :=
  if (c =? 34)%N then [92; 34]%N
  else if (c =? 92)%N then [92; 92]%N
  else if (c =? 10)%N then [92; 110]%N
  else if (c =? 13)%N then [92; 114]%N
  else if (c =? 9)%N then [92; 116]%N
  else if (c =? 8)%N then [92; 98]%N
  else if (c =? 12)%N then [92; 102]%N
  else if ((32 <=? c) && (c <=? 126))%N then [c]
  else [92; 117; hex_digit (c / 4096 mod 16); hex_digit (c / 256 mod 16);
        hex_digit (c / 16 mod 16); hex_digit (c mod 16)]%N.

Definition dumps_str (s : str) : str :=
  [34%N] ++ flat_map escape_char s ++ [34%N].

Fixpoint dumps (v : pyval) : str :=
  match v with
  | PyNone => py "null"
  | PyBool true => py "true"
  | PyBool false => py "false"
  | PyInt z => dec z
  | PyNum q => dumps_num q
  | PyStr s => dumps_str s
  | PyList l =>
    py "[" ++
    (fix go (l : list pyval) : str :=
       match l with
       | [] => []
       | x :: r =>
         match r with
         | [] => dumps x
         | _ => dumps x ++ py ", " ++ go r
         end
       end) l ++ py "]"
  | PyDict kv =>
    py "{" ++
    (fix go (kv : list (str * pyval)) : str :=
       match kv with
       | [] => []
       | (k, x) :: r =>
         match r with
         | [] => dumps_str k ++ py ": " ++ dumps x
         | _ => dumps_str k ++ py ": " ++ dumps x ++ py ", " ++ go r
         end
       end) kv ++ py "}"
  end.

Definition lib : pylib := mkPylib loads dumps float_of_str.

End MiniJson.

(* ================================================================== *)
(** * Further Python primitives *)
(* ================================================================== *)

Module PyMore.

(** [len(set(s))]: the number of distinct characters. *)
Definition distinct_count (s : str) : nat := List.length (nodup N.eq_dec s).

(** The digits of [int(s)] after the sign: decimal digits, with single
    underscores allowed between digits.  [seen] tells whether the previous
    character was a digit. *)
Fixpoint int_digits (s : str) (acc : Z) (seen : bool) : option Z :=
  match s with
  | [] => if seen then Some acc else None
  | c :: r =>
    if is_digit c then int_digits r (acc * 10 + digit_value c) true
    else if (c =? 95)%N then
      if seen then int_digits r acc false else None
    else None
  end.

(** [int(s)] of a string: surrounding white space is dropped, a sign is
    allowed; [None] stands for ValueError. *)
Definition int_of_str (s : str) : option Z :=
  match strip s with
  | 45%N :: r => option_map Z.opp (int_digits r 0 false)
  | 43%N :: r => int_digits r 0 false
  | t => int_digits t 0 false
  end.

(** [s.lower()] as it acts on ASCII text. *)
Definition lower_char (c : char) : char :=
  if ((65 <=? c) && (c <=? 90))%N then (c + 32)%N else c.

Definition lower (s : str) : str := map lower_char s.

Definition isascii (s : str) : bool := forallb (fun c => (c <? 128)%N) s.

Definition is_lower_letter (c : char) : bool := ((97 <=? c) && (c <=? 122))%N.
Definition is_upper_letter (c : char) : bool := ((65 <=? c) && (c <=? 90))%N.

(** [s.islower()]: some cased character, and no upper-case one. *)
Definition islower (s : str) : bool :=
  existsb is_lower_letter s && negb (existsb is_upper_letter s).

(** [s.index(c)] for a one-character [c]; [None] stands for ValueError. *)
Fixpoint index_of (c : char) (s : str) (i : Z) : option Z :=
  match s with
  | [] => None
  | x :: r => if (x =? c)%N then Some i else index_of c r (i + 1)
  end.

(** [c in s] for a one-character [c]. *)
Definition contains (s : str) (c : char) : bool := existsb (N.eqb c) s.

(** [s in choices] for a list of strings. *)
Definition str_in (s : str) (choices : list str) : bool :=
  existsb (str_eqb s) choices.

End PyMore.

Import PyMore.

(* ================================================================== *)
(** * The degeneracy filters of the bank-card and ID-card recognizers *)
(* ================================================================== *)

Module CnBankCardFilter.

Definition sequential_patterns : list str :=
  map py ["1234567890123456"; "0123456789012345"; "0000000000000000";
          "1111111111111111"; "9999999999999999"]%string.

Definition invalid_prefixes : list str :=
  map py ["0000"; "1111"; "9999"; "0123"]%string.

Definition invalidate_result (pattern_text : str) : bool :=
  let card_number := remove_char (ch " ") (remove_char (ch "-") pattern_text) in
  if (distinct_count card_number =? 1)%nat then true
  else if existsb (fun pattern =>
                     str_eqb card_number (slice_to pattern (len card_number)))
                  sequential_patterns then true
  else if existsb (fun prefix => startswith prefix card_number)
                  invalid_prefixes then true
  else false.

End CnBankCardFilter.

Module CnIdCardFilter.
Import CnIdCard.

Definition sequential_patterns : list str :=
  map py ["123456789012345678"; "012345678901234567"; "111111111111111111";
          "000000000000000000"]%string.

Definition days_in_month : list Z :=
  [0; 31; 29; 31; 30; 31; 30; 31; 31; 30; 31; 30; 31].

(** The birth-date test; [None] stands for the ValueError of [int]. *)
Definition bad_birth_date (id_number : str) : option bool :=
  match int_of_str (slice id_number 6 10),
        int_of_str (slice id_number 10 12),
        int_of_str (slice id_number 12 14) with
  | Some year, Some month, Some day =>
    if (year <? 1900) || (2100 <? year) then Some true
    else if (month <? 1) || (12 <? month) then Some true
    else if (day <? 1) || (31 <? day) then Some true
    else
      match nth_error days_in_month (Z.to_nat month) with
      | Some days => Some (days <? day)
      | None => None
      end
  | _, _, _ => None
  end.

Definition invalidate_result (pattern_text : str) : bool :=
  let id_number := normalize pattern_text in
  if negb (len id_number =? 18) then true
  else if (distinct_count (slice_to id_number 17) =? 1)%nat then true
  else if existsb (fun pattern =>
                     str_eqb (slice_to id_number 17) (slice_to pattern 17))
                  sequential_patterns then true
  else
    match bad_birth_date id_number with
    | Some b => b
    | None => true
    end.

End CnIdCardFilter.

(* ================================================================== *)
(** * The driver-license, social-credit-code and postal-code recognizers *)
(* ================================================================== *)

Module CnDriverLicense.

Definition WEIGHTS : list Z := [7; 9; 10; 5; 8; 4; 2; 1; 6; 3; 7; 9; 10; 5; 8; 4; 2].

Definition CHECKSUM_MAP : list char :=
  [ch "1"; ch "0"; ch "X"; ch "9"; ch "8"; ch "7"; ch "6"; ch "5"; ch "4";
   ch "3"; ch "2"].

Definition normalize (pattern_text : str) : str :=
  upper (remove_char (ch " ") (remove_char (ch "-") pattern_text)).

(** [sum(int(license_num[i]) * WEIGHTS[i] for i in range(17))]. *)
Fixpoint weighted_sum (license_num : str) (idxs : list nat) : option Z :=
  match idxs with
  | [] => Some 0
  | i :: r =>
    match index license_num (Z.of_nat i), nth_error WEIGHTS i with
    | Some c, Some w =>
      match int_of_char c, weighted_sum license_num r with
      | Some d, Some rest => Some (d * w + rest)
      | _, _ => None
      end
    | _, _ => None
    end
  end.

Definition validate_result (pattern_text : str) : bool :=
  let license_num := normalize pattern_text in
  if len license_num =? 18 then
    match weighted_sum license_num (seq 0 17) with
    | Some total =>
      match nth_error CHECKSUM_MAP (Z.to_nat (total mod 11)),
            index license_num 17 with
      | Some expected, Some c => (c =? expected)%N
      | _, _ => false
      end
    | None => false
    end
  else if len license_num =? 15 then isdigit license_num
  else if len license_num =? 12 then isdigit license_num
  else false.

Definition invalidate_result (pattern_text : str) : bool :=
  let license_num := normalize pattern_text in
  let digits := filter is_digit license_num in
  (distinct_count digits =? 1)%nat.

End CnDriverLicense.

Module CnSocialCreditCode.

Definition VALID_CHARS : str := py "0123456789ABCDEFGHJKLMNPQRTUWXY".

Definition WEIGHTS : list Z :=
  [1; 3; 9; 27; 19; 26; 16; 17; 20; 29; 25; 13; 8; 24; 10; 30; 28].

Definition normalize (pattern_text : str) : str :=
  upper (remove_char (ch " ") (remove_char (ch "-") pattern_text)).

(** The loop [for i in range(17)]; [None] stands for the ValueError of
    [index] or the IndexError of a subscript. *)
Fixpoint total_loop (code : str) (idxs : list nat) (total : Z) : option Z :=
  match idxs with
  | [] => Some total
  | i :: r =>
    match index code (Z.of_nat i), nth_error WEIGHTS i with
    | Some c, Some w =>
      match index_of c VALID_CHARS 0 with
      | Some char_value => total_loop code r (total + char_value * w)
      | None => None
      end
    | _, _ => None
    end
  end.

Definition validate_result (pattern_text : str) : bool :=
  let code := normalize pattern_text in
  if negb (len code =? 18) then false
  else if negb (forallb (contains VALID_CHARS) code) then false
  else
    match total_loop code (seq 0 17) 0 with
    | Some total =>
      let remainder := total mod 31 in
      match index VALID_CHARS ((31 - remainder) mod 31), index code 17 with
      | Some expected_check, Some c => (c =? expected_check)%N
      | _, _ => false
      end
    | None => false
    end.

Definition invalid_chars : str := py "IOSVZ".

Definition invalidate_result (pattern_text : str) : bool :=
  let code := normalize pattern_text in
  if (distinct_count code =? 1)%nat then true
  else if existsb (contains invalid_chars) code then true
  else false.

End CnSocialCreditCode.

Module CnPostalCode.

Definition clean (pattern_text : str) : str :=
  remove_char (ch " ") (remove_char (ch "-") pattern_text).

Definition invalidate_result (pattern_text : str) : bool :=
  let code := clean pattern_text in
  if (distinct_count code =? 1)%nat then true
  else if str_in code (map py ["123456"; "654321"; "000000"; "111111";
                               "999999"]%string) then true
  else if startswith (py "00") code || startswith (py "99") code then true
  else false.

End CnPostalCode.

(** The social-credit-code rule of GB 32100-2015 in closed form: the value
    of a character is its place in the alphabet (0 for a character outside
    it), and the check character is the one at place (31 - sum mod 31)
    mod 31, where the sum weighs the seventeen leading characters. *)
Module CnSocialCreditRule.
Import CnSocialCreditCode.

Definition char_value (c : char) : Z :=
  match index_of c VALID_CHARS 0 with
  | Some v => v
  | None => 0
  end.

Fixpoint spec_total (cs : str) (ws : list Z) : Z :=
  match cs, ws with
  | c :: cs', w :: ws' => char_value c * w + spec_total cs' ws'
  | _, _ => 0
  end.

Definition spec_check_char (body : str) : option char :=
  nth_error VALID_CHARS
    (Z.to_nat ((31 - spec_total body WEIGHTS mod 31) mod 31)).

Definition valid_char : char -> bool := contains VALID_CHARS.

End CnSocialCreditRule.

(** Shapes of backend answers: a body wrapped in a code fence whose opening
    line carries a language tag, and the number of line breaks of a text. *)
Module FenceShapes.
Import LLMVerifier.

Definition no_newline (s : str) : bool :=
  forallb (fun c => negb (c =? 10)%N) s.

Definition fenced (lang body : str) : str :=
  FENCE ++ lang ++ newline ++ body ++ newline ++ FENCE.

Definition newline_count (s : str) : nat := count_occ N.eq_dec s 10%N.

End FenceShapes.

(** The verification step of [analyze_text] in [backend/main.py]: the
    results are verified and the pairs are turned into entity results. *)
Module Pipeline.
Import LLMVerifier.

Definition verify_and_collect (L : pylib) (v : verifier) (text : str)
    (results : list RecognizerResult) (log : list str) : list EntityResult :=
  collect_entity_results text (fst (verify_results L v text results log)).

(** The entity result of a recognizer result that was not escalated. *)
Definition passed_through (text : str) (r : RecognizerResult) : EntityResult :=
  mkEntityResult (r_entity_type r) (slice text (r_start r) (r_end r))
    (r_start r) (r_end r) (r_score r) false None.

(** [EntityResult] of [main.py] is a pydantic model with the field
    [llm_reason: Optional[str]]: building it succeeds when the reason of
    the verdict is a string or null, and may raise ValidationError on any
    other JSON value.  Only the entity of a sensitive verdict is built. *)
Definition reason_is_text (o : option VerificationResult) : Prop :=
  match o with
  | Some vr =>
    truthy (is_sensitive vr) = true ->
    reason vr = PyNone \/ exists s, reason vr = PyStr s
  | None => True
  end.

Definition reasons_are_text
    (verified : list (RecognizerResult * option VerificationResult)) : Prop :=
  Forall (fun p => reason_is_text (snd p)) verified.

End Pipeline.

(* ================================================================== *)
(** * False-positive filter and text anonymisation of [backend/main.py] *)
(* ================================================================== *)

Module ResultFilter.
Import LLMVerifier.

Definition FALSE_POSITIVE_NAMES : list str :=
  map py
    ["github"; "slack"; "docker"; "redis"; "mysql"; "nginx"; "apache";
     "linux"; "windows"; "macos"; "python"; "java"; "golang"; "rust";
     "kubernetes"; "jenkins"; "gitlab"; "bitbucket"; "aws"; "azure"; "gcp";
     "ghp"; "gho"; "ghs"; "ghu"; "xoxb"; "xoxp";
     "赵"; "钱"; "孙"; "李"; "周"; "吴"; "郑"; "王"; "冯"; "陈"]%string.

(** The tests for a PERSON result: [true] when the loop says [continue]. *)
Definition person_false_positive (entity_text : str) : bool :=
  if len entity_text <=? 1 then true
  else if str_in (lower entity_text) FALSE_POSITIVE_NAMES then true
  else if isascii entity_text && islower entity_text
          && (len entity_text <? 5) then true
  else false.

Fixpoint filter_false_positives (results : list RecognizerResult) (text : str)
  : list RecognizerResult :=
  match results with
  | [] => []
  | r :: rest =>
    let entity_text := slice text (r_start r) (r_end r) in
    let entity_type := r_entity_type r in
    if str_eqb entity_type (py "PERSON") && person_false_positive entity_text
    then filter_false_positives rest text
    else if str_eqb entity_type (py "DATE_TIME")
    then filter_false_positives rest text
    else r :: filter_false_positives rest text
  end.

Definition to_span (r : RecognizerResult) : Masking.span :=
  Masking.mkSpan (r_entity_type r) (r_start r) (r_end r).

(** [anonymize_text_segment], with the results of the analyzer passed in. *)
Definition anonymize_text_segment (text : str)
    (analyzed : list RecognizerResult) (score_threshold : Q) : str :=
  match text with
  | [] => text
  | _ =>
    let results :=
      filter (fun r => Qle_bool score_threshold (r_score r)) analyzed in
    let results := filter_false_positives results text in
    Masking._apply_masks_to_text text (map to_span results)
  end.

End ResultFilter.

Module MaskingShapes.
Import Masking.

(** [b] starts at or after the end of [a]. *)
Definition follows (a b : span) : Prop := end_ a <= start b.

Definition BULLET : char := 9679%N.

(** The entity types that [_mask_value] treats on their own. *)
Definition named_types : list str :=
  map py ["CN_PHONE"; "CN_ID_CARD"; "CN_BANK_CARD"; "CN_EMAIL"; "PERSON";
          "CN_PASSPORT"; "CN_DRIVER_LICENSE"; "CN_MILITARY_ID";
          "CN_VEHICLE_PLATE"; "LOCATION"]%string.

End MaskingShapes.

(* ================================================================== *)
(** * Report statistics and risk summaries *)
(* ================================================================== *)

(** [_calculate_statistics] and [_generate_risk_summaries] of
    [report_generator.py].  A [dict] and a [Counter] are association lists
    in the order of first insertion; floats are exact rationals, as for the
    scores. *)
Module ReportSummaries.
Import Report.

Record RiskSummary : Type := mkRiskSummary {
  level : str;
  score : Z;
  description : str;
  affected_files : list str;
  entity_counts : list (str * Z)
}.

Record Statistics : Type := mkStatistics {
  total_files : Z;
  processed_files : Z;
  failed_files : Z;
  total_entities : Z;
  entity_type_counts : list (str * Z);
  file_type_counts : list (str * Z);
  avg_entities_per_file : Q;
  total_process_time : Q
}.

(** [d[key] = value]: a key that is present keeps its place. *)
Fixpoint dict_set {A} (kv : list (str * A)) (key : str) (value : A)
  : list (str * A) :=
  match kv with
  | [] => [(key, value)]
  | (k, v) :: r =>
    if str_eqb k key then (k, value) :: r else (k, v) :: dict_set r key value
  end.

(** [d[key]]: [None] stands for [KeyError]. *)
Fixpoint dict_index {A} (kv : list (str * A)) (key : str) : option A :=
  match kv with
  | [] => None
  | (k, v) :: r => if str_eqb k key then Some v else dict_index r key
  end.

(** [counter[key] += 1] on a [Counter], where a missing key counts 0. *)
Definition counter_incr (c : list (str * Z)) (key : str) : list (str * Z) :=
  dict_set c key (dict_get c key 0 + 1).

(** [f.error] as a condition: [None] and the empty string are false. *)
Definition has_error (fr : FileResult) : bool :=
  match error fr with
  | Some (_ :: _) => true
  | _ => false
  end.

Fixpoint count_entity_types (es : list EntityInfo)
    (entity_types : list (str * Z)) : list (str * Z) :=
  match es with
  | [] => entity_types
  | entity :: r =>
    count_entity_types r (counter_incr entity_types (entity_type entity))
  end.

Record tally : Type := mkTally {
  entity_types : list (str * Z);
  file_types : list (str * Z);
  tally_entities : Z;
  tally_time : Q
}.

Fixpoint stats_loop (frs : list FileResult) (t : tally) : tally :=
  match frs with
  | [] => t
  | fr :: r =>
    let file_types := counter_incr (file_types t) (file_type fr) in
    let total_entities :=
      tally_entities t + Z.of_nat (List.length (entities fr)) in
    let total_time := (tally_time t + process_time fr)%Q in
    let entity_types := count_entity_types (entities fr) (entity_types t) in
    stats_loop r (mkTally entity_types file_types total_entities total_time)
  end.

Definition _calculate_statistics (_file_results : list FileResult)
  : Statistics :=
  let total_files := Z.of_nat (List.length _file_results) in
  let processed_files :=
    Z.of_nat (List.length (filter (fun f => negb (has_error f)) _file_results)) in
  let failed_files :=
    Z.of_nat (List.length (filter has_error _file_results)) in
  let t := stats_loop _file_results (mkTally [] [] 0 0%Q) in
  mkStatistics total_files processed_files failed_files (tally_entities t)
    (entity_types t) (file_types t)
    (if 0 <? processed_files
     then (inject_Z (tally_entities t) / inject_Z processed_files)%Q
     else 0%Q)
    (tally_time t).

(** The two dictionaries of [_generate_risk_summaries]. *)
Definition groups : Type := (list (str * list str) * list (str * Z))%type.

(** The body of the inner loop for one entity of the file [filename]. *)
Definition group_step (filename : str) (entity : EntityInfo) (g : groups)
  : option groups :=
  let '(type_files, type_counts) := g in
  let t := entity_type entity in
  let '(type_files, type_counts) :=
    if negb (dict_mem type_files t)
    then (dict_set type_files t [], dict_set type_counts t 0)
    else (type_files, type_counts) in
  match dict_index type_files t with
  | None => None
  | Some files =>
    let type_files :=
      if negb (str_in filename files)
      then dict_set type_files t (files ++ [filename])
      else type_files in
    match dict_index type_counts t with
    | None => None
    | Some n => Some (type_files, dict_set type_counts t (n + 1))
    end
  end.

Fixpoint group_entities (filename : str) (es : list EntityInfo) (g : groups)
  : option groups :=
  match es with
  | [] => Some g
  | entity :: r =>
    match group_step filename entity g with
    | None => None
    | Some g' => group_entities filename r g'
    end
  end.

Fixpoint group_files (frs : list FileResult) (g : groups) : option groups :=
  match frs with
  | [] => Some g
  | fr :: r =>
    match group_entities (filename fr) (entities fr) g with
    | None => None
    | Some g' => group_files r g'
    end
  end.

Definition high_risk_types : list str :=
  map py ["CN_ID_CARD"; "CN_BANK_CARD"; "CN_PASSPORT"; "PRIVATE_KEY";
          "CN_CLOUD_KEY"]%string.

Definition medium_risk_types : list str :=
  map py ["CN_PHONE"; "CN_JWT"; "DB_CONNECTION"; "PERSON"]%string.

Definition summary_level (entity_type : str) : str :=
  if str_in entity_type high_risk_types then py "high"
  else if str_in entity_type medium_risk_types then py "medium"
  else py "low".

Definition summary_description (entity_type : str) (count : Z) : str :=
  if str_in entity_type high_risk_types
  then py "发现 " ++ MiniJson.dec count ++ py " 个高风险敏感信息 ("
       ++ entity_type ++ py ")"
  else if str_in entity_type medium_risk_types
  then py "发现 " ++ MiniJson.dec count ++ py " 个中等风险敏感信息 ("
       ++ entity_type ++ py ")"
  else py "发现 " ++ MiniJson.dec count ++ py " 个低风险敏感信息 ("
       ++ entity_type ++ py ")".

Definition summary_of (type_files : list (str * list str))
    (item : str * Z) : RiskSummary :=
  let '(entity_type, count) := item in
  mkRiskSummary (summary_level entity_type)
    (count * dict_get ENTITY_WEIGHTS entity_type 2)
    (summary_description entity_type count)
    (dict_get type_files entity_type [])
    [(entity_type, count)].

Definition level_order : list (str * Z) :=
  [(py "critical", 0); (py "high", 1); (py "medium", 2); (py "low", 3)].

(** [level_order.get(x.level, 4)]. *)
Definition level_rank (x : RiskSummary) : Z :=
  dict_get level_order (level x) 4.

(** The sort key [(level_order.get(x.level, 4), -x.score)]. *)
Definition sort_key (x : RiskSummary) : Z * Z := (level_rank x, - score x).

(** The order of Python on pairs of integers. *)
Definition key_leb (a b : Z * Z) : bool :=
  (fst a <? fst b) || ((fst a =? fst b) && (snd a <=? snd b)).

(** [summaries.sort(key=...)]: a stable sort, written as the insertion sort
    that keeps equal keys in their order of arrival. *)
Fixpoint insert_by_key (x : RiskSummary) (l : list RiskSummary)
  : list RiskSummary :=
  match l with
  | [] => [x]
  | y :: l' =>
    if key_leb (sort_key x) (sort_key y) then x :: l
    else y :: insert_by_key x l'
  end.

Definition sorted_by_key (summaries : list RiskSummary) : list RiskSummary :=
  fold_right insert_by_key [] summaries.

Definition _generate_risk_summaries (_file_results : list FileResult)
  : option (list RiskSummary) :=
  match group_files _file_results ([], []) with
  | None => None
  | Some (type_files, type_counts) =>
    Some (sorted_by_key (map (summary_of type_files) type_counts))
  end.

(** The number of entries of [l] equal to [t]. *)
Definition occurrences (t : str) (l : list str) : Z :=
  Z.of_nat (List.length (filter (str_eqb t) l)).

Definition entity_types_of (frs : list FileResult) : list str :=
  map entity_type (all_entities frs).

(** The file [f] holds an entity of type [t]. *)
Definition holds_type (frs : list FileResult) (f t : str) : Prop :=
  exists fr e, In fr frs /\ filename fr = f /\ In e (entities fr)
               /\ entity_type e = t.

(** [a] may stand before [b]: a more severe level, or the same level and
    a score at least as high. *)
Definition comes_before (a b : RiskSummary) : Prop :=
  level_rank a < level_rank b
  \/ (level_rank a = level_rank b /\ score b <= score a).

(** The pairs (file name, entity type) in the order of the two loops. *)
Definition type_file_pairs (frs : list FileResult) : list (str * str) :=
  flat_map (fun fr => map (fun e => (filename fr, entity_type e)) (entities fr))
    frs.

(** What the two dictionaries hold after the pairs [seen]. *)
Definition grouped (seen : list (str * str)) (g : groups) : Prop :=
  map fst (fst g) = map fst (snd g)
  /\ snd g = fold_left counter_incr (map snd seen) []
  /\ (forall t, NoDup (dict_get (fst g) t []))
  /\ (forall t f, In f (dict_get (fst g) t []) <-> In (f, t) seen).

(** The entities of the first file result called [name]. *)
Definition entities_of (frs : list FileResult) (name : str)
  : list EntityInfo :=
  match List.find (fun fr => str_eqb (filename fr) name) frs with
  | Some fr => entities fr
  | None => []
  end.

End ReportSummaries.

(* ================================================================== *)
(** * Sample inputs *)
(* ================================================================== *)

Module Samples.
Import LLMVerifier.

(** A backend that always gives the same outcome, with the default
    threshold and context window. *)
Definition constant_backend (outcome : result str) : verifier :=
  mkVerifier 0.5%Q 30 (fun _ _ => outcome).

Definition sample_text : str := py "用户张三，邮编100080，手机13812345678。".

(** The postal code at [7, 13), found with score 0.3, and the phone number
    at [16, 27), found with score 1. *)
Definition postal_result : RecognizerResult :=
  mkRecognizerResult (py "CN_POSTAL_CODE") 7 13 0.3%Q.

Definition phone_result : RecognizerResult :=
  mkRecognizerResult (py "CN_PHONE") 16 27 1%Q.

Definition prose_answer : str := py "I think this is sensitive.".

Definition timeout_error : exn := mkExn OtherException (py "Request timed out.").

(** The answers [{"confidence": "high"}], [{"confidence": null}] and
    [{"confidence": 0.9}]. *)
Definition answer_confidence (value : str) : str :=
  py "{" ++ quote ++ py "confidence" ++ quote ++ py ": " ++ value ++ py "}".

Definition answer_high : str := answer_confidence (quote ++ py "high" ++ quote).
Definition answer_null : str := answer_confidence (py "null").
Definition answer_number : str := answer_confidence (py "0.9").

(** The answer whose confidence is the integer 10^400. *)
Definition answer_huge : str :=
  answer_confidence (py "1" ++ repeat 48%N 400).

(** Report samples: one confirmed ID card; two organisations found with
    score 0.75. *)
Definition entity (entity_type : string) (score : Q) : Report.EntityInfo :=
  Report.mkEntityInfo (py entity_type) [] 0 0 score [] false None.

Definition file_with (es : list Report.EntityInfo) : Report.FileResult :=
  Report.mkFileResult (py "a.txt") [] (py ".txt") 0 es None 0%Q.

Definition one_id_card : list Report.FileResult :=
  [file_with [entity "CN_ID_CARD" 1%Q]].

Definition two_organizations : list Report.FileResult :=
  [file_with [entity "ORGANIZATION" 0.75%Q; entity "ORGANIZATION" 0.75%Q]].

(** The doubles nearest to 1/3 and to 0.6. *)
Definition third : Q := 6004799503160661 # 18014398509481984.
Definition six_tenths : Q := 5404319552844595 # 9007199254740992.

End Samples.

(** Report samples: an ID card and a phone number in [a.txt], an ID card in
    [b.txt], and the two summaries of these files. *)
Module ReportSamples.
Import Report ReportSummaries.

Definition in_file (name : string) (es : list EntityInfo) : FileResult :=
  mkFileResult (py name) [] (py ".txt") 0 es None 0%Q.

Definition two_files : list FileResult :=
  [in_file "a.txt" [Samples.entity "CN_ID_CARD" 1%Q;
                    Samples.entity "CN_PHONE" 1%Q];
   in_file "b.txt" [Samples.entity "CN_ID_CARD" 1%Q]].

Definition two_files_groups : list (str * list str) :=
  [(py "CN_ID_CARD", [py "a.txt"; py "b.txt"]); (py "CN_PHONE", [py "a.txt"])].

Definition id_card_summary : RiskSummary :=
  summary_of two_files_groups (py "CN_ID_CARD", 2).

Definition phone_summary : RiskSummary :=
  summary_of two_files_groups (py "CN_PHONE", 1).

End ReportSamples.

(* ================================================================== *)
(** * Facts about Python strings *)
(* ================================================================== *)

Module PyFacts.

Lemma len_nonneg (s : str) : 0 <= len s.
Proof. unfold len. lia. Qed.

Lemma len_app (a b : str) : len (a ++ b) = len a + len b.
Proof. unfold len. rewrite length_app. lia. Qed.

Lemma str_eqb_refl (a : str) : str_eqb a a = true.
Proof.
  induction a as [|x a IH]; simpl; [reflexivity|].
  now rewrite N.eqb_refl, IH.
Qed.

Lemma str_eqb_eq (a b : str) : str_eqb a b = true <-> a = b.
Proof.
  split.
  - revert b. induction a as [|x a IH]; intros [|y b]; simpl; try discriminate; auto.
    intros H. apply andb_true_iff in H as [H1 H2].
    apply N.eqb_eq in H1. apply IH in H2. now subst.
  - intros ->. apply str_eqb_refl.
Qed.

Lemma upper_char_idem (c : char) : upper_char (upper_char c) = upper_char c.
Proof.
  unfold upper_char.
  destruct ((97 <=? c) && (c <=? 122))%N eqn:E; [|now rewrite E].
  apply andb_true_iff in E as [E1 E2].
  apply N.leb_le in E1. apply N.leb_le in E2.
  destruct ((97 <=? c - 32) && (c - 32 <=? 122))%N eqn:F; [|reflexivity].
  apply andb_true_iff in F as [F1 F2]. apply N.leb_le in F1. lia.
Qed.

Lemma norm_index_nat (n k : nat) :
  Z.to_nat (norm_index (Z.of_nat n) (Z.of_nat k)) = Nat.min k n.
Proof.
  unfold norm_index.
  destruct (Z.of_nat k <? 0) eqn:E; [apply Z.ltb_lt in E; lia|]. lia.
Qed.

Lemma slice_nat (s : str) (a b : nat) :
  slice s (Z.of_nat a) (Z.of_nat b) = skipn a (firstn b s).
Proof.
  unfold slice, len. rewrite !norm_index_nat.
  assert (F : firstn (Nat.min b (List.length s)) s = firstn b s).
  { destruct (Nat.le_gt_cases b (List.length s)) as [H|H].
    - now rewrite Nat.min_l.
    - rewrite Nat.min_r by lia. rewrite firstn_all. symmetry.
      apply firstn_all2. lia. }
  rewrite F.
  destruct (Nat.le_gt_cases a (List.length s)) as [H|H].
  - now rewrite (Nat.min_l a) by lia.
  - rewrite (Nat.min_r a) by lia.
    rewrite !skipn_all2; [reflexivity| |]; rewrite length_firstn; lia.
Qed.

Lemma slice_to_firstn (s : str) (k : nat) :
  slice_to s (Z.of_nat k) = firstn k s.
Proof. unfold slice_to. exact (slice_nat s 0 k). Qed.

Lemma slice_from_skipn (s : str) (k : nat) :
  slice_from s (Z.of_nat k) = skipn k s.
Proof.
  unfold slice_from, len. now rewrite slice_nat, firstn_all.
Qed.

Lemma index_nth_error (s : str) (k : nat) :
  (k < List.length s)%nat -> index s (Z.of_nat k) = nth_error s k.
Proof.
  intros H. unfold index, len.
  destruct (Z.of_nat k <? 0) eqn:E; [apply Z.ltb_lt in E; lia|].
  rewrite E. simpl.
  destruct (Z.of_nat (List.length s) <=? Z.of_nat k) eqn:F;
    [apply Z.leb_le in F; lia|].
  now rewrite Nat2Z.id.
Qed.

End PyFacts.

(* ================================================================== *)
(** * The Luhn check agrees with the stated rule *)
(* ================================================================== *)

Module CnBankCardFacts.
Import CnBankCard PyFacts.

Lemma luhn_step_doubled (i d : Z) :
  luhn_step i d = if i mod 2 =? 1 then doubled d else d.
Proof.
  unfold luhn_step, doubled. replace (d * 2) with (2 * d) by lia. reflexivity.
Qed.

Lemma odd_index_even_place (n : nat) :
  (Z.of_nat n mod 2 =? 1) = Nat.even (S n).
Proof.
  rewrite Nat.even_succ.
  destruct (Nat.odd n) eqn:E.
  - apply Nat.odd_spec in E. destruct E as [k ->].
    replace (Z.of_nat (2 * k + 1)) with (1 + Z.of_nat k * 2) by lia.
    now rewrite Z_mod_plus_full.
  - assert (Ev : Nat.even n = true)
      by (rewrite <- Nat.negb_odd; now rewrite E).
    apply Nat.even_spec in Ev. destruct Ev as [k ->].
    replace (Z.of_nat (2 * k)) with (0 + Z.of_nat k * 2) by lia.
    now rewrite Z_mod_plus_full.
Qed.

(** The loop over a list extended at its end. *)
Lemma luhn_loop_snoc (l : list Z) (d i acc : Z) :
  luhn_loop (l ++ [d]) i acc
  = luhn_loop l i acc + luhn_step (i + Z.of_nat (List.length l)) d.
Proof.
  revert i acc. induction l as [|x l IH]; intros i acc; simpl luhn_loop.
  - simpl. now rewrite Z.add_0_r.
  - rewrite IH.
    replace (i + 1 + Z.of_nat (List.length l))
      with (i + Z.of_nat (List.length (x :: l)))
      by (simpl List.length; rewrite Nat2Z.inj_succ; lia).
    reflexivity.
Qed.

Lemma luhn_total_spec_sum (digits : list Z) :
  luhn_total digits = spec_sum digits.
Proof.
  unfold luhn_total.
  induction digits as [|d r IH]; [reflexivity|].
  simpl rev. rewrite luhn_loop_snoc, IH.
  rewrite length_rev, Z.add_0_l, luhn_step_doubled, odd_index_even_place.
  cbn [spec_sum]. apply Z.add_comm.
Qed.

Lemma digits_of_digit_string (s : str) :
  forallb is_digit s = true -> digits_of s = Some (map digit_value s).
Proof.
  induction s as [|c s IH]; simpl; [reflexivity|].
  intros H. apply andb_true_iff in H as [Hc Hs].
  unfold int_of_char. rewrite Hc, (IH Hs). reflexivity.
Qed.

(** C3.  On every string of digits the Luhn check of the bank-card
    recognizer succeeds exactly when the rule of the specification holds:
    every second digit counted from the right is doubled, nine is taken off
    a doubled digit above nine, and the sum of all digits is divisible by
    ten.  The check accepts 4532015112830366 and rejects 1234567890123456. *)
Theorem luhn_checksum_is_the_stated_rule :
  (forall card_number : str,
      forallb is_digit card_number = true ->
      _luhn_checksum card_number
      = Some (spec_luhn_valid (map digit_value card_number)))
  /\ _luhn_checksum (py "4532015112830366") = Some true
  /\ _luhn_checksum (py "1234567890123456") = Some false.
Proof.
  split; [|split; reflexivity].
  intros s H. unfold _luhn_checksum, spec_luhn_valid.
  now rewrite (digits_of_digit_string s H), luhn_total_spec_sum.
Qed.

Lemma luhn_checksum_is_the_stated_rule_witness :
  forallb is_digit (py "6222021234567890128") = true
  /\ _luhn_checksum (py "6222021234567890128")
     = Some (spec_luhn_valid (map digit_value (py "6222021234567890128"))).
Proof.
  split; [reflexivity|].
  apply (proj1 luhn_checksum_is_the_stated_rule). reflexivity.
Defined.

(** The recognizer's verdicts on the two reference numbers. *)
Example validate_reference_numbers :
  validate_result (py "4532015112830366") = Some true
  /\ validate_result (py "1234567890123456") = None.
Proof. split; reflexivity. Qed.

End CnBankCardFacts.

(* ================================================================== *)
(** * The ID-card check agrees with GB 11643-1999 *)
(* ================================================================== *)

Module CnIdCardFacts.
Import CnIdCard PyFacts.

Lemma skipn_nth_error {A} (l : list A) (k : nat) (x : A) :
  nth_error l k = Some x -> skipn k l = x :: skipn (S k) l.
Proof.
  revert l. induction k as [|k IH]; intros [|y l]; simpl; try discriminate.
  - now intros [= ->].
  - intros H. now rewrite (IH l H).
Qed.

Lemma nth_error_some_of_lt {A} (l : list A) (k : nat) :
  (k < List.length l)%nat -> exists x, nth_error l k = Some x.
Proof.
  intros H. destruct (nth_error l k) eqn:E; [eauto|].
  apply nth_error_None in E. lia.
Qed.

Lemma digit_in_prefix (id : str) (k : nat) (c : char) :
  forallb is_digit (firstn 17 id) = true ->
  (k < 17)%nat -> nth_error id k = Some c -> is_digit c = true.
Proof.
  intros Hd Hk Hc.
  rewrite forallb_forall in Hd. apply Hd.
  apply nth_error_In with (n := k).
  now rewrite nth_error_firstn, (proj2 (Nat.ltb_lt k 17) Hk).
Qed.

(** The loop reads the digits one after the other and adds up what the
    specification's sum adds up. *)
Lemma weighted_loop_sum (id : str) (m k : nat) (acc : Z) :
  (k + m <= 17)%nat -> (17 <= List.length id)%nat ->
  forallb is_digit (firstn 17 id) = true ->
  weighted_loop id (seq k m) acc
  = Some (acc + spec_weighted_sum (firstn m (skipn k id)) (skipn k WEIGHTS)).
Proof.
  intros Hk Hlen Hd. revert k acc Hk.
  induction m as [|m IH]; intros k acc Hk.
  - simpl. now rewrite Z.add_0_r.
  - cbn [seq weighted_loop].
    destruct (nth_error_some_of_lt id k) as [c Hc]; [lia|].
    destruct (nth_error_some_of_lt WEIGHTS k) as [w Hw]; [simpl; lia|].
    rewrite index_nth_error by lia. rewrite Hc, Hw.
    unfold int_of_char. rewrite (digit_in_prefix id k c Hd) by (lia || assumption).
    rewrite IH by lia.
    rewrite (skipn_nth_error id k c Hc), (skipn_nth_error WEIGHTS k w Hw).
    cbn [firstn spec_weighted_sum]. unfold digit_value.
    f_equal. lia.
Qed.

Lemma weighted_total_sum (id : str) :
  (17 <= List.length id)%nat ->
  forallb is_digit (firstn 17 id) = true ->
  weighted_total id = Some (spec_weighted_sum (firstn 17 id) WEIGHTS).
Proof.
  intros Hlen Hd. unfold weighted_total.
  now rewrite (weighted_loop_sum id 17 0 0) by (lia || assumption).
Qed.

(** What [validate_result] answers on a text whose normal form has eighteen
    characters, seventeen leading digits and a listed province code. *)
Lemma validate_result_on_shape (t : str) (c e : char) :
  List.length (normalize t) = 18%nat ->
  forallb is_digit (firstn 17 (normalize t)) = true ->
  existsb (str_eqb (firstn 2 (normalize t))) VALID_PROVINCE_CODES = true ->
  nth_error (normalize t) 17 = Some c ->
  spec_check_char (normalize t) = Some e ->
  validate_result t = if (upper_char c =? e)%N then Some true else None.
Proof.
  intros Hlen Hd Hp Hc He. unfold validate_result.
  set (id := normalize t) in *.
  assert (L : len id = 18) by (unfold len; rewrite Hlen; reflexivity).
  rewrite L. cbn [Z.eqb Pos.eqb negb].
  change 2 with (Z.of_nat 2). rewrite slice_to_firstn, Hp. cbn [negb].
  rewrite weighted_total_sum by (lia || assumption).
  unfold spec_check_char in He. rewrite He.
  change 17 with (Z.of_nat 17). rewrite index_nth_error by lia.
  now rewrite Hc.
Qed.

Lemma spec_valid_id_inv (id : str) :
  spec_valid_id id = true ->
  List.length id = 18%nat
  /\ forallb is_digit (firstn 17 id) = true
  /\ existsb (str_eqb (firstn 2 id)) VALID_PROVINCE_CODES = true
  /\ exists c, nth_error id 17 = Some c /\ spec_check_char id = Some c.
Proof.
  unfold spec_valid_id. intros H.
  repeat (apply andb_true_iff in H; destruct H as [H ?]).
  apply Nat.eqb_eq in H. repeat split; try assumption.
  destruct (nth_error id 17) as [c|]; [|discriminate].
  destruct (spec_check_char id) as [e|]; [|discriminate].
  match goal with E : (c =? e)%N = true |- _ => apply N.eqb_eq in E; subst e end.
  now exists c.
Qed.

Lemma check_char_is_upper (id : str) (e : char) :
  spec_check_char id = Some e -> upper_char e = e.
Proof.
  unfold spec_check_char. intros H. apply nth_error_In in H.
  simpl in H. repeat (destruct H as [<-|H]; [reflexivity|]). contradiction.
Qed.

Lemma normalize_snoc (p : str) (x : char) :
  normalize (p ++ [x])
  = if is_separator x then normalize p else normalize p ++ [upper_char x].
Proof.
  unfold normalize, remove_char, upper, is_separator.
  rewrite !filter_app. cbn [filter].
  destruct (x =? ch "-")%N eqn:E1; cbn [negb orb].
  - now rewrite !app_nil_r.
  - cbn [filter]. destruct (x =? ch " ")%N eqn:E2; cbn [negb].
    + now rewrite !app_nil_r.
    + now rewrite map_app.
Qed.

(** What the recognizer does with a valid number. *)
Lemma valid_id_confirmed (pattern_text : str) :
  spec_valid_id (normalize pattern_text) = true ->
  validate_result pattern_text = Some true.
Proof.
  intros H. apply spec_valid_id_inv in H as (Hlen & Hd & Hp & c & Hc & He).
  rewrite (validate_result_on_shape pattern_text c c Hlen Hd Hp Hc He).
  now rewrite (check_char_is_upper _ _ He), N.eqb_refl.
Qed.

(** What the recognizer does when the checksum character is replaced. *)
Lemma changed_checksum_not_confirmed (p : str) (c c' : char) :
  spec_valid_id (normalize (p ++ [c])) = true ->
  is_separator c = false ->
  upper_char c' <> upper_char c ->
  validate_result (p ++ [c']) = None \/ validate_result (p ++ [c']) = Some false.
Proof.
  intros H Hsep Hne.
  apply spec_valid_id_inv in H as (Hlen & Hd & Hp & x & Hx & He).
  rewrite normalize_snoc, Hsep in Hlen, Hd, Hp, Hx, He.
  assert (L17 : List.length (normalize p) = 17%nat)
    by (rewrite length_app in Hlen; simpl in Hlen; lia).
  assert (F17 : forall y, firstn 17 (normalize p ++ [y]) = normalize p).
  { intros y. rewrite firstn_app, L17, Nat.sub_diag.
    change (firstn 0 [y]) with (@nil char). rewrite app_nil_r.
    apply firstn_all2. lia. }
  assert (F2 : forall y, firstn 2 (normalize p ++ [y]) = firstn 2 (normalize p)).
  { intros y. rewrite firstn_app, L17.
    change (firstn (2 - 17) [y]) with (@nil char). now rewrite app_nil_r. }
  assert (N17 : forall y, nth_error (normalize p ++ [y]) 17 = Some y).
  { intros y. rewrite nth_error_app2 by lia. now rewrite L17, Nat.sub_diag. }
  rewrite N17 in Hx. injection Hx as <-.
  destruct (is_separator c') eqn:S'.
  - right. unfold validate_result. rewrite normalize_snoc, S'.
    unfold len. now rewrite L17.
  - left.
    assert (E : validate_result (p ++ [c'])
                = if (upper_char (upper_char c') =? upper_char c)%N
                  then Some true else None).
    { apply validate_result_on_shape; rewrite normalize_snoc, S'.
      - rewrite length_app, L17. reflexivity.
      - rewrite F17. now rewrite F17 in Hd.
      - rewrite F2. now rewrite F2 in Hp.
      - apply N17.
      - unfold spec_check_char in *. rewrite F17. now rewrite F17 in He. }
    rewrite E, upper_char_idem.
    destruct (upper_char c' =? upper_char c)%N eqn:Q; [|reflexivity].
    apply N.eqb_eq in Q. contradiction.
Qed.

(** C2 (amended).  A text whose normal form (separators removed, upper
    case) is a valid number - eighteen characters, seventeen digits, a
    listed province code, the checksum character selected by the weighted
    sum modulo eleven - is Confirmed.  Replacing its final checksum
    character by a character with a different upper-case form gives
    Uncertain or Rejected, never Confirmed. *)
Theorem id_card_checksum_verdicts :
  (forall pattern_text : str,
      spec_valid_id (normalize pattern_text) = true ->
      validate_result pattern_text = Some true)
  /\ (forall (p : str) (c c' : char),
         spec_valid_id (normalize (p ++ [c])) = true ->
         is_separator c = false ->
         upper_char c' <> upper_char c ->
         validate_result (p ++ [c']) = None
         \/ validate_result (p ++ [c']) = Some false).
Proof.
  split.
  - exact valid_id_confirmed.
  - exact changed_checksum_not_confirmed.
Qed.

Lemma id_card_checksum_verdicts_witness :
  (spec_valid_id (normalize (py "110101-19900307-4514")) = true
   /\ validate_result (py "110101-19900307-4514") = Some true)
  /\ (spec_valid_id (normalize (py "11010119900307451" ++ [ch "4"])) = true
      /\ is_separator (ch "4") = false
      /\ upper_char (ch "7") <> upper_char (ch "4")
      /\ (validate_result (py "11010119900307451" ++ [ch "7"]) = None
          \/ validate_result (py "11010119900307451" ++ [ch "7"]) = Some false)).
Proof.
  split.
  - split; [reflexivity|].
    apply (proj1 id_card_checksum_verdicts). reflexivity.
  - split; [reflexivity|]. split; [reflexivity|].
    split; [vm_compute; discriminate|].
    apply (proj2 id_card_checksum_verdicts _ (ch "4"));
      [reflexivity|reflexivity|vm_compute; discriminate].
Defined.

(** C2 as stated fails: the checksum character X of a valid number may be
    changed to x, and the number is still Confirmed, because the recognizer
    compares in upper case. *)
Lemma id_card_changed_checksum_counterexample :
  ~ (forall (p : str) (c c' : char),
        spec_valid_id (normalize (p ++ [c])) = true ->
        is_separator c = false ->
        c' <> c ->
        validate_result (p ++ [c']) <> Some true).
Proof.
  intros H.
  apply (H (py "11010119900307002") (ch "X") (ch "x"));
    [reflexivity|reflexivity|vm_compute; discriminate|reflexivity].
Qed.

(** The end-to-end reference number of the specification. *)
Example reference_id_confirmed :
  validate_result (py "110101199003074514") = Some true
  /\ validate_result (py "110101199003074515") = None
  /\ validate_result (py "11010119900307451") = Some false.
Proof. repeat split; reflexivity. Qed.

End CnIdCardFacts.

(* ================================================================== *)
(** * Facts about scores *)
(* ================================================================== *)

Module ScoreFacts.

Lemma Qltb_lt (a b : Q) : Qltb a b = true <-> (a < b)%Q.
Proof.
  unfold Qltb. rewrite negb_true_iff. split.
  - intros H. apply Qnot_le_lt. intros C.
    apply Qle_bool_iff in C. congruence.
  - intros H. destruct (Qle_bool b a) eqn:E; [|reflexivity].
    apply Qle_bool_iff in E. exfalso. exact (Qlt_not_le _ _ H E).
Qed.

Lemma Qltb_ge (a b : Q) : Qltb a b = false <-> (b <= a)%Q.
Proof.
  unfold Qltb. rewrite negb_false_iff. apply Qle_bool_iff.
Qed.

(** Python's [max] of two scores is the maximum of the rationals. *)
Lemma py_max_Qmax (a b : Q) : py_max a b = Qmax a b.
Proof.
  unfold py_max, Qmax, GenericMinMax.gmax.
  destruct (Qcompare_spec a b) as [C|C|C]; destruct (Qltb a b) eqn:E;
    try reflexivity; exfalso.
  - apply Qltb_lt in E. rewrite C in E. exact (Qlt_irrefl _ E).
  - apply Qltb_ge in E. exact (Qlt_not_le _ _ C E).
  - apply Qltb_lt in E. exact (Qlt_irrefl _ (Qlt_trans _ _ _ E C)).
Qed.

Lemma py_max_half_positive (a : Q) : (0 < py_max a 0.5)%Q.
Proof.
  unfold py_max. destruct (Qltb a 0.5) eqn:E; [reflexivity|].
  apply Qltb_ge in E. eapply Qlt_le_trans; [|exact E]. reflexivity.
Qed.

End ScoreFacts.

(* ================================================================== *)
(** * The verification escalator *)
(* ================================================================== *)

Module LLMVerifierFacts.
Import LLMVerifier ScoreFacts PyFacts.

Section WithLibrary.

Variable L : pylib.
Variable v : verifier.

(** The fields of the result of [verify_single], from the verdict of the
    [try] block. *)
Lemma verify_single_fields (log : list str) (text entity_text entity_type : str)
    (start end_ : Z) (o : Q) (sv : pyval) (c : Q) (rs : pyval) :
  llm_verdict L v log
    (build_prompt entity_text entity_type (extract_context v text start end_))
  = (sv, c, rs) ->
  let vr := fst (verify_single L v log text entity_text entity_type start end_ o) in
  is_sensitive vr = sv /\ confidence vr = c /\ reason vr = rs
  /\ original_score vr = o
  /\ final_score vr = (if truthy sv then py_max o c else 0%Q).
Proof.
  intros H. unfold verify_single. rewrite H. cbn. repeat split.
Qed.

Lemma verify_single_log (log : list str) (text entity_text entity_type : str)
    (start end_ : Z) (o : Q) :
  snd (verify_single L v log text entity_text entity_type start end_ o)
  = log ++ [build_prompt entity_text entity_type
              (extract_context v text start end_)].
Proof.
  unfold verify_single.
  destruct (llm_verdict L v log _) as [[sv c] rs]. reflexivity.
Qed.

Lemma unparsable_verdict (log : list str) (prompt response : str) :
  _call_llm v log prompt = Ok response ->
  json_loads L (unfence response) = None ->
  llm_verdict L v log prompt = parse_fallback.
Proof.
  intros Hc Hj. unfold llm_verdict, parse_response. now rewrite Hc, Hj.
Qed.

Lemma failed_call_verdict (log : list str) (prompt : str) (e : exn) :
  _call_llm v log prompt = Raise e ->
  llm_verdict L v log prompt = call_fallback e.
Proof.
  intros Hc. unfold llm_verdict. now rewrite Hc.
Qed.

Lemma parsed_verdict (log : list str) (prompt response : str)
    (t : pyval * Q * pyval) :
  _call_llm v log prompt = Ok response ->
  parse_response L response = Ok t ->
  llm_verdict L v log prompt = t.
Proof.
  intros Hc Hp. unfold llm_verdict. now rewrite Hc, Hp.
Qed.

Lemma dict_get_absent {A} (kv : list (str * A)) (key : str) (d : A) :
  dict_mem kv key = false -> dict_get kv key d = d.
Proof.
  induction kv as [|[k x] kv IH]; simpl; [reflexivity|].
  intros H. apply orb_false_iff in H as [H1 H2]. rewrite H1. auto.
Qed.

(** A decoded object with no verdict field and a usable confidence. *)
Lemma missing_verdict_parse (response : str) (kv : list (str * pyval)) (c : Q) :
  json_loads L (unfence response) = Some (PyDict kv) ->
  dict_mem kv (py "is_sensitive") = false ->
  py_float L (dict_get kv (py "confidence") (PyNum 0.5%Q)) = Ok c ->
  parse_response L response
  = Ok (PyBool false, c, dict_get kv (py "reason") (PyStr [])).
Proof.
  intros Hj Hm Hf. unfold parse_response.
  now rewrite Hj, Hf, (dict_get_absent kv _ _ Hm).
Qed.

(** A decoded object whose confidence [float] refuses. *)
Lemma unconvertible_verdict (log : list str) (prompt response : str)
    (kv : list (str * pyval)) (e : exn) :
  _call_llm v log prompt = Ok response ->
  json_loads L (unfence response) = Some (PyDict kv) ->
  py_float L (dict_get kv (py "confidence") (PyNum 0.5%Q)) = Raise e ->
  llm_verdict L v log prompt
  = (PyBool true, 0.5%Q,
     PyStr (if caught_by_parse (exn_kind e) then PARSE_FAILURE_REASON
            else CALL_FAILURE_PREFIX ++ exn_msg e)).
Proof.
  intros Hc Hj Hf. unfold llm_verdict, parse_response.
  rewrite Hc, Hj, Hf.
  destruct (caught_by_parse (exn_kind e)); reflexivity.
Qed.

(** The values [float] refuses, and with which exception. *)
Lemma py_float_raises (x : pyval) (e : exn) :
  py_float L x = Raise e ->
  (exists s, x = PyStr s /\ float_of_str L s = None
             /\ exn_kind e = ValueError)
  \/ ((x = PyNone \/ (exists l, x = PyList l) \/ (exists kv, x = PyDict kv))
      /\ exn_kind e = TypeError)
  \/ (exists z, x = PyInt z /\ FLOAT_OVERFLOW <= Z.abs z
                /\ exn_kind e = OverflowError).
Proof.
  destruct x as [|b|z|q|s|l|kv]; cbn [py_float].
  - intros [= <-]. right. left. split; [now left|reflexivity].
  - discriminate.
  - destruct (Z.abs z <? FLOAT_OVERFLOW) eqn:E; [discriminate|].
    intros [= <-]. right. right. exists z. apply Z.ltb_ge in E.
    repeat split. exact E.
  - discriminate.
  - destruct (float_of_str L s) eqn:E; [discriminate|].
    intros [= <-]. left. exists s. repeat split. exact E.
  - intros [= <-]. right. left. split; [|reflexivity]. right. left. now exists l.
  - intros [= <-]. right. left. split; [|reflexivity]. right. right. now exists kv.
Qed.

(** An escalated span is kept by the consumer exactly when its verdict is
    truthy. *)
Lemma collect_single (text : str) (r : RecognizerResult)
    (vr : VerificationResult) :
  collect_entity_results text [(r, Some vr)]
  = if truthy (is_sensitive vr) then
      [mkEntityResult (r_entity_type r) (slice text (r_start r) (r_end r))
         (r_start r) (r_end r) (final_score vr) true (Some (reason vr))]
    else [].
Proof.
  simpl. now destruct (truthy (is_sensitive vr)).
Qed.

End WithLibrary.

Lemma verify_single_log_prompt (L : pylib) (v : verifier) (log : list str)
    (text : str) (r : RecognizerResult) :
  snd (verify_single L v log text (slice text (r_start r) (r_end r))
         (r_entity_type r) (r_start r) (r_end r) (r_score r))
  = log ++ [escalation_prompt v text r].
Proof. apply verify_single_log. Qed.

Lemma verify_loop_shape (L : pylib) (v : verifier) (text : str)
    (results : list RecognizerResult) :
  forall log,
    Forall2 (paired L v text) results (fst (verify_loop L v text results log))
    /\ snd (verify_loop L v text results log)
       = log ++ map (escalation_prompt v text)
                  (filter (needs_verification v) results).
Proof.
  induction results as [|r rest IH]; intros log.
  - simpl. split; [constructor|now rewrite app_nil_r].
  - cbn [verify_loop filter].
    change (Qltb (r_score r) (score_threshold v)) with (needs_verification v r).
    destruct (needs_verification v r) eqn:E.
    + pose proof (verify_single_log_prompt L v log text r) as Hlog.
      destruct (verify_single L v log text (slice text (r_start r) (r_end r))
         (r_entity_type r) (r_start r) (r_end r) (r_score r)) as [vr log'] eqn:Es.
      cbn [snd] in Hlog. subst log'.
      destruct (IH (log ++ [escalation_prompt v text r])) as [IH1 IH2].
      destruct (verify_loop L v text rest (log ++ [escalation_prompt v text r]))
        as [out log''].
      cbn [fst snd] in IH1, IH2 |- *. split.
      * constructor; [|exact IH1]. split; [reflexivity|].
        rewrite E. exists log. cbn [snd]. now rewrite Es.
      * rewrite IH2. cbn [map]. rewrite <- app_assoc. reflexivity.
    + destruct (IH log) as [IH1 IH2].
      destruct (verify_loop L v text rest log) as [out log'].
      cbn [fst snd] in IH1, IH2 |- *. split; [|exact IH2].
      constructor; [|exact IH1]. split; [reflexivity|]. now rewrite E.
Qed.

(** What the mock backend answers, whatever was sent before. *)
Lemma mock_verdict (L : pylib) (thr : Q) (win : Z) (b : bool) (c : Q)
    (log : list str) (prompt : str) :
  dumps_faithful L (mock_payload b c) ->
  llm_verdict L (MockLLMVerifier L thr win b c) log prompt
  = (PyBool b, c, PyStr (py "模拟验证结果")).
Proof.
  intros H. unfold llm_verdict, MockLLMVerifier. cbn [_call_llm].
  unfold parse_response. rewrite H. unfold mock_payload.
  vm_compute. reflexivity.
Qed.

(** The result of [verify_single] when the [try] block ends in a
    conservative verdict. *)
Lemma conservative_result (L : pylib) (v : verifier) (log : list str)
    (text entity_text entity_type : str) (start end_ : Z) (o : Q)
    (rs : pyval) :
  llm_verdict L v log
    (build_prompt entity_text entity_type (extract_context v text start end_))
  = (PyBool true, 0.5%Q, rs) ->
  let vr := fst (verify_single L v log text entity_text entity_type start end_ o) in
  is_sensitive vr = PyBool true
  /\ confidence vr = 0.5%Q
  /\ reason vr = rs
  /\ final_score vr = Qmax o 0.5
  /\ (0 < final_score vr)%Q
  /\ (forall r, collect_entity_results text [(r, Some vr)] <> []).
Proof.
  intros H.
  pose proof (verify_single_fields L v log text entity_text entity_type
                start end_ o _ _ _ H) as HF.
  cbv zeta in HF |- *. destruct HF as (A & B & C & _ & F).
  cbn [truthy] in F.
  repeat split; try assumption.
  - rewrite F. apply py_max_Qmax.
  - rewrite F. apply py_max_half_positive.
  - intros r. rewrite collect_single, A. cbn [truthy]. discriminate.
Qed.

(** C1 (amended).  When the answer of the backend does not decode as JSON
    (after stripping white space and a code fence), the span is resolved
    with is_sensitive = true, confidence = 0.5 and the parse-failure reason;
    when the call itself raises, with is_sensitive = true, confidence = 0.5
    and the call-failure reason that carries the text of the exception.  In
    both cases the final score is max(original_score, 0.5), which is
    positive, and the consumer keeps the span. *)
Theorem conservative_fallback_keeps_span :
  forall (L : pylib) (v : verifier) (log : list str)
         (text entity_text entity_type : str) (start end_ : Z) (o : Q),
    let prompt :=
      build_prompt entity_text entity_type (extract_context v text start end_) in
    let vr :=
      fst (verify_single L v log text entity_text entity_type start end_ o) in
    (forall response,
        _call_llm v log prompt = Ok response ->
        json_loads L (unfence response) = None ->
        is_sensitive vr = PyBool true
        /\ confidence vr = 0.5%Q
        /\ reason vr = PyStr PARSE_FAILURE_REASON
        /\ final_score vr = Qmax o 0.5
        /\ (0 < final_score vr)%Q
        /\ (forall r, collect_entity_results text [(r, Some vr)] <> []))
    /\ (forall e,
           _call_llm v log prompt = Raise e ->
           is_sensitive vr = PyBool true
           /\ confidence vr = 0.5%Q
           /\ reason vr = PyStr (CALL_FAILURE_PREFIX ++ exn_msg e)
           /\ final_score vr = Qmax o 0.5
           /\ (0 < final_score vr)%Q
           /\ (forall r, collect_entity_results text [(r, Some vr)] <> [])).
Proof.
  intros L v log text entity_text entity_type start end_ o prompt vr. split.
  - intros response Hc Hj.
    apply (conservative_result L v log text entity_text entity_type start end_ o).
    exact (unparsable_verdict L v log prompt response Hc Hj).
  - intros e Hc.
    apply (conservative_result L v log text entity_text entity_type start end_ o).
    exact (failed_call_verdict L v log prompt e Hc).
Qed.

(** C4.  The final score of an escalated span is max(original_score,
    confidence) when the verdict is sensitive and 0 when it is not; the
    verdict and the confidence are the parsed ones whenever the answer
    parses.  With the mock backend set to default_is_sensitive = false,
    every escalated span receives final score 0 and is dropped. *)
Theorem final_score_follows_verdict :
  (forall (L : pylib) (v : verifier) (log : list str)
          (text entity_text entity_type : str) (start end_ : Z) (o : Q),
      let prompt :=
        build_prompt entity_text entity_type (extract_context v text start end_) in
      let vr :=
        fst (verify_single L v log text entity_text entity_type start end_ o) in
      (truthy (is_sensitive vr) = true -> final_score vr = Qmax o (confidence vr))
      /\ (truthy (is_sensitive vr) = false -> final_score vr = 0%Q)
      /\ (forall response sv c rs,
             _call_llm v log prompt = Ok response ->
             parse_response L response = Ok (sv, c, rs) ->
             is_sensitive vr = sv /\ confidence vr = c /\ reason vr = rs))
  /\ (forall (L : pylib) (thr : Q) (win : Z) (c : Q) (text : str)
             (results : list RecognizerResult) (log : list str),
         dumps_faithful L (mock_payload false c) ->
         let out :=
           fst (verify_results L (MockLLMVerifier L thr win false c) text
                  results log) in
         Forall2 (fun r p =>
                    fst p = r
                    /\ ((r_score r < thr)%Q ->
                        exists vr, snd p = Some vr
                                   /\ is_sensitive vr = PyBool false
                                   /\ final_score vr = 0%Q
                                   /\ collect_entity_results text [p] = []))
                 results out).
Proof.
  split.
  - intros L v log text entity_text entity_type start end_ o prompt vr.
    destruct (llm_verdict L v log prompt) as [[sv c] rs] eqn:E.
    pose proof (verify_single_fields L v log text entity_text entity_type
                  start end_ o sv c rs E) as HF.
    cbv zeta in HF. fold vr in HF. destruct HF as (A & B & C & _ & F).
    rewrite A, B, F. split; [|split].
    + intros T. rewrite T. apply py_max_Qmax.
    + intros T. now rewrite T.
    + intros response sv' c' rs' Hc Hp.
      rewrite (parsed_verdict L v log prompt response (sv', c', rs') Hc Hp) in E.
      injection E as <- <- <-. rewrite C. repeat split.
  - intros L thr win c text results log HD out.
    pose proof (proj1 (verify_loop_shape L (MockLLMVerifier L thr win false c)
                         text results log)) as HS.
    fold (verify_results L (MockLLMVerifier L thr win false c) text results log)
      in HS.
    fold out in HS.
    revert HS. apply Forall2_impl.
    intros r p [Hfst Hsnd]. split; [exact Hfst|].
    intros Hlt.
    assert (N : needs_verification (MockLLMVerifier L thr win false c) r = true)
      by (apply Qltb_lt; exact Hlt).
    rewrite N in Hsnd. destruct Hsnd as [log0 Hsnd].
    pose proof (verify_single_fields L (MockLLMVerifier L thr win false c) log0
                  text (slice text (r_start r) (r_end r)) (r_entity_type r)
                  (r_start r) (r_end r) (r_score r) _ _ _
                  (mock_verdict L thr win false c log0 _ HD)) as HF.
    cbv zeta in HF. destruct HF as (A & _ & _ & _ & F). cbn [truthy] in F.
    eexists. split; [exact Hsnd|]. split; [exact A|]. split; [exact F|].
    destruct p as [r' o']. cbn [snd] in Hsnd. subst o'.
    rewrite collect_single, A. reflexivity.
Qed.

(** C5.  [verify_results] pairs every result, in order, with a verification
    exactly when its score is strictly below the threshold, and with None
    when its score is at or above the threshold; the prompts sent to the
    backend are those of the results below the threshold and no others. *)
Theorem escalation_exactly_below_threshold :
  forall (L : pylib) (v : verifier) (text : str)
         (results : list RecognizerResult) (log : list str),
    let out := fst (verify_results L v text results log) in
    let sent := snd (verify_results L v text results log) in
    Forall2 (fun r p =>
               fst p = r
               /\ ((r_score r < score_threshold v)%Q <->
                   exists vr, snd p = Some vr)
               /\ ((score_threshold v <= r_score r)%Q <-> snd p = None)
               /\ (forall vr, snd p = Some vr ->
                     exists log0,
                       vr = fst (verify_single L v log0 text
                                   (slice text (r_start r) (r_end r))
                                   (r_entity_type r) (r_start r) (r_end r)
                                   (r_score r))))
            results out
    /\ sent = log ++ map (escalation_prompt v text)
                       (filter (fun r => Qltb (r_score r) (score_threshold v))
                               results).
Proof.
  intros L v text results log out sent.
  destruct (verify_loop_shape L v text results log) as [HS HL].
  split; [|exact HL].
  unfold out, verify_results. revert HS. apply Forall2_impl.
  intros r p [Hfst Hsnd]. split; [exact Hfst|].
  unfold needs_verification in Hsnd.
  destruct (Qltb (r_score r) (score_threshold v)) eqn:E.
  - pose proof (proj1 (Qltb_lt _ _) E) as Hlt.
    destruct Hsnd as [log0 Hsnd]. repeat split.
    + intros _. eexists. exact Hsnd.
    + intros _. exact Hlt.
    + intros Hge. exfalso. exact (Qlt_not_le _ _ Hlt Hge).
    + intros HN. rewrite HN in Hsnd. discriminate.
    + intros vr Hvr. exists log0. congruence.
  - pose proof (proj1 (Qltb_ge _ _) E) as Hge. repeat split.
    + intros Hlt. exfalso. exact (Qlt_not_le _ _ Hlt Hge).
    + intros [vr Hvr]. congruence.
    + intros _. exact Hsnd.
    + intros _. exact Hge.
    + intros vr Hvr. congruence.
Qed.

(** C10 (amended).  When the answer decodes to a JSON object that has no
    is_sensitive key and whose confidence is absent or convertible by
    [float], [parse_response] takes is_sensitive = false, the final score
    is 0 and the consumer drops the span; this is what happens on the
    answer [{}].  When the answer decodes to a JSON object whose confidence
    [float] cannot convert, the span is kept by the conservative verdict
    whatever else the object holds: sensitive, confidence 0.5, final score
    max(original, 0.5), with the parse-failure reason for a ValueError and
    the call-failure reason otherwise.  [float] refuses a string that is no
    numeral (ValueError), null, a list or an object (TypeError), and an
    integer beyond the range of doubles (OverflowError). *)
Theorem missing_verdict_drops_span :
  (forall (L : pylib) (v : verifier) (log : list str)
          (text entity_text entity_type : str) (start end_ : Z) (o : Q)
          (response : str) (kv : list (str * pyval)) (c : Q),
      let prompt :=
        build_prompt entity_text entity_type (extract_context v text start end_) in
      let vr :=
        fst (verify_single L v log text entity_text entity_type start end_ o) in
      _call_llm v log prompt = Ok response ->
      json_loads L (unfence response) = Some (PyDict kv) ->
      dict_mem kv (py "is_sensitive") = false ->
      py_float L (dict_get kv (py "confidence") (PyNum 0.5%Q)) = Ok c ->
      parse_response L response
      = Ok (PyBool false, c, dict_get kv (py "reason") (PyStr []))
      /\ is_sensitive vr = PyBool false
      /\ confidence vr = c
      /\ final_score vr = 0%Q
      /\ (forall r, collect_entity_results text [(r, Some vr)] = []))
  /\ (forall (L : pylib) (v : verifier) (log : list str)
             (text entity_text entity_type : str) (start end_ : Z) (o : Q)
             (response : str) (kv : list (str * pyval)) (e : exn),
         let prompt :=
           build_prompt entity_text entity_type
             (extract_context v text start end_) in
         let vr :=
           fst (verify_single L v log text entity_text entity_type start end_ o) in
         _call_llm v log prompt = Ok response ->
         json_loads L (unfence response) = Some (PyDict kv) ->
         py_float L (dict_get kv (py "confidence") (PyNum 0.5%Q)) = Raise e ->
         is_sensitive vr = PyBool true
         /\ confidence vr = 0.5%Q
         /\ final_score vr = Qmax o 0.5
         /\ reason vr
            = PyStr (if caught_by_parse (exn_kind e) then PARSE_FAILURE_REASON
                     else CALL_FAILURE_PREFIX ++ exn_msg e)
         /\ (forall r, collect_entity_results text [(r, Some vr)] <> []))
  /\ (forall (L : pylib) (x : pyval) (e : exn),
         py_float L x = Raise e ->
         (exists s, x = PyStr s /\ float_of_str L s = None
                    /\ exn_kind e = ValueError)
         \/ ((x = PyNone \/ (exists l, x = PyList l)
              \/ (exists kv, x = PyDict kv))
             /\ exn_kind e = TypeError)
         \/ (exists z, x = PyInt z /\ FLOAT_OVERFLOW <= Z.abs z
                       /\ exn_kind e = OverflowError))
  /\ parse_response MiniJson.lib (py "{}") = Ok (PyBool false, 0.5%Q, PyStr []).
Proof.
  split; [|split; [|split; [exact py_float_raises|vm_compute; reflexivity]]].
  - intros L v log text entity_text entity_type start end_ o response kv c
           prompt vr Hc Hj Hm Hf.
    pose proof (missing_verdict_parse L response kv c Hj Hm Hf) as HP.
    pose proof (verify_single_fields L v log text entity_text entity_type
                  start end_ o _ _ _
                  (parsed_verdict L v log prompt response _ Hc HP)) as HF.
    cbv zeta in HF. fold vr in HF. destruct HF as (A & B & _ & _ & F).
    cbn [truthy] in F. repeat split; try assumption.
    intros r. rewrite collect_single, A. reflexivity.
  - intros L v log text entity_text entity_type start end_ o response kv e
           prompt vr Hc Hj Hf.
    pose proof (conservative_result L v log text entity_text entity_type
                  start end_ o _
                  (unconvertible_verdict L v log prompt response kv e Hc Hj Hf))
      as HR.
    cbv zeta in HR. fold vr in HR. destruct HR as (A & B & C & F & _ & K).
    repeat split; assumption.
Qed.

Lemma conservative_fallback_keeps_span_witness :
  let v1 := Samples.constant_backend (Ok Samples.prose_answer) in
  let v2 := Samples.constant_backend (Raise Samples.timeout_error) in
  let run v :=
    fst (verify_single MiniJson.lib v [] Samples.sample_text (py "100080")
           (py "CN_POSTAL_CODE") 7 13 0.3%Q) in
  (json_loads MiniJson.lib (unfence Samples.prose_answer) = None
   /\ is_sensitive (run v1) = PyBool true
   /\ reason (run v1) = PyStr PARSE_FAILURE_REASON
   /\ final_score (run v1) = Qmax 0.3 0.5)
  /\ (is_sensitive (run v2) = PyBool true
      /\ reason (run v2)
         = PyStr (CALL_FAILURE_PREFIX ++ exn_msg Samples.timeout_error)
      /\ final_score (run v2) = Qmax 0.3 0.5).
Proof.
  intros v1 v2 run. split.
  - split; [vm_compute; reflexivity|].
    destruct (proj1 (conservative_fallback_keeps_span MiniJson.lib v1 []
                       Samples.sample_text (py "100080") (py "CN_POSTAL_CODE")
                       7 13 0.3%Q) Samples.prose_answer)
      as (A & _ & C & F & _); [reflexivity|vm_compute; reflexivity|].
    repeat split; assumption.
  - destruct (proj2 (conservative_fallback_keeps_span MiniJson.lib v2 []
                       Samples.sample_text (py "100080") (py "CN_POSTAL_CODE")
                       7 13 0.3%Q) Samples.timeout_error)
      as (A & _ & C & F & _); [reflexivity|].
    repeat split; assumption.
Defined.

(** C1 as stated fails in its second half: when the call raises, the
    reason recorded is the call-failure text, not the parse-failure one. *)
Lemma failed_call_reason_counterexample :
  ~ (forall (L : pylib) (v : verifier) (log : list str)
            (text entity_text entity_type : str) (start end_ : Z) (o : Q)
            (e : exn),
        _call_llm v log
          (build_prompt entity_text entity_type
             (extract_context v text start end_)) = Raise e ->
        reason (fst (verify_single L v log text entity_text entity_type
                       start end_ o))
        = PyStr PARSE_FAILURE_REASON).
Proof.
  intros H.
  specialize (H MiniJson.lib
                (Samples.constant_backend (Raise Samples.timeout_error)) []
                Samples.sample_text (py "100080") (py "CN_POSTAL_CODE") 7 13
                0.3%Q Samples.timeout_error eq_refl).
  vm_compute in H. discriminate H.
Qed.

Lemma final_score_follows_verdict_witness :
  dumps_faithful MiniJson.lib (mock_payload false (4 # 5))
  /\ Forall2 (fun r p =>
                fst p = r
                /\ ((r_score r < 0.5)%Q ->
                    exists vr, snd p = Some vr
                               /\ is_sensitive vr = PyBool false
                               /\ final_score vr = 0%Q
                               /\ collect_entity_results Samples.sample_text [p]
                                  = []))
       [Samples.postal_result; Samples.phone_result]
       (fst (verify_results MiniJson.lib
               (MockLLMVerifier MiniJson.lib 0.5 30 false (4 # 5))
               Samples.sample_text
               [Samples.postal_result; Samples.phone_result] [])).
Proof.
  split; [vm_compute; reflexivity|].
  apply (proj2 final_score_follows_verdict MiniJson.lib 0.5%Q 30 (4 # 5)).
  vm_compute. reflexivity.
Defined.

Lemma missing_verdict_drops_span_witness :
  let run answer :=
    fst (verify_single MiniJson.lib (Samples.constant_backend (Ok answer)) []
           Samples.sample_text (py "100080") (py "CN_POSTAL_CODE") 7 13 0.3%Q) in
  (json_loads MiniJson.lib (unfence Samples.answer_number)
   = Some (PyDict [(py "confidence", PyNum (9 # 10))])
   /\ is_sensitive (run Samples.answer_number) = PyBool false
   /\ final_score (run Samples.answer_number) = 0%Q)
  /\ (is_sensitive (run Samples.answer_high) = PyBool true
      /\ reason (run Samples.answer_high) = PyStr PARSE_FAILURE_REASON
      /\ final_score (run Samples.answer_high) = Qmax 0.3 0.5)
  /\ (is_sensitive (run Samples.answer_null) = PyBool true
      /\ reason (run Samples.answer_null)
         = PyStr (CALL_FAILURE_PREFIX ++ FLOAT_TYPE_ERROR ++ py "'NoneType'")
      /\ final_score (run Samples.answer_null) = Qmax 0.3 0.5)
  /\ (json_loads MiniJson.lib (unfence Samples.answer_huge)
      = Some (PyDict [(py "confidence", PyInt (10 ^ 400))])
      /\ is_sensitive (run Samples.answer_huge) = PyBool true
      /\ reason (run Samples.answer_huge)
         = PyStr (CALL_FAILURE_PREFIX ++ py "int too large to convert to float")
      /\ final_score (run Samples.answer_huge) = Qmax 0.3 0.5).
Proof.
  intros run. split; [|split; [|split]].
  - split; [vm_compute; reflexivity|].
    destruct (proj1 missing_verdict_drops_span MiniJson.lib
                (Samples.constant_backend (Ok Samples.answer_number)) []
                Samples.sample_text (py "100080") (py "CN_POSTAL_CODE") 7 13
                0.3%Q Samples.answer_number
                [(py "confidence", PyNum (9 # 10))] (9 # 10))
      as (_ & A & _ & F & _);
      [reflexivity|vm_compute; reflexivity|reflexivity|reflexivity|].
    split; assumption.
  - destruct (proj1 (proj2 missing_verdict_drops_span) MiniJson.lib
                (Samples.constant_backend (Ok Samples.answer_high)) []
                Samples.sample_text (py "100080") (py "CN_POSTAL_CODE") 7 13
                0.3%Q Samples.answer_high
                [(py "confidence", PyStr (py "high"))]
                (mkExn ValueError (py "could not convert string to float")))
      as (A & _ & F & R & _);
      [reflexivity|vm_compute; reflexivity|vm_compute; reflexivity|].
    repeat split; assumption.
  - destruct (proj1 (proj2 missing_verdict_drops_span) MiniJson.lib
                (Samples.constant_backend (Ok Samples.answer_null)) []
                Samples.sample_text (py "100080") (py "CN_POSTAL_CODE") 7 13
                0.3%Q Samples.answer_null
                [(py "confidence", PyNone)]
                (mkExn TypeError (FLOAT_TYPE_ERROR ++ py "'NoneType'")))
      as (A & _ & F & R & _);
      [reflexivity|vm_compute; reflexivity|vm_compute; reflexivity|].
    repeat split; assumption.
  - assert (J : json_loads MiniJson.lib (unfence Samples.answer_huge)
                = Some (PyDict [(py "confidence", PyInt (10 ^ 400))]))
      by (vm_compute; reflexivity).
    split; [exact J|].
    destruct (proj1 (proj2 missing_verdict_drops_span) MiniJson.lib
                (Samples.constant_backend (Ok Samples.answer_huge)) []
                Samples.sample_text (py "100080") (py "CN_POSTAL_CODE") 7 13
                0.3%Q Samples.answer_huge
                [(py "confidence", PyInt (10 ^ 400))]
                (mkExn OverflowError (py "int too large to convert to float")))
      as (A & _ & F & R & _);
      [reflexivity|exact J|vm_compute; reflexivity|].
    repeat split; assumption.
Defined.

(** C10 as stated fails: an answer may decode to an object without the
    is_sensitive key and still end in the conservative verdict, when its
    confidence cannot be converted ([{"confidence": "high"}] raises
    ValueError inside [parse_response], [{"confidence": null}] raises
    TypeError, caught by [verify_single]). *)
Lemma missing_verdict_counterexample :
  ~ (forall (L : pylib) (v : verifier) (log : list str)
            (text entity_text entity_type : str) (start end_ : Z) (o : Q)
            (response : str) (kv : list (str * pyval)),
        _call_llm v log
          (build_prompt entity_text entity_type
             (extract_context v text start end_)) = Ok response ->
        json_loads L (unfence response) = Some (PyDict kv) ->
        dict_mem kv (py "is_sensitive") = false ->
        final_score (fst (verify_single L v log text entity_text entity_type
                            start end_ o)) = 0%Q).
Proof.
  intros H.
  specialize (H MiniJson.lib
                (Samples.constant_backend (Ok Samples.answer_high)) []
                Samples.sample_text (py "100080") (py "CN_POSTAL_CODE") 7 13
                0.3%Q Samples.answer_high
                [(py "confidence", PyStr (py "high"))] eq_refl).
  assert (J : json_loads MiniJson.lib (unfence Samples.answer_high)
              = Some (PyDict [(py "confidence", PyStr (py "high"))]))
    by (vm_compute; reflexivity).
  specialize (H J eq_refl). vm_compute in H. discriminate H.
Qed.

(** The two conversions that fail, and what the verifier records. *)
Example unconvertible_confidence_is_kept :
  let run answer :=
    fst (verify_single MiniJson.lib (Samples.constant_backend (Ok answer)) []
           Samples.sample_text (py "100080") (py "CN_POSTAL_CODE") 7 13 0.3%Q) in
  (is_sensitive (run Samples.answer_high) = PyBool true
   /\ reason (run Samples.answer_high) = PyStr PARSE_FAILURE_REASON
   /\ final_score (run Samples.answer_high) = 0.5%Q)
  /\ (is_sensitive (run Samples.answer_null) = PyBool true
      /\ final_score (run Samples.answer_null) = 0.5%Q).
Proof. vm_compute. repeat split. Qed.

End LLMVerifierFacts.

(* ================================================================== *)
(** * The masking engine *)
(* ================================================================== *)

Module MaskingFacts.
Import Masking PyFacts.

Lemma slice_empty (s : str) : slice s 0 0 = [].
Proof. exact (slice_nat s 0 0). Qed.

Lemma slice_from_0 (s : str) : slice_from s 0 = s.
Proof. exact (slice_from_skipn s 0). Qed.

(** ** Sorting by start *)

Lemma insert_by_start_perm (r : span) (l : list span) :
  Permutation (r :: l) (insert_by_start r l).
Proof.
  induction l as [|x l IH]; simpl; [apply Permutation_refl|].
  destruct (start r <=? start x); [apply Permutation_refl|].
  eapply perm_trans; [apply perm_swap|]. now apply perm_skip.
Qed.

Lemma sorted_by_start_perm (results : list span) :
  Permutation results (sorted_by_start results).
Proof.
  induction results as [|r l IH]; simpl; [constructor|].
  eapply perm_trans; [apply perm_skip, IH|]. apply insert_by_start_perm.
Qed.

Lemma insert_by_start_sorted (r : span) (l : list span) :
  LocallySorted by_start l -> LocallySorted by_start (insert_by_start r l).
Proof.
  induction 1 as [|x|x y l Hs IH Hxy]; simpl.
  - constructor.
  - destruct (start r <=? start x) eqn:E.
    + constructor; [constructor|]. apply Z.leb_le in E. exact E.
    + constructor; [constructor|]. apply Z.leb_gt in E. unfold by_start. lia.
  - destruct (start r <=? start x) eqn:E.
    + constructor; [constructor; assumption|]. apply Z.leb_le in E. exact E.
    + simpl in IH. destruct (start r <=? start y) eqn:F.
      * constructor; [exact IH|]. apply Z.leb_gt in E. unfold by_start. lia.
      * constructor; [exact IH|exact Hxy].
Qed.

Lemma sorted_by_start_sorted (results : list span) :
  LocallySorted by_start (sorted_by_start results).
Proof.
  induction results as [|r l IH]; simpl; [constructor|].
  now apply insert_by_start_sorted.
Qed.

(** ** The loop emits the text of the retained spans *)

Lemma concat_snoc (l : list str) (x : str) :
  List.concat (l ++ [x]) = List.concat l ++ x.
Proof. rewrite concat_app. cbn [List.concat]. now rewrite app_nil_r. Qed.

Lemma mask_loop_render (text : str) (rs : list span) :
  forall (p : span) (parts : list str),
    List.concat
      (rev (slice_from text (snd (mask_loop text rs (end_ p) parts))
              :: fst (mask_loop text rs (end_ p) parts)))
    = List.concat (rev parts)
        ++ render text (spec_retained rs (Some p)) (end_ p).
Proof.
  induction rs as [|r rest IH]; intros p parts.
  - cbn [mask_loop spec_retained render fst snd rev].
    apply concat_snoc.
  - cbn [mask_loop spec_retained].
    destruct (start r <? end_ p) eqn:E.
    + apply Z.ltb_lt in E.
      rewrite (proj2 (Z.leb_gt (end_ p) (start r)) E). apply IH.
    + apply Z.ltb_ge in E.
      rewrite (proj2 (Z.leb_le (end_ p) (start r)) E).
      rewrite IH. cbn [render rev].
      rewrite !concat_snoc, <- !app_assoc. reflexivity.
Qed.

Lemma apply_masks_render (text : str) (rs : list span) :
  match rs with [] => True | r :: _ => 0 <= start r end ->
  List.concat
    (rev (slice_from text (snd (mask_loop text rs 0 []))
            :: fst (mask_loop text rs 0 [])))
  = render text (spec_retained rs None) 0.
Proof.
  destruct rs as [|r rest]; intros H.
  - cbn [mask_loop spec_retained render fst snd rev app List.concat].
    apply app_nil_r.
  - cbn [mask_loop spec_retained].
    rewrite (proj2 (Z.ltb_ge (start r) 0) H).
    rewrite mask_loop_render. cbn [render rev app List.concat].
    now rewrite app_nil_r, <- app_assoc.
Qed.

(** C6.  For spans over a text (starts not negative) the masking stage
    sorts the spans by start ascending, walks them left to right, and masks
    a span exactly when it starts at or after the end of the last masked
    span, every other span being skipped and the text between masked spans
    emitted unchanged.  For the two spans [0,10) and [5,15), in either
    order, only [0,10) is retained and the text from 10 on is emitted
    unchanged. *)
Theorem overlap_resolution_first_start_wins :
  (forall (text : str) (results : list span),
      Forall (fun r => 0 <= start r) results ->
      Permutation results (sorted_by_start results)
      /\ LocallySorted by_start (sorted_by_start results)
      /\ _apply_masks_to_text text results
         = render text (spec_retained (sorted_by_start results) None) 0)
  /\ (forall (text t1 t2 : str),
         let a := mkSpan t1 0 10 in
         let b := mkSpan t2 5 15 in
         spec_retained (sorted_by_start [a; b]) None = [a]
         /\ spec_retained (sorted_by_start [b; a]) None = [a]
         /\ _apply_masks_to_text text [a; b]
            = _mask_value t1 (slice text 0 10) ++ slice_from text 10
         /\ _apply_masks_to_text text [b; a]
            = _mask_value t1 (slice text 0 10) ++ slice_from text 10).
Proof.
  split.
  - intros text results Hpos.
    split; [apply sorted_by_start_perm|].
    split; [apply sorted_by_start_sorted|].
    unfold _apply_masks_to_text.
    destruct results as [|r0 rest]; [cbn; symmetry; apply slice_from_0|].
    set (rs := sorted_by_start (r0 :: rest)).
    assert (Hs : Forall (fun r => 0 <= start r) rs)
      by (eapply Permutation_Forall; [apply sorted_by_start_perm|exact Hpos]).
    pose proof (apply_masks_render text rs) as HR.
    destruct (mask_loop text rs 0 []) as [parts last_end].
    cbn [fst snd] in HR. apply HR.
    destruct rs as [|r rs']; [exact I|]. now inversion Hs.
  - intros text t1 t2 a b.
    assert (Sab : sorted_by_start [a; b] = [a; b]) by reflexivity.
    assert (Sba : sorted_by_start [b; a] = [a; b]) by reflexivity.
    unfold _apply_masks_to_text. rewrite Sab, Sba.
    cbn [spec_retained mask_loop start end_ a b Z.leb Z.ltb Z.compare
         Pos.compare Pos.compare_cont entity_type rev app List.concat].
    rewrite slice_empty, app_nil_r. repeat split.
Qed.

Lemma overlap_resolution_first_start_wins_witness :
  let text := py "13812345678 and 4532015112830366." in
  let results :=
    [mkSpan (py "CN_BANK_CARD") 16 32; mkSpan (py "CN_PHONE") 0 11;
     mkSpan (py "PERSON") 8 15] in
  Forall (fun r => 0 <= start r) results
  /\ _apply_masks_to_text text results
     = render text (spec_retained (sorted_by_start results) None) 0
  /\ _apply_masks_to_text text results
     = py "138****5678 and 4532 **** **** 0366.".
Proof.
  intros text results.
  assert (H : Forall (fun r => 0 <= start r) results)
    by (repeat constructor; discriminate).
  split; [exact H|]. split.
  - exact (proj2 (proj2 (proj1 overlap_resolution_first_start_wins
                           text results H))).
  - vm_compute. reflexivity.
Defined.

(** C9.  For every phone value of eleven characters the CN_PHONE mask is
    the first three characters, four asterisks, and the last four
    characters; 13812345678 becomes 138****5678. *)
Theorem phone_mask_keeps_3_and_4 :
  (forall value : str,
      List.length value = 11%nat ->
      _mask_value (py "CN_PHONE") value
      = firstn 3 value ++ py "****" ++ skipn 7 value
      /\ List.length (firstn 3 value) = 3%nat
      /\ List.length (skipn 7 value) = 4%nat
      /\ List.length (_mask_value (py "CN_PHONE") value) = 11%nat)
  /\ _mask_value (py "CN_PHONE") (py "13812345678") = py "138****5678".
Proof.
  split; [|vm_compute; reflexivity].
  intros value H.
  assert (E : _mask_value (py "CN_PHONE") value
              = firstn 3 value ++ py "****" ++ skipn 7 value).
  { unfold _mask_value. destruct value as [|c value']; [discriminate H|].
    change (is_type (py "CN_PHONE") "CN_PHONE") with true. cbv iota.
    unfold len. rewrite H. cbn [Z.of_nat Z.eqb Pos.of_succ_nat Pos.succ Pos.eqb].
    change 3 with (Z.of_nat 3). change 7 with (Z.of_nat 7).
    now rewrite slice_to_firstn, slice_from_skipn. }
  split; [exact E|].
  assert (L3 : List.length (firstn 3 value) = 3%nat)
    by (rewrite length_firstn, H; reflexivity).
  assert (L4 : List.length (skipn 7 value) = 4%nat)
    by (rewrite length_skipn, H; reflexivity).
  repeat split; try assumption.
  rewrite E, !length_app, L3, L4. reflexivity.
Qed.

Lemma phone_mask_keeps_3_and_4_witness :
  List.length (py "13987654321") = 11%nat
  /\ _mask_value (py "CN_PHONE") (py "13987654321")
     = firstn 3 (py "13987654321") ++ py "****" ++ skipn 7 (py "13987654321").
Proof.
  split; [reflexivity|].
  exact (proj1 (proj1 phone_mask_keeps_3_and_4 (py "13987654321") eq_refl)).
Defined.

End MaskingFacts.

(* ================================================================== *)
(** * The risk aggregator *)
(* ================================================================== *)

Module ReportFacts.
Import Report PyFacts.

Lemma sum_contributions_app (a b : list EntityInfo) :
  sum_contributions (a ++ b) = sum_contributions a + sum_contributions b.
Proof.
  induction a as [|e a IH]; simpl; [reflexivity|].
  fold (sum_contributions (a ++ b)). fold (sum_contributions a). lia.
Qed.

Lemma entity_loop_sum (es : list EntityInfo) (acc : Z) :
  entity_loop es acc = acc + sum_contributions es.
Proof.
  revert acc. induction es as [|e es IH]; intros acc; simpl.
  - lia.
  - rewrite IH. fold (sum_contributions es). lia.
Qed.

Lemma file_loop_sum (frs : list FileResult) (acc : Z) :
  file_loop frs acc = acc + sum_contributions (all_entities frs).
Proof.
  revert acc. induction frs as [|fr frs IH]; intros acc.
  - simpl. lia.
  - cbn [file_loop all_entities flat_map].
    fold (all_entities frs).
    rewrite IH, entity_loop_sum, sum_contributions_app. lia.
Qed.

Lemma level_loop_spec (score : Z) :
  level_loop RISK_LEVELS score = spec_level score.
Proof.
  unfold spec_level. cbn [level_loop RISK_LEVELS].
  destruct (80 <=? score); [reflexivity|].
  destruct (60 <=? score); [reflexivity|].
  destruct (40 <=? score); [reflexivity|].
  now destruct (0 <=? score).
Qed.

(** ** Weights and contributions are not negative *)

Lemma dict_get_pos (kv : list (str * Z)) (key : str) (d : Z) :
  Forall (fun p => 0 < snd p) kv -> 0 < d -> 0 < dict_get kv key d.
Proof.
  intros H Hd. induction H as [|[k x] kv Hx _ IH]; simpl; [exact Hd|].
  destruct (str_eqb k key); [exact Hx|exact IH].
Qed.

Lemma weight_of_pos (entity_type : str) : 0 < weight_of entity_type.
Proof.
  unfold weight_of. apply dict_get_pos.
  - unfold ENTITY_WEIGHTS. repeat constructor.
  - vm_compute. reflexivity.
Qed.

Lemma round_half_even_nonneg (n d : Z) :
  0 <= n -> 0 < d -> 0 <= round_half_even n d.
Proof.
  intros Hn Hd. unfold round_half_even.
  pose proof (Z.div_pos n d Hn Hd) as Q.
  destruct (2 * (n mod d) <? d); [exact Q|].
  destruct (d <? 2 * (n mod d)); [lia|].
  destruct (Z.even (n / d)); lia.
Qed.

Lemma round_double_pos_nonneg (n d : positive) :
  0 <= Qnum (round_double_pos n d).
Proof.
  unfold round_double_pos.
  destruct (0 <=? ulp_exponent n d) eqn:E.
  - apply Z.leb_le in E. cbn [inject_Z Qnum].
    apply Z.mul_nonneg_nonneg.
    + apply round_half_even_nonneg; [lia|].
      apply Z.mul_pos_pos; [lia|]. now apply Z.pow_pos_nonneg.
    + apply Z.pow_nonneg. lia.
  - apply Z.leb_gt in E. cbn [Qnum].
    apply round_half_even_nonneg; [|lia].
    apply Z.mul_nonneg_nonneg; [lia|]. apply Z.pow_nonneg. lia.
Qed.

Lemma round_double_nonneg (q : Q) :
  0 <= Qnum q -> 0 <= Qnum (round_double q).
Proof.
  unfold round_double. destruct (Qnum q) as [|n|n]; intros H.
  - reflexivity.
  - apply round_double_pos_nonneg.
  - lia.
Qed.

Lemma product_nonneg (e : EntityInfo) :
  (0 <= score e)%Q ->
  0 <= Qnum (inject_Z (weight_of (entity_type e)) * score e).
Proof.
  intros H. pose proof (weight_of_pos (entity_type e)) as W.
  set (w := weight_of (entity_type e)) in *.
  change (Qnum (inject_Z w * score e)) with (w * Qnum (score e)).
  assert (N : 0 <= Qnum (score e)).
  { unfold Qle in H. cbn [Qnum Qden] in H. lia. }
  apply Z.mul_nonneg_nonneg; lia.
Qed.



(** ** Adding an entity *)


(** ** Truncation entity by entity against the floor of the sum *)

Lemma py_int_floor (q : Q) : 0 <= Qnum q -> py_int q = Qfloor q.
Proof.
  destruct q as [n d]. unfold py_int. cbn [Qnum Qden Qfloor].
  intros H. apply Z.quot_div_nonneg; [exact H|reflexivity].
Qed.

Lemma contribution_floor (e : EntityInfo) :
  (0 <= score e)%Q -> exact_product e ->
  contribution e = Qfloor (inject_Z (weight_of (entity_type e)) * score e).
Proof.
  intros H X. unfold contribution.
  rewrite py_int_floor by (apply round_double_nonneg, product_nonneg, H).
  apply Qfloor_comp. exact X.
Qed.

Lemma Qfloor_add_le (x y : Q) : Qfloor x + Qfloor y <= Qfloor (x + y).
Proof.
  rewrite <- (Qfloor_Z (Qfloor x + Qfloor y)).
  apply Qfloor_resp_le. rewrite inject_Z_plus.
  apply Qplus_le_compat; apply Qfloor_le.
Qed.

Lemma sum_contributions_le_floor (es : list EntityInfo) :
  Forall (fun e => (0 <= score e)%Q) es ->
  Forall exact_product es ->
  sum_contributions es <= Qfloor (weighted_sum es).
Proof.
  induction 1 as [|e es He _ IH]; intros X.
  - reflexivity.
  - inversion_clear X as [|? ? Xe Xes].
    cbn [sum_contributions weighted_sum fold_right].
    fold (sum_contributions es). fold (weighted_sum es).
    rewrite (contribution_floor e He Xe).
    eapply Z.le_trans; [|apply Qfloor_add_le]. specialize (IH Xes). lia.
Qed.

(** C7 (amended).  As long as every product stays within the range of
    doubles, the aggregate risk score is min(100, S) where S adds, entity
    by entity, the product weight(entity_type) * score, rounded to a double
    as Python computes it and then truncated to an integer; the weight
    comes from the static table with 2 for unlisted types, and the level is
    the first tier whose minimum the score reaches.  When moreover no score
    is negative and no product needs rounding this never exceeds
    min(100, floor(sum of weight * score)).  With weight 10 for CN_ID_CARD
    and a single ID-card result of score 1.0 the score is 10 and the level
    is low. *)
Theorem risk_score_adds_truncated_products :
  (forall frs : list FileResult,
      finite_products frs ->
      fst (_calculate_risk frs)
      = Z.min 100 (sum_contributions (all_entities frs))
      /\ snd (_calculate_risk frs) = spec_level (fst (_calculate_risk frs)))
  /\ (forall e : EntityInfo,
         contribution e
         = py_int (round_double
                     (inject_Z (dict_get ENTITY_WEIGHTS (entity_type e) 2)
                      * score e)))
  /\ (forall frs : list FileResult,
         finite_products frs -> nonneg_scores frs -> exact_products frs ->
         fst (_calculate_risk frs) <= spec_risk_score frs)
  /\ weight_of (py "CN_ID_CARD") = 10
  /\ weight_of (py "ORGANIZATION") = 2
  /\ (forall (fr : FileResult) (e : EntityInfo),
         entities fr = [e] ->
         entity_type e = py "CN_ID_CARD" ->
         score e = 1%Q ->
         _calculate_risk [fr] = (10, py "low")).
Proof.
  split; [|split; [|split; [|split; [|split]]]].
  - intros frs _. unfold _calculate_risk. cbn [fst snd].
    rewrite file_loop_sum, Z.add_0_l. split.
    + apply Z.min_comm.
    + apply level_loop_spec.
  - intros e. unfold contribution, weight_of.
    assert (E : dict_get ENTITY_WEIGHTS (py "default") 0 = 2)
      by (vm_compute; reflexivity).
    rewrite E. reflexivity.
  - intros frs _ H X. unfold _calculate_risk, spec_risk_score. cbn [fst].
    rewrite file_loop_sum, Z.add_0_l.
    pose proof (sum_contributions_le_floor (all_entities frs) H X). lia.
  - vm_compute. reflexivity.
  - vm_compute. reflexivity.
  - intros fr e He Ht Hs. unfold _calculate_risk.
    cbn [file_loop]. rewrite He. cbn [entity_loop].
    unfold contribution. rewrite Ht, Hs. vm_compute. reflexivity.
Qed.

Lemma risk_score_adds_truncated_products_witness :
  finite_products Samples.two_organizations
  /\ nonneg_scores Samples.two_organizations
  /\ exact_products Samples.two_organizations
  /\ fst (_calculate_risk Samples.two_organizations)
     = Z.min 100 (sum_contributions (Report.all_entities
                                       Samples.two_organizations))
  /\ fst (_calculate_risk Samples.two_organizations)
     <= spec_risk_score Samples.two_organizations
  /\ _calculate_risk Samples.one_id_card = (10, py "low").
Proof.
  assert (F : finite_products Samples.two_organizations)
    by (repeat constructor; vm_compute; reflexivity).
  assert (H : nonneg_scores Samples.two_organizations)
    by (repeat constructor; discriminate).
  assert (X : exact_products Samples.two_organizations)
    by (repeat constructor; vm_compute; reflexivity).
  split; [exact F|]. split; [exact H|]. split; [exact X|]. split; [|split].
  - exact (proj1 (proj1 risk_score_adds_truncated_products _ F)).
  - exact (proj1 (proj2 (proj2 risk_score_adds_truncated_products)) _ F H X).
  - exact (proj2 (proj2 (proj2 (proj2 (proj2
             risk_score_adds_truncated_products))))
             (Samples.file_with [Samples.entity "CN_ID_CARD" 1%Q])
             (Samples.entity "CN_ID_CARD" 1%Q) eq_refl eq_refl eq_refl).
Defined.

(** C7 as stated fails: the products are truncated one by one before they
    are added, so two results of an unlisted type with score 0.75 give
    1 + 1 = 2, not floor(1.5 + 1.5) = 3. *)
Lemma risk_score_floor_of_sum_counterexample :
  ~ (forall frs : list FileResult,
        fst (_calculate_risk frs) = spec_risk_score frs).
Proof.
  intros H. specialize (H Samples.two_organizations).
  vm_compute in H. discriminate H.
Qed.

Example two_organizations_risk :
  fst (_calculate_risk Samples.two_organizations) = 2
  /\ spec_risk_score Samples.two_organizations = 3.
Proof. split; vm_compute; reflexivity. Qed.

(** Rounding can also lift a product: the double nearest to 1/3 is a
    little less than 1/3, but three times it, rounded to a double, is 1, so
    an e-mail address (weight 3) with that score adds 1 although the exact
    product is below 1.  Five times the double nearest to 0.6 is 3 in the
    same way. *)
Example rounding_lifts_a_product :
  contribution (Samples.entity "CN_EMAIL" Samples.third) = 1
  /\ Qfloor (3 * Samples.third) = 0
  /\ contribution (Samples.entity "CN_PHONE" Samples.six_tenths) = 3
  /\ Qfloor (5 * Samples.six_tenths) = 2.
Proof. repeat split; vm_compute; reflexivity. Qed.



End ReportFacts.

(* ================================================================== *)
(** * Further facts about the Luhn check *)
(* ================================================================== *)

Module LuhnFacts.
Import CnBankCard CnBankCardFacts PyFacts.

Lemma digit_value_range (c : char) :
  is_digit c = true -> 0 <= digit_value c <= 9.
Proof.
  unfold is_digit, digit_value. intros H.
  apply andb_true_iff in H as [H1 H2].
  apply N.leb_le in H1. apply N.leb_le in H2. lia.
Qed.

Lemma digit_value_inj (c c' : char) :
  digit_value c = digit_value c' -> c = c'.
Proof. unfold digit_value. lia. Qed.

Lemma digit_char (d : Z) :
  0 <= d <= 9 ->
  is_digit (Z.to_N (48 + d)) = true /\ digit_value (Z.to_N (48 + d)) = d.
Proof.
  intros H. unfold is_digit, digit_value. split.
  - apply andb_true_iff. split; apply N.leb_le; lia.
  - lia.
Qed.

Lemma remove_char_digits (sep : char) (s : str) :
  is_digit sep = false -> forallb is_digit s = true -> remove_char sep s = s.
Proof.
  intros Hsep. unfold remove_char. induction s as [|c s IH]; simpl; [reflexivity|].
  intros H. apply andb_true_iff in H as [Hc Hs].
  destruct (c =? sep)%N eqn:E.
  - apply N.eqb_eq in E. subst c. congruence.
  - simpl. now rewrite IH.
Qed.

(** The part of the sum contributed by the digits in front does not depend
    on the digits behind, only on how many they are. *)
Lemma spec_sum_front (a l1 l2 : list Z) :
  List.length l1 = List.length l2 ->
  spec_sum (a ++ l1) - spec_sum l1 = spec_sum (a ++ l2) - spec_sum l2.
Proof.
  intros HL. induction a as [|x a IH]; [simpl; lia|].
  cbn [app spec_sum]. rewrite !length_app, HL. lia.
Qed.

Lemma doubled_inj_mod10 (d d' : Z) :
  0 <= d <= 9 -> 0 <= d' <= 9 ->
  (doubled d - doubled d') mod 10 = 0 -> d = d'.
Proof.
  unfold doubled. intros Hd Hd' M.
  apply Z.mod_divide in M; [|lia]. destruct M as [k M].
  destruct (9 <? 2 * d) eqn:E; destruct (9 <? 2 * d') eqn:E';
    try apply Z.ltb_lt in E; try apply Z.ltb_ge in E;
    try apply Z.ltb_lt in E'; try apply Z.ltb_ge in E'; lia.
Qed.

Lemma small_multiple_of_10 (x : Z) : x mod 10 = 0 -> -9 <= x <= 9 -> x = 0.
Proof.
  intros M R. apply Z.mod_divide in M; [|lia]. destruct M as [k M]. lia.
Qed.

Lemma luhn_checksum_digits (s : str) :
  forallb is_digit s = true ->
  _luhn_checksum s = Some (spec_sum (map digit_value s) mod 10 =? 0).
Proof.
  intros H. unfold _luhn_checksum.
  now rewrite (digits_of_digit_string s H), luhn_total_spec_sum.
Qed.

(** Every string of digits has exactly one check digit: one final digit
    with which the Luhn check succeeds. *)
Theorem luhn_check_digit_exists_unique (prefix : str) :
  forallb is_digit prefix = true ->
  exists c : char,
    is_digit c = true
    /\ _luhn_checksum (prefix ++ [c]) = Some true
    /\ forall c' : char,
         is_digit c' = true ->
         _luhn_checksum (prefix ++ [c']) = Some true -> c' = c.
Proof.
  intros Hp.
  set (K := spec_sum (map digit_value prefix ++ [0])).
  assert (S : forall c, is_digit c = true ->
                _luhn_checksum (prefix ++ [c])
                = Some ((K + digit_value c) mod 10 =? 0)).
  { intros c Hc. rewrite luhn_checksum_digits.
    - rewrite map_app. cbn [map].
      pose proof (spec_sum_front (map digit_value prefix) [digit_value c] [0]
                    eq_refl) as F.
      change (spec_sum [digit_value c]) with (digit_value c + 0) in F.
      change (spec_sum [0]) with 0 in F. fold K in F.
      replace (spec_sum (map digit_value prefix ++ [digit_value c]))
        with (K + digit_value c) by lia.
      reflexivity.
    - rewrite forallb_app, Hp. simpl. now rewrite Hc. }
  destruct (digit_char ((- K) mod 10)) as [D1 D2];
    [pose proof (Z.mod_pos_bound (- K) 10); lia|].
  exists (Z.to_N (48 + (- K) mod 10)). split; [exact D1|]. split.
  - rewrite (S _ D1), D2. f_equal. apply Z.eqb_eq.
    rewrite Zplus_mod_idemp_r. replace (K + - K) with 0 by lia. reflexivity.
  - intros c' Hc' V. rewrite (S _ Hc') in V. injection V as V.
    apply Z.eqb_eq in V. apply digit_value_inj. rewrite D2.
    pose proof (digit_value_range c' Hc').
    pose proof (Z.mod_pos_bound (- K) 10).
    assert (Q : (K + (- K) mod 10) mod 10 = 0).
    { rewrite Zplus_mod_idemp_r. replace (K + - K) with 0 by lia. reflexivity. }
    assert (Z0 : (digit_value c' - (- K) mod 10) mod 10 = 0).
    { replace (digit_value c' - (- K) mod 10)
        with ((K + digit_value c') - (K + (- K) mod 10)) by lia.
      rewrite Zminus_mod, V, Q. reflexivity. }
    pose proof (small_multiple_of_10 _ Z0). lia.
Qed.

Lemma luhn_check_digit_exists_unique_witness :
  forallb is_digit (py "453201511283036") = true
  /\ exists c : char,
       is_digit c = true
       /\ _luhn_checksum (py "453201511283036" ++ [c]) = Some true
       /\ forall c' : char,
            is_digit c' = true ->
            _luhn_checksum (py "453201511283036" ++ [c']) = Some true ->
            c' = c.
Proof.
  split; [reflexivity|].
  apply luhn_check_digit_exists_unique. reflexivity.
Defined.

(** A Confirmed card number written with digits only stops being Confirmed
    as soon as one of its digits is replaced by another digit: the verdict
    becomes Uncertain. *)
Theorem one_wrong_digit_is_not_confirmed (a b : str) (c c' : char) :
  forallb is_digit (a ++ c :: b) = true ->
  is_digit c' = true ->
  c' <> c ->
  validate_result (a ++ c :: b) = Some true ->
  validate_result (a ++ c' :: b) = None.
Proof.
  intros Hd Hc' Hne V.
  assert (Hd' : forallb is_digit (a ++ c' :: b) = true).
  { rewrite forallb_app in Hd |- *. apply andb_true_iff in Hd as [Ha Hb].
    cbn [forallb] in Hb |- *. apply andb_true_iff in Hb as [_ Hb].
    now rewrite Ha, Hc', Hb. }
  assert (Hc : is_digit c = true).
  { rewrite forallb_app in Hd. apply andb_true_iff in Hd as [_ Hb].
    cbn [forallb] in Hb. now apply andb_true_iff in Hb as [Hb _]. }
  assert (L : List.length (a ++ c' :: b) = List.length (a ++ c :: b))
    by (rewrite !length_app; reflexivity).
  unfold validate_result in V |- *.
  rewrite (remove_char_digits (ch "-") (a ++ c :: b)) in V
    by (reflexivity || assumption).
  rewrite (remove_char_digits (ch " ") (a ++ c :: b)) in V
    by (reflexivity || assumption).
  rewrite (remove_char_digits (ch "-") (a ++ c' :: b))
    by (reflexivity || assumption).
  rewrite (remove_char_digits (ch " ") (a ++ c' :: b))
    by (reflexivity || assumption).
  unfold len in V |- *. rewrite L.
  destruct ((Z.of_nat (List.length (a ++ c :: b)) <? 15)
            || (19 <? Z.of_nat (List.length (a ++ c :: b)))); [discriminate V|].
  assert (I : forall s, forallb is_digit s = true -> s <> [] -> isdigit s = true)
    by (intros [|x s] Hs Hn; [congruence|exact Hs]).
  rewrite I in V |- * by (assumption || (now destruct a)).
  cbn [negb] in V |- *.
  rewrite luhn_checksum_digits in V |- * by assumption.
  destruct (spec_sum (map digit_value (a ++ c :: b)) mod 10 =? 0) eqn:E;
    [|discriminate V].
  apply Z.eqb_eq in E.
  destruct (spec_sum (map digit_value (a ++ c' :: b)) mod 10 =? 0) eqn:E';
    [|reflexivity].
  apply Z.eqb_eq in E'. exfalso. apply Hne. apply digit_value_inj.
  rewrite !map_app in E, E'. cbn [map] in E, E'.
  pose proof (spec_sum_front (map digit_value a)
                (digit_value c :: map digit_value b)
                (digit_value c' :: map digit_value b) eq_refl) as F.
  cbn [spec_sum] in F.
  pose proof (digit_value_range c Hc) as Rc.
  pose proof (digit_value_range c' Hc') as Rc'.
  destruct (Nat.even (S (List.length (map digit_value b)))).
  - apply doubled_inj_mod10; try assumption.
    replace (doubled (digit_value c') - doubled (digit_value c))
      with (spec_sum (map digit_value a ++ digit_value c' :: map digit_value b)
            - spec_sum (map digit_value a ++ digit_value c :: map digit_value b))
      by lia.
    rewrite Zminus_mod, E, E'. reflexivity.
  - assert (M : (digit_value c' - digit_value c) mod 10 = 0).
    { replace (digit_value c' - digit_value c)
        with (spec_sum (map digit_value a ++ digit_value c' :: map digit_value b)
              - spec_sum (map digit_value a ++ digit_value c :: map digit_value b))
        by lia.
      rewrite Zminus_mod, E, E'. reflexivity. }
    pose proof (small_multiple_of_10 _ M). lia.
Qed.

Lemma one_wrong_digit_is_not_confirmed_witness :
  validate_result (py "45320151" ++ ch "1" :: py "2830366") = Some true
  /\ validate_result (py "45320151" ++ ch "7" :: py "2830366") = None.
Proof.
  split; [reflexivity|].
  apply (one_wrong_digit_is_not_confirmed (py "45320151") (py "2830366")
           (ch "1") (ch "7"));
    [reflexivity|reflexivity|vm_compute; discriminate|reflexivity].
Defined.

End LuhnFacts.

(* ================================================================== *)
(** * Further facts about the ID-card check *)
(* ================================================================== *)

Module CnIdCardMoreFacts.
Import CnIdCard CnIdCardFacts PyFacts LuhnFacts.

Lemma weighted_loop_digits (id : str) (m k : nat) (acc t : Z) :
  (k + m <= 17)%nat -> (17 <= List.length id)%nat ->
  weighted_loop id (seq k m) acc = Some t ->
  forallb is_digit (firstn m (skipn k id)) = true.
Proof.
  intros Hk Hlen. revert k acc Hk.
  induction m as [|m IH]; intros k acc Hk H; [reflexivity|].
  cbn [seq weighted_loop] in H.
  destruct (nth_error_some_of_lt id k) as [c Hc]; [lia|].
  destruct (nth_error_some_of_lt WEIGHTS k) as [w Hw]; [simpl; lia|].
  rewrite index_nth_error in H by lia. rewrite Hc, Hw in H.
  unfold int_of_char in H. destruct (is_digit c) eqn:D; [|discriminate H].
  rewrite (skipn_nth_error id k c Hc). cbn [firstn forallb]. rewrite D.
  apply (IH (S k) _ ltac:(lia) H).
Qed.

Lemma weighted_total_inv (id : str) (t : Z) :
  (17 <= List.length id)%nat ->
  weighted_total id = Some t ->
  forallb is_digit (firstn 17 id) = true
  /\ t = spec_weighted_sum (firstn 17 id) WEIGHTS.
Proof.
  intros Hlen H.
  assert (D : forallb is_digit (firstn 17 id) = true)
    by exact (weighted_loop_digits id 17 0 0 t ltac:(lia) Hlen H).
  split; [exact D|].
  rewrite (weighted_total_sum id Hlen D) in H. now injection H.
Qed.

(** What a Confirmed verdict says about the normalised number. *)
Lemma validate_true_inv (t : str) :
  validate_result t = Some true ->
  List.length (normalize t) = 18%nat
  /\ forallb is_digit (firstn 17 (normalize t)) = true
  /\ existsb (str_eqb (firstn 2 (normalize t))) VALID_PROVINCE_CODES = true
  /\ exists c e,
       nth_error (normalize t) 17 = Some c
       /\ spec_check_char (normalize t) = Some e
       /\ upper_char c = e.
Proof.
  unfold validate_result. set (id := normalize t).
  destruct (len id =? 18) eqn:L; [|discriminate].
  apply Z.eqb_eq in L. unfold len in L.
  assert (Hlen : List.length id = 18%nat) by lia.
  cbn [negb]. change 2 with (Z.of_nat 2). rewrite slice_to_firstn.
  destruct (existsb (str_eqb (firstn 2 id)) VALID_PROVINCE_CODES) eqn:P;
    [|discriminate].
  cbn [negb].
  destruct (weighted_total id) as [total|] eqn:W; [|discriminate].
  destruct (weighted_total_inv id total ltac:(lia) W) as [D ->].
  change 17 with (Z.of_nat 17). rewrite index_nth_error by lia.
  fold (spec_check_char id).
  destruct (spec_check_char id) as [e|] eqn:E; [|discriminate].
  destruct (nth_error id 17) as [c|] eqn:C; [|discriminate].
  destruct (upper_char c =? e)%N eqn:Q; [|discriminate].
  intros _. apply N.eqb_eq in Q.
  repeat split; try assumption. now exists c, e.
Qed.

Lemma validate_bad_province (t : str) :
  List.length (normalize t) = 18%nat ->
  existsb (str_eqb (firstn 2 (normalize t))) VALID_PROVINCE_CODES = false ->
  validate_result t = None.
Proof.
  intros Hlen P. unfold validate_result, len. rewrite Hlen.
  cbn [Z.of_nat Pos.of_succ_nat Pos.succ Z.eqb Pos.eqb negb].
  change 2 with (Z.of_nat 2). now rewrite slice_to_firstn, P.
Qed.

Lemma normalize_app (s t : str) : normalize (s ++ t) = normalize s ++ normalize t.
Proof.
  unfold normalize, remove_char, upper. now rewrite !filter_app, map_app.
Qed.

Lemma normalize_digit (x : char) (b : str) :
  is_digit x = true -> normalize (x :: b) = x :: normalize b.
Proof.
  intros H. unfold is_digit in H. apply andb_true_iff in H as [H1 H2].
  apply N.leb_le in H1. apply N.leb_le in H2.
  unfold normalize, remove_char. cbn [filter].
  assert (E1 : (x =? ch "-")%N = false) by (apply N.eqb_neq; cbv; lia).
  rewrite E1. cbn [negb filter].
  assert (E2 : (x =? ch " ")%N = false) by (apply N.eqb_neq; cbv; lia).
  rewrite E2. cbn [negb upper map]. f_equal.
  unfold upper_char.
  assert (E3 : (97 <=? x)%N = false) by (apply N.leb_gt; lia).
  now rewrite E3.
Qed.

Lemma spec_weighted_sum_split (A : str) (c : char) (R : str) :
  forall (ws : list Z) (w : Z),
    nth_error ws (List.length A) = Some w ->
    spec_weighted_sum (A ++ c :: R) ws
    = spec_weighted_sum A ws + digit_value c * w
      + spec_weighted_sum R (skipn (S (List.length A)) ws).
Proof.
  induction A as [|x A IH]; intros [|w0 ws] w H; try discriminate H.
  - cbn in H. injection H as ->. cbn. lia.
  - cbn [List.length nth_error] in H. cbn [app spec_weighted_sum List.length].
    rewrite (IH ws w H). cbn [skipn]. lia.
Qed.

Lemma weight_invertible (w x : Z) :
  In w WEIGHTS -> -9 <= x <= 9 -> (x * w) mod 11 = 0 -> x = 0.
Proof.
  intros Hw Hx M. apply Z.mod_divide in M; [|lia]. destruct M as [k M].
  unfold WEIGHTS in Hw. simpl in Hw.
  repeat (destruct Hw as [<-|Hw]; [lia|]). contradiction.
Qed.

Lemma checksum_map_injective (i j : nat) (e : char) :
  nth_error CHECKSUM_MAP i = Some e -> nth_error CHECKSUM_MAP j = Some e ->
  i = j.
Proof.
  intros Hi Hj.
  assert (ND : NoDup CHECKSUM_MAP).
  { change CHECKSUM_MAP with [49; 48; 88; 57; 56; 55; 54; 53; 52; 51; 50]%N.
    repeat (constructor; [simpl; intuition discriminate|]). constructor. }
  apply (proj1 (NoDup_nth_error CHECKSUM_MAP) ND).
  - apply nth_error_Some. congruence.
  - congruence.
Qed.

(** A Confirmed ID number stops being Confirmed as soon as one of its
    seventeen leading digits is replaced by another digit: the verdict
    becomes Uncertain. *)
Theorem id_one_wrong_digit_is_not_confirmed (a b : str) (c c' : char) :
  (List.length (normalize a) < 17)%nat ->
  is_digit c = true ->
  is_digit c' = true ->
  c' <> c ->
  validate_result (a ++ c :: b) = Some true ->
  validate_result (a ++ c' :: b) = None.
Proof.
  intros Hi Hc Hc' Hne V.
  apply validate_true_inv in V
    as (Hlen & Hd & Hp & l & e & Hl & He & Hle).
  rewrite normalize_app, normalize_digit in Hlen, Hd, Hl, He by assumption.
  set (A := normalize a) in *. set (B := normalize b) in *.
  assert (N' : normalize (a ++ c' :: b) = A ++ c' :: B)
    by (rewrite normalize_app, normalize_digit by assumption; reflexivity).
  assert (Hlen' : List.length (A ++ c' :: B) = 18%nat)
    by (rewrite length_app in Hlen |- *; exact Hlen).
  assert (LB : (List.length A + S (List.length B) = 18)%nat)
    by (rewrite length_app in Hlen; exact Hlen).
  assert (F : forall x, firstn 17 (A ++ x :: B)
                        = A ++ x :: firstn (16 - List.length A) B).
  { intros x. rewrite firstn_app.
    rewrite (@firstn_all2 _ 17 A) by lia.
    replace (17 - List.length A)%nat with (S (16 - List.length A)) by lia.
    reflexivity. }
  assert (Hd' : forallb is_digit (firstn 17 (A ++ c' :: B)) = true).
  { rewrite F in Hd |- *. rewrite forallb_app in Hd |- *.
    apply andb_true_iff in Hd as [HA HB]. cbn [forallb] in HB |- *.
    apply andb_true_iff in HB as [_ HB]. now rewrite HA, Hc', HB. }
  assert (Hl' : nth_error (A ++ c' :: B) 17 = Some l).
  { rewrite nth_error_app2 in Hl |- * by lia.
    replace (17 - List.length A)%nat with (S (16 - List.length A)) in Hl |- *
      by lia.
    exact Hl. }
  destruct (existsb (str_eqb (firstn 2 (normalize (a ++ c' :: b))))
              VALID_PROVINCE_CODES) eqn:P'.
  2:{ apply validate_bad_province; [now rewrite N'|exact P']. }
  destruct (nth_error_some_of_lt CHECKSUM_MAP
              (Z.to_nat (spec_weighted_sum (firstn 17 (A ++ c' :: B)) WEIGHTS
                         mod 11))) as [e' He'].
  { pose proof (Z.mod_pos_bound
                  (spec_weighted_sum (firstn 17 (A ++ c' :: B)) WEIGHTS) 11).
    simpl List.length. lia. }
  assert (Sh : validate_result (a ++ c' :: b)
               = if (upper_char l =? e')%N then Some true else None).
  { apply validate_result_on_shape.
    - now rewrite N'.
    - now rewrite N'.
    - exact P'.
    - now rewrite N'.
    - rewrite N'. exact He'. }
  rewrite Sh.
  destruct (upper_char l =? e')%N eqn:Q; [|reflexivity].
  exfalso. apply N.eqb_eq in Q. rewrite Hle in Q. subst e'.
  unfold spec_check_char in He.
  pose proof (checksum_map_injective _ _ _ He He') as E.
  rewrite !F in E.
  destruct (nth_error_some_of_lt WEIGHTS (List.length A)) as [w Hw];
    [simpl; lia|].
  rewrite !(spec_weighted_sum_split A _ _ WEIGHTS w Hw) in E.
  set (S1 := spec_weighted_sum A WEIGHTS) in E.
  set (S2 := spec_weighted_sum (firstn (16 - List.length A) B)
               (skipn (S (List.length A)) WEIGHTS)) in E.
  pose proof (Z.mod_pos_bound (S1 + digit_value c * w + S2) 11 ltac:(lia)).
  pose proof (Z.mod_pos_bound (S1 + digit_value c' * w + S2) 11 ltac:(lia)).
  assert (E2 : (S1 + digit_value c * w + S2) mod 11
               = (S1 + digit_value c' * w + S2) mod 11) by lia.
  assert (M : ((digit_value c' - digit_value c) * w) mod 11 = 0).
  { replace ((digit_value c' - digit_value c) * w)
      with ((S1 + digit_value c' * w + S2) - (S1 + digit_value c * w + S2))
      by lia.
    rewrite Zminus_mod, E2, Z.sub_diag. reflexivity. }
  pose proof (digit_value_range c Hc). pose proof (digit_value_range c' Hc').
  apply weight_invertible in M; [|eapply nth_error_In; exact Hw|lia].
  apply Hne. apply digit_value_inj. lia.
Qed.

Lemma id_one_wrong_digit_is_not_confirmed_witness :
  validate_result (py "1101011990" ++ ch "0" :: py "3074514") = Some true
  /\ validate_result (py "1101011990" ++ ch "8" :: py "3074514") = None.
Proof.
  split; [reflexivity|].
  apply (id_one_wrong_digit_is_not_confirmed (py "1101011990") (py "3074514")
           (ch "0") (ch "8"));
    [vm_compute; lia|reflexivity|reflexivity|vm_compute; discriminate
    |reflexivity].
Defined.

End CnIdCardMoreFacts.

(* ================================================================== *)
(** * The degeneracy filters and the sibling recognizers *)
(* ================================================================== *)

Module FilterFacts.
Import PyFacts LuhnFacts.

Lemma nodup_repeat (c : char) (n : nat) :
  nodup N.eq_dec (repeat c (S n)) = [c].
Proof.
  induction n as [|n IH]; [reflexivity|].
  change (repeat c (S (S n))) with (c :: repeat c (S n)).
  cbn [nodup]. destruct (in_dec N.eq_dec c (repeat c (S n))) as [_|N].
  - exact IH.
  - exfalso. apply N. now left.
Qed.

Lemma distinct_count_repeat (c : char) (n : nat) :
  distinct_count (repeat c (S n)) = 1%nat.
Proof. unfold distinct_count. now rewrite nodup_repeat. Qed.

Lemma remove_char_repeat (sep c : char) (n : nat) :
  c <> sep -> remove_char sep (repeat c n) = repeat c n.
Proof.
  intros H. unfold remove_char. induction n as [|n IH]; [reflexivity|].
  cbn [repeat filter]. rewrite (proj2 (N.eqb_neq c sep) H). cbn [negb].
  now rewrite IH.
Qed.

Lemma upper_repeat (c : char) (n : nat) :
  upper (repeat c n) = repeat (upper_char c) n.
Proof. unfold upper. apply map_repeat. Qed.

(** Numbers made of one repeated ASCII character are always invalidated:
    by the bank-card, postal-code and social-credit-code filters whatever
    the length, and by the ID-card filter when the seventeen leading
    characters are equal.  The Luhn check alone would not do it: the
    all-zero card numbers of 15 to 19 digits are Confirmed by
    [validate_result]. *)
Theorem uniform_numbers_are_invalidated :
  (forall (c : char) (n : nat),
      (c < 128)%N -> c <> ch "-" -> c <> ch " " ->
      CnBankCardFilter.invalidate_result (repeat c (S n)) = true
      /\ CnPostalCode.invalidate_result (repeat c (S n)) = true
      /\ CnSocialCreditCode.invalidate_result (repeat c (S n)) = true
      /\ forall last : char,
           CnIdCardFilter.invalidate_result (repeat c 17 ++ [last]) = true)
  /\ (forall n : nat,
         (15 <= n <= 19)%nat ->
         CnBankCard.validate_result (repeat (ch "0") n) = Some true).
Proof.
  split.
  - intros c n _ H1 H2. repeat split.
    + unfold CnBankCardFilter.invalidate_result.
      rewrite !remove_char_repeat by assumption.
      now rewrite distinct_count_repeat.
    + unfold CnPostalCode.invalidate_result, CnPostalCode.clean.
      rewrite !remove_char_repeat by assumption.
      now rewrite distinct_count_repeat.
    + unfold CnSocialCreditCode.invalidate_result, CnSocialCreditCode.normalize.
      rewrite !remove_char_repeat by assumption.
      now rewrite upper_repeat, distinct_count_repeat.
    + intros last.
      assert (E : CnIdCard.normalize (repeat c 17 ++ [last])
                  = repeat (upper_char c) 17 ++ CnIdCard.normalize [last]).
      { rewrite CnIdCardMoreFacts.normalize_app. f_equal.
        unfold CnIdCard.normalize.
        now rewrite !remove_char_repeat, upper_repeat by assumption. }
      unfold CnIdCardFilter.invalidate_result. rewrite E.
      set (tail := CnIdCard.normalize [last]).
      destruct (len (repeat (upper_char c) 17 ++ tail) =? 18) eqn:L;
        [|reflexivity].
      cbn [negb]. change 17 with (Z.of_nat 17). rewrite slice_to_firstn.
      rewrite firstn_app, repeat_length, Nat.sub_diag.
      change (firstn 0 tail) with (@nil char). rewrite app_nil_r.
      rewrite (@firstn_all2 _ 17 (repeat (upper_char c) 17))
        by (rewrite repeat_length; lia).
      now rewrite (distinct_count_repeat (upper_char c) 16).
  - intros n H.
    assert (C : (n = 15 \/ n = 16 \/ n = 17 \/ n = 18 \/ n = 19)%nat) by lia.
    destruct C as [E | [E | [E | [E | E]]]]; subst n; reflexivity.
Qed.

Lemma uniform_numbers_are_invalidated_witness :
  CnBankCardFilter.invalidate_result (repeat (ch "0") 16) = true
  /\ CnBankCard.validate_result (repeat (ch "0") 16) = Some true.
Proof.
  split.
  - apply (proj1 (proj1 uniform_numbers_are_invalidated (ch "0") 15%nat
                    ltac:(vm_compute; reflexivity)
                    ltac:(vm_compute; discriminate)
                    ltac:(vm_compute; discriminate))).
  - apply (proj2 uniform_numbers_are_invalidated 16%nat). lia.
Defined.

(** An ID number that passes the degeneracy filter has eighteen characters
    after normalisation, seventeen leading characters that are not all the
    same, and a birth date whose fields read as integers with the year in
    1900..2100, the month in 1..12 and the day within the month's table
    entry (February has 29 days in every year). *)
Theorem id_passing_filter_has_plausible_date (pattern_text : str) :
  CnIdCardFilter.invalidate_result pattern_text = false ->
  let id := CnIdCard.normalize pattern_text in
  List.length id = 18%nat
  /\ distinct_count (firstn 17 id) <> 1%nat
  /\ exists year month day days : Z,
       int_of_str (slice id 6 10) = Some year
       /\ int_of_str (slice id 10 12) = Some month
       /\ int_of_str (slice id 12 14) = Some day
       /\ 1900 <= year <= 2100
       /\ 1 <= month <= 12
       /\ nth_error CnIdCardFilter.days_in_month (Z.to_nat month) = Some days
       /\ 1 <= day <= days
       /\ days <= 31.
Proof.
  intros H id. unfold CnIdCardFilter.invalidate_result in H. fold id in H.
  destruct (len id =? 18) eqn:L; [|discriminate H].
  apply Z.eqb_eq in L. unfold len in L. cbn [negb] in H.
  change 17 with (Z.of_nat 17) in H. rewrite slice_to_firstn in H.
  destruct (distinct_count (firstn 17 id) =? 1)%nat eqn:D; [discriminate H|].
  apply Nat.eqb_neq in D.
  destruct (existsb _ CnIdCardFilter.sequential_patterns); [discriminate H|].
  unfold CnIdCardFilter.bad_birth_date in H.
  destruct (int_of_str (slice id 6 10)) as [year|]; [|discriminate H].
  destruct (int_of_str (slice id 10 12)) as [month|]; [|discriminate H].
  destruct (int_of_str (slice id 12 14)) as [day|]; [|discriminate H].
  destruct ((year <? 1900) || (2100 <? year)) eqn:Y; [discriminate H|].
  destruct ((month <? 1) || (12 <? month)) eqn:M; [discriminate H|].
  destruct ((day <? 1) || (31 <? day)) eqn:Dy; [discriminate H|].
  apply orb_false_iff in Y as [Y1 Y2]. apply orb_false_iff in M as [M1 M2].
  apply orb_false_iff in Dy as [D1 D2].
  apply Z.ltb_ge in Y1, Y2, M1, M2, D1, D2.
  destruct (nth_error CnIdCardFilter.days_in_month (Z.to_nat month))
    as [days|] eqn:T; [|discriminate H].
  apply Z.ltb_ge in H.
  split; [lia|]. split; [exact D|].
  exists year, month, day, days. repeat split; try assumption; try lia.
  apply nth_error_In in T. simpl in T.
  repeat (destruct T as [<-|T]; [lia|]). contradiction.
Qed.

Lemma id_passing_filter_has_plausible_date_witness :
  CnIdCardFilter.invalidate_result (py "110101199003074514") = false
  /\ int_of_str (slice (CnIdCard.normalize (py "110101199003074514")) 6 10)
     = Some 1990.
Proof.
  split; [reflexivity|].
  destruct (id_passing_filter_has_plausible_date (py "110101199003074514")
              eq_refl)
    as (_ & _ & y & m & d & ds & Hy & _).
  vm_compute in Hy |- *. reflexivity.
Defined.

End FilterFacts.

(* ================================================================== *)
(** * The driver-license and social-credit-code checks *)
(* ================================================================== *)

Module SiblingFacts.
Import PyFacts LuhnFacts CnIdCardFacts.

Lemma upper_fixed (s : str) (c : char) :
  In c (upper s) -> upper_char c = c.
Proof.
  unfold upper. intros H. apply in_map_iff in H as [x [<- _]].
  apply upper_char_idem.
Qed.

Lemma some_inj {A} (a b : A) : Some a = Some b -> a = b.
Proof. now intros [= ->]. Qed.

Lemma id_loop_is_driver_sum (id : str) (idxs : list nat) :
  forall acc,
    CnIdCard.weighted_loop id idxs acc
    = option_map (Z.add acc) (CnDriverLicense.weighted_sum id idxs).
Proof.
  induction idxs as [|i r IH]; intros acc.
  - cbn. now rewrite Z.add_0_r.
  - cbn [CnIdCard.weighted_loop CnDriverLicense.weighted_sum].
    change CnDriverLicense.WEIGHTS with CnIdCard.WEIGHTS.
    destruct (index id (Z.of_nat i)) as [c|]; [|reflexivity].
    destruct (nth_error CnIdCard.WEIGHTS i) as [w|]; [|reflexivity].
    destruct (int_of_char c) as [d|]; [|reflexivity].
    rewrite IH. destruct (CnDriverLicense.weighted_sum id r) as [rest|];
      cbn [option_map]; [|reflexivity].
    f_equal. lia.
Qed.

(** Every text that the ID-card recognizer confirms is also accepted by the
    driver-license validator: the two share the weighted check, and the
    driver-license validator asks for nothing more on eighteen
    characters. *)
Theorem confirmed_id_is_valid_driver_license (pattern_text : str) :
  CnIdCard.validate_result pattern_text = Some true ->
  CnDriverLicense.validate_result pattern_text = true.
Proof.
  intros V.
  apply CnIdCardMoreFacts.validate_true_inv in V
    as (Hlen & Hd & _ & c & e & Hc & He & Hce).
  unfold CnDriverLicense.validate_result.
  change (CnDriverLicense.normalize pattern_text)
    with (CnIdCard.normalize pattern_text).
  set (id := CnIdCard.normalize pattern_text) in *.
  unfold len. rewrite Hlen.
  cbn [Z.of_nat Pos.of_succ_nat Pos.succ Z.eqb Pos.eqb].
  pose proof (weighted_total_sum id ltac:(lia) Hd) as W.
  unfold CnIdCard.weighted_total in W. rewrite id_loop_is_driver_sum in W.
  destruct (CnDriverLicense.weighted_sum id (seq 0 17)) as [total|];
    [|discriminate W].
  assert (T : total = CnIdCard.spec_weighted_sum (firstn 17 id) CnIdCard.WEIGHTS).
  { apply some_inj. rewrite <- W. reflexivity. }
  clear W. subst total.
  change CnDriverLicense.CHECKSUM_MAP with CnIdCard.CHECKSUM_MAP.
  unfold CnIdCard.spec_check_char in He. rewrite He.
  change 17 with (Z.of_nat 17). rewrite index_nth_error by lia. rewrite Hc.
  apply N.eqb_eq. rewrite <- Hce. symmetry.
  apply (upper_fixed (remove_char (ch " ") (remove_char (ch "-") pattern_text))).
  apply nth_error_In with (n := 17%nat). exact Hc.
Qed.

Lemma confirmed_id_is_valid_driver_license_witness :
  CnIdCard.validate_result (py "110101199003074514") = Some true
  /\ CnDriverLicense.validate_result (py "110101199003074514") = true.
Proof.
  split; [reflexivity|].
  apply confirmed_id_is_valid_driver_license. reflexivity.
Defined.

End SiblingFacts.

(* ================================================================== *)
(** * The social-credit-code check *)
(* ================================================================== *)

Module SocialCreditFacts.
Import PyFacts LuhnFacts CnIdCardFacts CnSocialCreditCode CnSocialCreditRule.

Lemma valid_chars_value :
  VALID_CHARS
  = [48; 49; 50; 51; 52; 53; 54; 55; 56; 57; 65; 66; 67; 68; 69; 70; 71; 72;
     74; 75; 76; 77; 78; 80; 81; 82; 84; 85; 87; 88; 89]%N.
Proof. reflexivity. Qed.

Lemma valid_chars_length : List.length VALID_CHARS = 31%nat.
Proof. reflexivity. Qed.

Lemma valid_char_In (c : char) : valid_char c = true <-> In c VALID_CHARS.
Proof.
  unfold valid_char, contains. rewrite existsb_exists. split.
  - intros [x [Hx E]]. apply N.eqb_eq in E. now subst.
  - intros H. exists c. split; [exact H|apply N.eqb_refl].
Qed.

Lemma index_of_nth (c : char) (s : str) :
  forall (i v : Z),
    index_of c s i = Some v ->
    exists k, v = i + Z.of_nat k /\ nth_error s k = Some c.
Proof.
  induction s as [|x s IH]; intros i v H; [discriminate H|].
  cbn [index_of] in H. destruct (x =? c)%N eqn:E.
  - apply N.eqb_eq in E. injection H as <-. subst x.
    exists 0%nat. split; [lia|reflexivity].
  - destruct (IH _ _ H) as [k [-> Hk]]. exists (S k). split; [lia|exact Hk].
Qed.

Lemma index_of_In (c : char) (s : str) :
  forall i, In c s -> exists v, index_of c s i = Some v.
Proof.
  induction s as [|x s IH]; intros i H; [contradiction|].
  cbn [index_of]. destruct (x =? c)%N eqn:E; [eauto|].
  destruct H as [->|H]; [rewrite N.eqb_refl in E; discriminate|].
  apply (IH (i + 1) H).
Qed.

Lemma char_value_spec (c : char) :
  valid_char c = true ->
  index_of c VALID_CHARS 0 = Some (char_value c)
  /\ 0 <= char_value c <= 30
  /\ nth_error VALID_CHARS (Z.to_nat (char_value c)) = Some c.
Proof.
  intros H. apply valid_char_In in H.
  destruct (index_of_In c VALID_CHARS 0 H) as [v Hv].
  unfold char_value. rewrite Hv. split; [reflexivity|].
  destruct (index_of_nth _ _ _ _ Hv) as [k [-> Hk]].
  assert (k < 31)%nat
    by (rewrite <- valid_chars_length; apply nth_error_Some; congruence).
  rewrite Z.add_0_l, Nat2Z.id. split; [lia|exact Hk].
Qed.

Lemma char_value_inj (c c' : char) :
  valid_char c = true -> valid_char c' = true ->
  char_value c = char_value c' -> c = c'.
Proof.
  intros H H' E.
  destruct (char_value_spec c H) as (_ & _ & N1).
  destruct (char_value_spec c' H') as (_ & _ & N2).
  rewrite E in N1. congruence.
Qed.

Lemma valid_char_normal (c : char) :
  valid_char c = true ->
  (c =? ch "-")%N = false /\ (c =? ch " ")%N = false /\ upper_char c = c.
Proof.
  intros H. apply valid_char_In in H. rewrite valid_chars_value in H.
  simpl in H.
  repeat (destruct H as [<-|H]; [repeat split; reflexivity|]). contradiction.
Qed.

Lemma normalize_valid (s : str) :
  forallb valid_char s = true -> normalize s = s.
Proof.
  unfold normalize, remove_char, upper.
  induction s as [|c s IH]; [reflexivity|].
  cbn [forallb]. intros H. apply andb_true_iff in H as [Hc Hs].
  destruct (valid_char_normal c Hc) as (E1 & E2 & E3).
  cbn [filter]. rewrite E1. cbn [negb filter]. rewrite E2. cbn [negb map].
  rewrite E3. f_equal. exact (IH Hs).
Qed.

Lemma valid_in_prefix (code : str) (k : nat) (c : char) :
  forallb valid_char code = true -> nth_error code k = Some c ->
  valid_char c = true.
Proof.
  intros H Hc. rewrite forallb_forall in H. apply H.
  eapply nth_error_In; exact Hc.
Qed.

Lemma total_loop_sum (code : str) (m k : nat) (acc : Z) :
  (k + m <= 17)%nat -> (17 <= List.length code)%nat ->
  forallb valid_char code = true ->
  total_loop code (seq k m) acc
  = Some (acc + spec_total (firstn m (skipn k code)) (skipn k WEIGHTS)).
Proof.
  intros Hk Hlen Hv. revert k acc Hk.
  induction m as [|m IH]; intros k acc Hk.
  - simpl. now rewrite Z.add_0_r.
  - cbn [seq total_loop].
    destruct (nth_error_some_of_lt code k) as [c Hc]; [lia|].
    destruct (nth_error_some_of_lt WEIGHTS k) as [w Hw]; [simpl; lia|].
    rewrite index_nth_error by lia. rewrite Hc, Hw.
    destruct (char_value_spec c (valid_in_prefix code k c Hv Hc)) as (I & _ & _).
    rewrite I, IH by lia.
    rewrite (skipn_nth_error code k c Hc), (skipn_nth_error WEIGHTS k w Hw).
    cbn [firstn spec_total]. f_equal. lia.
Qed.

Lemma index_in_range (s : str) (z : Z) :
  0 <= z < len s -> index s z = nth_error s (Z.to_nat z).
Proof.
  intros H. unfold index.
  destruct (z <? 0) eqn:E; [apply Z.ltb_lt in E; lia|].
  rewrite E. cbn [orb].
  destruct (len s <=? z) eqn:F; [apply Z.leb_le in F; lia|reflexivity].
Qed.

Lemma forallb_valid (s : str) :
  forallb (contains VALID_CHARS) s = forallb valid_char s.
Proof. unfold valid_char. reflexivity. Qed.

(** What [validate_result] answers on eighteen characters of the
    alphabet. *)
Lemma validate_on_valid (code : str) (c e : char) :
  forallb valid_char code = true ->
  List.length code = 18%nat ->
  nth_error code 17 = Some c ->
  spec_check_char (firstn 17 code) = Some e ->
  validate_result code = (c =? e)%N.
Proof.
  intros Hv Hlen Hc He. unfold validate_result.
  rewrite (normalize_valid code Hv). unfold len. rewrite Hlen.
  cbn [Z.of_nat Pos.of_succ_nat Pos.succ Z.eqb Pos.eqb negb].
  rewrite forallb_valid, Hv. cbn [negb].
  rewrite (total_loop_sum code 17 0 0) by (lia || assumption).
  rewrite Z.add_0_l.
  change (skipn 0 code) with code. change (skipn 0 WEIGHTS) with WEIGHTS.
  unfold spec_check_char in He.
  set (r := (31 - spec_total (firstn 17 code) WEIGHTS mod 31) mod 31) in *.
  assert (R : 0 <= r < 31) by (apply Z.mod_pos_bound; lia).
  rewrite (index_in_range VALID_CHARS r)
    by (unfold len; rewrite valid_chars_length; lia).
  rewrite He.
  rewrite (index_in_range code 17) by (unfold len; rewrite Hlen; lia).
  change (Z.to_nat 17) with 17%nat. now rewrite Hc.
Qed.

Lemma validate_wrong_length (t : str) :
  List.length (normalize t) <> 18%nat -> validate_result t = false.
Proof.
  intros H. unfold validate_result.
  destruct (len (normalize t) =? 18) eqn:E; [|reflexivity].
  apply Z.eqb_eq in E. unfold len in E. lia.
Qed.

Lemma validate_foreign_char (t : str) :
  forallb valid_char (normalize t) = false -> validate_result t = false.
Proof.
  intros H. unfold validate_result.
  destruct (negb (len (normalize t) =? 18)); [reflexivity|].
  now rewrite forallb_valid, H.
Qed.

Lemma separator_upper (c : char) :
  CnIdCard.is_separator (upper_char c) = CnIdCard.is_separator c.
Proof.
  unfold upper_char, CnIdCard.is_separator.
  destruct ((97 <=? c) && (c <=? 122))%N eqn:Q; [|reflexivity].
  apply andb_true_iff in Q as [Q1 Q2]. apply N.leb_le in Q1, Q2.
  change (ch "-") with 45%N. change (ch " ") with 32%N.
  assert (E1 : (c =? 45)%N = false) by (apply N.eqb_neq; lia).
  assert (E2 : (c =? 32)%N = false) by (apply N.eqb_neq; lia).
  assert (E3 : (c - 32 =? 45)%N = false) by (apply N.eqb_neq; lia).
  assert (E4 : (c - 32 =? 32)%N = false) by (apply N.eqb_neq; lia).
  now rewrite E1, E2, E3, E4.
Qed.

Lemma normalize_cons (c : char) (t : str) :
  normalize (c :: t)
  = if CnIdCard.is_separator c then normalize t else upper_char c :: normalize t.
Proof.
  unfold normalize, remove_char, CnIdCard.is_separator. cbn [filter].
  destruct (c =? ch "-")%N; cbn [negb orb]; [reflexivity|].
  cbn [filter]. destruct (c =? ch " ")%N; reflexivity.
Qed.

Lemma normalize_idem (t : str) : normalize (normalize t) = normalize t.
Proof.
  induction t as [|c t IH]; [reflexivity|].
  rewrite normalize_cons.
  destruct (CnIdCard.is_separator c) eqn:E; [exact IH|].
  rewrite normalize_cons, separator_upper, E, upper_char_idem, IH.
  reflexivity.
Qed.

Lemma validate_normalized (t : str) :
  validate_result t = validate_result (normalize t).
Proof. unfold validate_result. now rewrite normalize_idem. Qed.

Lemma code_normalize_snoc (p : str) (x : char) :
  normalize (p ++ [x])
  = if CnIdCard.is_separator x then normalize p else normalize p ++ [upper_char x].
Proof.
  induction p as [|c p IH].
  - cbn [app]. rewrite normalize_cons.
    now destruct (CnIdCard.is_separator x).
  - cbn [app]. rewrite !normalize_cons, IH.
    destruct (CnIdCard.is_separator c); destruct (CnIdCard.is_separator x);
      reflexivity.
Qed.

Lemma check_char_exists (body : str) :
  exists e, spec_check_char body = Some e /\ valid_char e = true.
Proof.
  unfold spec_check_char.
  set (r := (31 - spec_total body WEIGHTS mod 31) mod 31).
  assert (R : 0 <= r < 31) by (apply Z.mod_pos_bound; lia).
  destruct (nth_error_some_of_lt VALID_CHARS (Z.to_nat r)) as [e He];
    [rewrite valid_chars_length; lia|].
  exists e. split; [exact He|]. apply valid_char_In.
  eapply nth_error_In; exact He.
Qed.

Lemma firstn_17_snoc (body : str) (x : char) :
  List.length body = 17%nat -> firstn 17 (body ++ [x]) = body.
Proof.
  intros H. rewrite firstn_app, H, Nat.sub_diag.
  change (firstn 0 [x]) with (@nil char). rewrite app_nil_r.
  apply firstn_all2. lia.
Qed.

(** Seventeen characters of the alphabet have exactly one check character:
    with it the code is valid, and a code made of the same seventeen
    characters and any other final character (upper case apart) is not. *)
Theorem social_credit_check_char_exists_unique (body : str) :
  List.length body = 17%nat ->
  forallb valid_char body = true ->
  exists e : char,
    spec_check_char body = Some e
    /\ validate_result (body ++ [e]) = true
    /\ forall c : char,
         validate_result (body ++ [c]) = true -> upper_char c = e.
Proof.
  intros Hlen Hv.
  destruct (check_char_exists body) as [e [He Ve]].
  exists e. split; [exact He|].
  assert (Shape : forall x, valid_char x = true ->
                    validate_result (body ++ [x]) = (x =? e)%N).
  { intros x Hx. apply validate_on_valid.
    - rewrite forallb_app, Hv. cbn [forallb]. now rewrite Hx.
    - rewrite length_app, Hlen. reflexivity.
    - rewrite nth_error_app2 by lia. now rewrite Hlen.
    - now rewrite firstn_17_snoc. }
  split; [rewrite (Shape e Ve); apply N.eqb_refl|].
  intros c V. rewrite validate_normalized, code_normalize_snoc in V.
  rewrite (normalize_valid body Hv) in V.
  destruct (CnIdCard.is_separator c) eqn:Sc.
  - rewrite validate_wrong_length in V; [discriminate V|].
    rewrite (normalize_valid body Hv). lia.
  - destruct (valid_char (upper_char c)) eqn:Vc.
    + rewrite (Shape _ Vc) in V. now apply N.eqb_eq in V.
    + rewrite validate_foreign_char in V; [discriminate V|].
      rewrite code_normalize_snoc, separator_upper, Sc, upper_char_idem.
      rewrite (normalize_valid body Hv), forallb_app, Hv.
      cbn [forallb]. now rewrite Vc.
Qed.

Lemma social_credit_check_char_exists_unique_witness :
  List.length (py "91350100M000100Y4") = 17%nat
  /\ forallb valid_char (py "91350100M000100Y4") = true
  /\ validate_result (py "91350100M000100Y43") = true
  /\ exists e : char,
       spec_check_char (py "91350100M000100Y4") = Some e
       /\ validate_result (py "91350100M000100Y4" ++ [e]) = true
       /\ forall c : char,
            validate_result (py "91350100M000100Y4" ++ [c]) = true ->
            upper_char c = e.
Proof.
  split; [reflexivity|]. split; [reflexivity|]. split; [reflexivity|].
  apply social_credit_check_char_exists_unique; reflexivity.
Defined.

Lemma spec_total_split (A : str) (c : char) (R : str) :
  forall (ws : list Z) (w : Z),
    nth_error ws (List.length A) = Some w ->
    spec_total (A ++ c :: R) ws
    = spec_total A ws + char_value c * w
      + spec_total R (skipn (S (List.length A)) ws).
Proof.
  induction A as [|x A IH]; intros [|w0 ws] w H; try discriminate H.
  - cbn in H. injection H as ->. cbn [app spec_total List.length skipn]. lia.
  - cbn [List.length nth_error] in H. cbn [app spec_total List.length].
    rewrite (IH ws w H). cbn [skipn]. lia.
Qed.

Lemma weight_invertible_31 (w x : Z) :
  In w WEIGHTS -> -30 <= x <= 30 -> (x * w) mod 31 = 0 -> x = 0.
Proof.
  intros Hw Hx M. apply Z.mod_divide in M; [|lia]. destruct M as [k M].
  unfold WEIGHTS in Hw. simpl in Hw.
  repeat (destruct Hw as [<-|Hw]; [lia|]). contradiction.
Qed.

Lemma small_multiple_of_31 (x : Z) : x mod 31 = 0 -> -30 <= x <= 30 -> x = 0.
Proof.
  intros M R. apply Z.mod_divide in M; [|lia]. destruct M as [k M]. lia.
Qed.

Lemma valid_chars_injective (i j : nat) (e : char) :
  nth_error VALID_CHARS i = Some e -> nth_error VALID_CHARS j = Some e ->
  i = j.
Proof.
  intros Hi Hj.
  assert (ND : NoDup VALID_CHARS).
  { rewrite valid_chars_value.
    repeat (constructor; [simpl; intuition discriminate|]). constructor. }
  apply (proj1 (NoDup_nth_error VALID_CHARS) ND).
  - apply nth_error_Some. congruence.
  - congruence.
Qed.

Lemma same_check_same_total (x y : Z) (e : char) :
  nth_error VALID_CHARS (Z.to_nat ((31 - x mod 31) mod 31)) = Some e ->
  nth_error VALID_CHARS (Z.to_nat ((31 - y mod 31) mod 31)) = Some e ->
  (y - x) mod 31 = 0.
Proof.
  intros Hx Hy.
  pose proof (valid_chars_injective _ _ _ Hx Hy) as E.
  pose proof (Z.mod_pos_bound x 31 ltac:(lia)) as B.
  pose proof (Z.mod_pos_bound y 31 ltac:(lia)) as B'.
  pose proof (Z.mod_pos_bound (31 - x mod 31) 31 ltac:(lia)) as C.
  pose proof (Z.mod_pos_bound (31 - y mod 31) 31 ltac:(lia)) as C'.
  assert (E2 : (31 - x mod 31) mod 31 = (31 - y mod 31) mod 31) by lia.
  assert (M : (y mod 31 - x mod 31) mod 31 = 0).
  { replace (y mod 31 - x mod 31)
      with ((31 - x mod 31) - (31 - y mod 31)) by lia.
    rewrite Zminus_mod, E2, Z.sub_diag. reflexivity. }
  pose proof (small_multiple_of_31 _ M ltac:(lia)) as E3.
  rewrite Zminus_mod. replace (y mod 31) with (x mod 31) by lia.
  rewrite Z.sub_diag. reflexivity.
Qed.

(** The weighted sum of the seventeen leading characters, as a function of
    the character at one place. *)
Lemma total_at_place (a b : str) :
  (List.length a < 17)%nat ->
  exists (w base : Z),
    In w WEIGHTS
    /\ forall x : char,
         spec_total (firstn 17 (a ++ x :: b)) WEIGHTS
         = base + char_value x * w.
Proof.
  intros Hi.
  destruct (nth_error_some_of_lt WEIGHTS (List.length a)) as [w Hw].
  { change (List.length WEIGHTS) with 17%nat. exact Hi. }
  exists w.
  exists (spec_total a WEIGHTS
          + spec_total (firstn (16 - List.length a) b)
              (skipn (S (List.length a)) WEIGHTS)).
  split; [eapply nth_error_In; exact Hw|].
  intros x. rewrite firstn_app. rewrite (@firstn_all2 _ 17 a) by lia.
  replace (17 - List.length a)%nat with (S (16 - List.length a)) by lia.
  cbn [firstn]. rewrite (spec_total_split a x _ WEIGHTS w Hw). lia.
Qed.

Lemma last_char_kept (a b : str) (x y l : char) :
  (List.length a < 17)%nat ->
  nth_error (a ++ x :: b) 17 = Some l -> nth_error (a ++ y :: b) 17 = Some l.
Proof.
  intros Hi Hl. rewrite nth_error_app2 in Hl |- * by lia.
  replace (17 - List.length a)%nat with (S (16 - List.length a)) in Hl |- *
    by lia.
  exact Hl.
Qed.

Lemma forallb_replace (f : char -> bool) (a b : str) (x y : char) :
  forallb f (a ++ x :: b) = true -> f y = true ->
  f x = true /\ forallb f (a ++ y :: b) = true.
Proof.
  intros H Hy. rewrite forallb_app in H |- *.
  apply andb_true_iff in H as [Ha Hb]. cbn [forallb] in Hb |- *.
  apply andb_true_iff in Hb as [Hx Hb]. now rewrite Ha, Hy, Hb.
Qed.

(** A valid code stops being valid as soon as one of its seventeen leading
    characters is replaced by another character of the alphabet. *)
Theorem social_credit_one_wrong_char (a b : str) (c c' : char) :
  (List.length a < 17)%nat ->
  forallb valid_char (a ++ c :: b) = true ->
  valid_char c' = true ->
  c' <> c ->
  validate_result (a ++ c :: b) = true ->
  validate_result (a ++ c' :: b) = false.
Proof.
  intros Hi Hv Hc' Hne V.
  destruct (forallb_replace valid_char a b c c' Hv Hc') as [Hc Hv'].
  assert (Hlen : List.length (a ++ c :: b) = 18%nat).
  { destruct (Nat.eq_dec (List.length (a ++ c :: b)) 18) as [E|E]; [exact E|].
    rewrite validate_wrong_length in V; [discriminate V|].
    now rewrite (normalize_valid _ Hv). }
  assert (Hlen' : List.length (a ++ c' :: b) = 18%nat)
    by (rewrite length_app in Hlen |- *; exact Hlen).
  destruct (nth_error_some_of_lt (a ++ c :: b) 17) as [l Hl]; [lia|].
  pose proof (last_char_kept a b c c' l Hi Hl) as Hl'.
  destruct (check_char_exists (firstn 17 (a ++ c :: b))) as [e [He _]].
  destruct (check_char_exists (firstn 17 (a ++ c' :: b))) as [e' [He' _]].
  rewrite (validate_on_valid _ l e Hv Hlen Hl He) in V.
  rewrite (validate_on_valid _ l e' Hv' Hlen' Hl' He').
  apply N.eqb_eq in V. subst l.
  destruct (e =? e')%N eqn:Q; [|reflexivity].
  exfalso. apply N.eqb_eq in Q. subst e'.
  pose proof (same_check_same_total _ _ _ He He') as M.
  destruct (total_at_place a b Hi) as (w & base & Hw & T).
  rewrite !T in M.
  replace (base + char_value c' * w - (base + char_value c * w))
    with ((char_value c' - char_value c) * w) in M by lia.
  destruct (char_value_spec c Hc) as (_ & Rc & _).
  destruct (char_value_spec c' Hc') as (_ & Rc' & _).
  apply (weight_invertible_31 w _ Hw) in M; [|lia].
  apply Hne. apply char_value_inj; try assumption. lia.
Qed.

Lemma social_credit_one_wrong_char_witness :
  validate_result (py "91350100" ++ ch "M" :: py "000100Y43") = true
  /\ validate_result (py "91350100" ++ ch "N" :: py "000100Y43") = false.
Proof.
  split; [vm_compute; reflexivity|].
  apply (social_credit_one_wrong_char (py "91350100") (py "000100Y43")
           (ch "M") (ch "N")).
  - apply Nat.ltb_lt. vm_compute. reflexivity.
  - vm_compute. reflexivity.
  - vm_compute. reflexivity.
  - vm_compute. discriminate.
  - vm_compute. reflexivity.
Defined.

End SocialCreditFacts.

(* ================================================================== *)
(** * The context window and the code fence *)
(* ================================================================== *)

Module ContextFacts.
Import LLMVerifier PyFacts.

Lemma slice_in_range (s : str) (a b : Z) :
  0 <= a -> 0 <= b ->
  slice s a b = skipn (Z.to_nat a) (firstn (Z.to_nat b) s).
Proof.
  intros Ha Hb.
  rewrite <- (Z2Nat.id a Ha) at 1. rewrite <- (Z2Nat.id b Hb) at 1.
  apply slice_nat.
Qed.

Lemma slice_length (s : str) (a b : Z) :
  0 <= a <= b -> b <= len s -> len (slice s a b) = b - a.
Proof.
  intros Hab Hb. unfold len in *.
  rewrite slice_in_range by lia.
  rewrite length_skipn, length_firstn. lia.
Qed.

Lemma slice_app (s : str) (a b c : Z) :
  0 <= a <= b -> b <= c -> c <= len s ->
  slice s a b ++ slice s b c = slice s a c.
Proof.
  intros Hab Hbc Hc. unfold len in Hc.
  rewrite !slice_in_range by lia.
  set (x := Z.to_nat a). set (y := Z.to_nat b). set (z := Z.to_nat c).
  assert (Hxy : (x <= y)%nat) by lia. assert (Hyz : (y <= z)%nat) by lia.
  assert (Hz : (z <= List.length s)%nat) by lia.
  assert (F : firstn z s = firstn y s ++ skipn y (firstn z s)).
  { rewrite <- (firstn_skipn y (firstn z s)) at 1.
    rewrite firstn_firstn. now rewrite Nat.min_l by lia. }
  rewrite F at 2. rewrite skipn_app, length_firstn.
  replace (x - Nat.min y (List.length s))%nat with 0%nat by lia.
  reflexivity.
Qed.

(** For a span inside the text and a window that is not negative, the
    context is a contiguous piece of the text with the entity between the
    two marks: at most [context_window] characters are kept on each side,
    and the three dots appear exactly on the sides where text was cut. *)
Theorem extract_context_is_a_marked_window (v : verifier) (text : str)
    (start end_ : Z) :
  0 <= context_window v ->
  0 <= start <= end_ -> end_ <= len text ->
  let context_start := Z.max 0 (start - context_window v) in
  let context_end := Z.min (len text) (end_ + context_window v) in
  exists before after : str,
    extract_context v text start end_
    = (if 0 <? context_start then py "..." else [])
        ++ before ++ py "【" ++ slice text start end_ ++ py "】" ++ after
        ++ (if context_end <? len text then py "..." else [])
    /\ before ++ slice text start end_ ++ after
       = slice text context_start context_end
    /\ len before = start - context_start
    /\ len after = context_end - end_
    /\ len before <= context_window v
    /\ len after <= context_window v
    /\ ((0 <? context_start) = false -> before = slice text 0 start)
    /\ ((context_end <? len text) = false ->
        after = slice text end_ (len text)).
Proof.
  intros Hw Hse He cs ce.
  exists (slice text cs start), (slice text end_ ce).
  assert (Hcs : 0 <= cs <= start) by (unfold cs; lia).
  assert (Hce : end_ <= ce <= len text) by (unfold ce; lia).
  split; [reflexivity|]. split.
  - rewrite (slice_app text start end_ ce) by lia.
    apply slice_app; lia.
  - rewrite !slice_length by lia.
    split; [reflexivity|]. split; [reflexivity|].
    split; [unfold cs; lia|]. split; [unfold ce; lia|]. split.
    + intros H. apply Z.ltb_ge in H. now replace cs with 0 by lia.
    + intros H. apply Z.ltb_ge in H. now replace ce with (len text) by lia.
Qed.

Lemma extract_context_is_a_marked_window_witness :
  let v := mkVerifier 0.5%Q 2 (fun _ _ => Ok []) in
  let text := py "abcdefghij" in
  (0 <= context_window v /\ 0 <= 4 <= 6 /\ 6 <= len text)
  /\ extract_context v text 4 6 = py "...cd【ef】gh..."
  /\ exists before after : str,
       extract_context v text 4 6
       = (if 0 <? Z.max 0 (4 - context_window v) then py "..." else [])
           ++ before ++ py "【" ++ slice text 4 6 ++ py "】" ++ after
           ++ (if Z.min (len text) (6 + context_window v) <? len text
               then py "..." else [])
       /\ len before <= context_window v
       /\ len after <= context_window v.
Proof.
  intros v text.
  assert (H1 : 0 <= context_window v) by (vm_compute; discriminate).
  assert (H2 : 0 <= 4 <= 6) by (split; vm_compute; discriminate).
  assert (H3 : 6 <= len text) by (vm_compute; discriminate).
  split; [repeat split; assumption|]. split; [vm_compute; reflexivity|].
  destruct (extract_context_is_a_marked_window v text 4 6 H1 H2 H3)
    as (b & a & E & _ & _ & _ & Hb & Ha & _).
  exists b, a. repeat split; assumption.
Defined.

End ContextFacts.

(* ================================================================== *)
(** * Code fences around the answer *)
(* ================================================================== *)

Module FenceFacts.
Import LLMVerifier FenceShapes PyFacts LLMVerifierFacts ScoreFacts.

Lemma split_nonempty (s : str) : split 10%N s <> [].
Proof.
  destruct s as [|c s]; cbn [split]; [discriminate|].
  destruct (split 10%N s); [discriminate|].
  destruct (c =? 10)%N; discriminate.
Qed.

Lemma split_line (a : str) :
  no_newline a = true -> split 10%N a = [a].
Proof.
  induction a as [|c a IH]; [reflexivity|].
  unfold no_newline. cbn [forallb]. intros H.
  apply andb_true_iff in H as [Hc Ha].
  cbn [split]. rewrite (IH Ha). apply negb_true_iff in Hc. now rewrite Hc.
Qed.

Lemma split_first_line (a b : str) :
  no_newline a = true -> split 10%N (a ++ 10%N :: b) = a :: split 10%N b.
Proof.
  induction a as [|c a IH]; intros H.
  - cbn [app split]. destruct (split 10%N b) eqn:E.
    + exfalso. exact (split_nonempty b E).
    + reflexivity.
  - unfold no_newline in H. cbn [forallb] in H.
    apply andb_true_iff in H as [Hc Ha].
    cbn [app split]. rewrite (IH Ha). apply negb_true_iff in Hc.
    now rewrite Hc.
Qed.

Lemma split_last_line (body last : str) :
  no_newline last = true ->
  split 10%N (body ++ 10%N :: last) = split 10%N body ++ [last].
Proof.
  intros H. induction body as [|c b IH].
  - cbn [app split]. rewrite (split_line last H). reflexivity.
  - cbn [app split]. rewrite IH.
    destruct (split 10%N b) as [|w ws] eqn:E.
    + exfalso. exact (split_nonempty b E).
    + cbn [app]. now destruct (c =? 10)%N.
Qed.

Lemma join_split (s : str) : join newline (split 10%N s) = s.
Proof.
  induction s as [|c s IH]; [reflexivity|].
  cbn [split]. destruct (split 10%N s) as [|w ws] eqn:E.
  - exfalso. exact (split_nonempty s E).
  - destruct (c =? 10)%N eqn:C.
    + apply N.eqb_eq in C. subst c.
      change (join newline ([] :: w :: ws))
        with (newline ++ join newline (w :: ws)).
      rewrite IH. reflexivity.
    + destruct ws as [|w' ws'].
      * cbn [join] in IH |- *. now rewrite IH.
      * change (join newline ((c :: w) :: w' :: ws'))
          with (c :: (w ++ newline ++ join newline (w' :: ws'))).
        change (join newline (w :: w' :: ws'))
          with (w ++ newline ++ join newline (w' :: ws')) in IH.
        now rewrite IH.
Qed.

Lemma lstrip_solid (c : char) (s : str) :
  is_space c = false -> lstrip (c :: s) = c :: s.
Proof. intros H. cbn [lstrip]. now rewrite H. Qed.

Lemma strip_solid (c d : char) (t : str) :
  is_space c = false -> is_space d = false ->
  strip (c :: t ++ [d]) = c :: t ++ [d].
Proof.
  intros Hc Hd. unfold strip. rewrite lstrip_solid by exact Hc.
  change (c :: t ++ [d]) with ((c :: t) ++ [d]).
  rewrite rev_unit, lstrip_solid by exact Hd.
  rewrite <- rev_unit. apply rev_involutive.
Qed.

Lemma strip_fenced (inner : str) :
  strip (FENCE ++ inner ++ FENCE) = FENCE ++ inner ++ FENCE.
Proof.
  assert (E : FENCE ++ inner ++ FENCE
              = 96%N :: ([96; 96]%N ++ inner ++ [96; 96]%N) ++ [96%N]).
  { change FENCE with [96; 96; 96]%N. cbn [app]. do 3 f_equal.
    rewrite <- app_assoc. reflexivity. }
  rewrite E. apply strip_solid; reflexivity.
Qed.

(** An answer wrapped in a code fence is read as its body: the opening line
    with its language tag and the closing line are dropped, whatever the
    body contains. *)
Theorem unfence_recovers_the_body (lang body : str) :
  no_newline lang = true ->
  unfence (fenced lang body) = body.
Proof.
  intros H. unfold unfence, fenced.
  replace (FENCE ++ lang ++ newline ++ body ++ newline ++ FENCE)
    with (FENCE ++ (lang ++ newline ++ body ++ newline) ++ FENCE)
    by (now rewrite <- !app_assoc).
  rewrite strip_fenced.
  assert (S : startswith FENCE
                (FENCE ++ (lang ++ newline ++ body ++ newline) ++ FENCE) = true)
    by reflexivity.
  rewrite S.
  replace (FENCE ++ (lang ++ newline ++ body ++ newline) ++ FENCE)
    with ((FENCE ++ lang) ++ 10%N :: (body ++ 10%N :: FENCE))
    by (unfold newline; now rewrite <- !app_assoc).
  rewrite split_first_line.
  - rewrite split_last_line by reflexivity.
    unfold drop_first_last. cbn [tl]. rewrite removelast_last.
    apply join_split.
  - unfold no_newline in *. rewrite forallb_app.
    apply andb_true_iff. split; [reflexivity|exact H].
Qed.

Lemma unfence_recovers_the_body_witness :
  no_newline (py "json") = true
  /\ unfence (fenced (py "json") (py "{}")) = py "{}"
  /\ parse_response MiniJson.lib (fenced (py "json") (py "{}"))
     = Ok (PyBool false, 0.5%Q, PyStr []).
Proof.
  split; [reflexivity|]. split.
  - apply unfence_recovers_the_body. reflexivity.
  - vm_compute. reflexivity.
Defined.

Lemma split_length (s : str) :
  List.length (split 10%N s) = S (newline_count s).
Proof.
  unfold newline_count. induction s as [|c s IH]; [reflexivity|].
  cbn [split]. destruct (split 10%N s) as [|w ws] eqn:E.
  - exfalso. exact (split_nonempty s E).
  - destruct (c =? 10)%N eqn:C.
    + apply N.eqb_eq in C. subst c. rewrite count_occ_cons_eq by reflexivity.
      cbn [List.length] in IH |- *. now rewrite IH.
    + apply N.eqb_neq in C. rewrite count_occ_cons_neq by exact C.
      cbn [List.length] in IH |- *. exact IH.
Qed.

Lemma drop_first_last_short {A} (l : list A) :
  (List.length l <= 2)%nat -> drop_first_last l = [].
Proof.
  destruct l as [|x [|y [|z l]]]; cbn; intros H; try reflexivity; lia.
Qed.

(** A fenced answer needs three lines.  When the stripped answer opens with
    a code fence and has at most one line break, nothing is left after the
    first and the last line are dropped: with a JSON reader that rejects
    the empty text, the span is resolved by the parse-failure verdict,
    whatever the answer says. *)
Theorem short_fenced_answer_is_unparsable :
  forall (L : pylib) (v : verifier) (log : list str)
         (text entity_text entity_type : str) (start end_ : Z) (o : Q)
         (response : str),
    let prompt :=
      build_prompt entity_text entity_type (extract_context v text start end_) in
    let vr :=
      fst (verify_single L v log text entity_text entity_type start end_ o) in
    json_loads L [] = None ->
    _call_llm v log prompt = Ok response ->
    startswith FENCE (strip response) = true ->
    (newline_count (strip response) <= 1)%nat ->
    unfence response = []
    /\ is_sensitive vr = PyBool true
    /\ confidence vr = 0.5%Q
    /\ reason vr = PyStr PARSE_FAILURE_REASON
    /\ final_score vr = Qmax o 0.5.
Proof.
  intros L v log text entity_text entity_type start end_ o response prompt vr
         HJ Hc Hf Hn.
  assert (U : unfence response = []).
  { unfold unfence. rewrite Hf.
    rewrite drop_first_last_short; [reflexivity|].
    rewrite split_length. lia. }
  split; [exact U|].
  assert (J : json_loads L (unfence response) = None) by (now rewrite U).
  destruct (conservative_result L v log text entity_text entity_type start
              end_ o (PyStr PARSE_FAILURE_REASON)
              (unparsable_verdict L v log prompt response Hc J))
    as (A & B & C & F & _).
  repeat split; assumption.
Qed.

Lemma short_fenced_answer_is_unparsable_witness :
  let answer :=
    FENCE ++ py "{" ++ quote ++ py "is_sensitive" ++ quote ++ py ": false}"
      ++ FENCE in
  let vr :=
    fst (verify_single MiniJson.lib (Samples.constant_backend (Ok answer)) []
           Samples.sample_text (py "100080") (py "CN_POSTAL_CODE") 7 13 0.3%Q) in
  json_loads MiniJson.lib [] = None
  /\ unfence answer = []
  /\ is_sensitive vr = PyBool true
  /\ final_score vr = Qmax 0.3 0.5.
Proof.
  intros answer vr. split; [vm_compute; reflexivity|].
  destruct (short_fenced_answer_is_unparsable MiniJson.lib
              (Samples.constant_backend (Ok answer)) [] Samples.sample_text
              (py "100080") (py "CN_POSTAL_CODE") 7 13 0.3%Q answer)
    as (U & A & _ & _ & F).
  - vm_compute. reflexivity.
  - reflexivity.
  - vm_compute. reflexivity.
  - apply Nat.leb_le. vm_compute. reflexivity.
  - repeat split; assumption.
Defined.

(** An answer that decodes to JSON other than an object (a list, a number,
    a string, null) makes [parse_response] raise AttributeError, which its
    own handler does not catch; [verify_single] catches it and resolves the
    span by the call-failure verdict: sensitive, confidence 0.5, kept. *)
Theorem non_object_answer_is_kept :
  forall (L : pylib) (v : verifier) (log : list str)
         (text entity_text entity_type : str) (start end_ : Z) (o : Q)
         (response : str) (x : pyval),
    let prompt :=
      build_prompt entity_text entity_type (extract_context v text start end_) in
    let vr :=
      fst (verify_single L v log text entity_text entity_type start end_ o) in
    _call_llm v log prompt = Ok response ->
    json_loads L (unfence response) = Some x ->
    (forall kv, x <> PyDict kv) ->
    (exists e, parse_response L response = Raise e
               /\ exn_kind e = AttributeError
               /\ reason vr = PyStr (CALL_FAILURE_PREFIX ++ exn_msg e))
    /\ is_sensitive vr = PyBool true
    /\ confidence vr = 0.5%Q
    /\ final_score vr = Qmax o 0.5
    /\ (forall r, collect_entity_results text [(r, Some vr)] <> []).
Proof.
  intros L v log text entity_text entity_type start end_ o response x prompt
         vr Hc Hj Hx.
  set (e := mkExn AttributeError (py "object has no attribute 'get'")).
  assert (P : parse_response L response = Raise e).
  { unfold parse_response. rewrite Hj.
    destruct x; try reflexivity. exfalso. exact (Hx kv eq_refl). }
  assert (V : llm_verdict L v log prompt = call_fallback e).
  { unfold llm_verdict. now rewrite Hc, P. }
  destruct (conservative_result L v log text entity_text entity_type start
              end_ o (PyStr (CALL_FAILURE_PREFIX ++ exn_msg e)) V)
    as (A & B & C & F & _ & K).
  split; [exists e; repeat split; assumption|].
  repeat split; assumption.
Qed.

Lemma non_object_answer_is_kept_witness :
  let vr :=
    fst (verify_single MiniJson.lib
           (Samples.constant_backend (Ok (py "[false, 0.9]"))) []
           Samples.sample_text (py "100080") (py "CN_POSTAL_CODE") 7 13 0.3%Q) in
  json_loads MiniJson.lib (unfence (py "[false, 0.9]"))
  = Some (PyList [PyBool false; PyNum (9 # 10)])
  /\ is_sensitive vr = PyBool true
  /\ final_score vr = Qmax 0.3 0.5.
Proof.
  intros vr. split; [vm_compute; reflexivity|].
  destruct (non_object_answer_is_kept MiniJson.lib
              (Samples.constant_backend (Ok (py "[false, 0.9]"))) []
              Samples.sample_text (py "100080") (py "CN_POSTAL_CODE") 7 13
              0.3%Q (py "[false, 0.9]")
              (PyList [PyBool false; PyNum (9 # 10)]))
    as (_ & A & _ & F & _).
  - reflexivity.
  - vm_compute. reflexivity.
  - intros kv. discriminate.
  - split; assumption.
Defined.

End FenceFacts.

(* ================================================================== *)
(** * Verification followed by collection *)
(* ================================================================== *)

Module PipelineFacts.
Import LLMVerifier Pipeline PyFacts LLMVerifierFacts ScoreFacts.

Lemma py_max_ge_left (a b : Q) : (a <= py_max a b)%Q.
Proof.
  unfold py_max. destruct (Qltb a b) eqn:E.
  - apply Qltb_lt in E. now apply Qlt_le_weak.
  - apply Qle_refl.
Qed.

Lemma kept_score_not_lowered (L : pylib) (v : verifier) (log : list str)
    (text entity_text entity_type : str) (start end_ : Z) (o : Q) :
  let vr := fst (verify_single L v log text entity_text entity_type start end_ o) in
  truthy (is_sensitive vr) = true -> (o <= final_score vr)%Q.
Proof.
  intros vr.
  destruct (llm_verdict L v log
              (build_prompt entity_text entity_type
                 (extract_context v text start end_))) as [[sv c] rs] eqn:E.
  pose proof (verify_single_fields L v log text entity_text entity_type
                start end_ o sv c rs E) as HF.
  cbv zeta in HF. fold vr in HF. destruct HF as (A & _ & _ & _ & F).
  rewrite A, F. intros T. rewrite T. apply py_max_ge_left.
Qed.

Lemma collect_from_paired (L : pylib) (v : verifier) (text : str)
    (results : list RecognizerResult)
    (ver : list (RecognizerResult * option VerificationResult)) :
  Forall2 (paired L v text) results ver ->
  (forall er, In er (collect_entity_results text ver) ->
     exists r, In r results
       /\ er_entity_type er = r_entity_type r
       /\ er_start er = r_start r /\ er_end er = r_end r
       /\ er_text er = slice text (r_start r) (r_end r)
       /\ (r_score r <= er_score er)%Q
       /\ er_verified er = needs_verification v r)
  /\ (forall r, In r results -> needs_verification v r = false ->
        In (passed_through text r) (collect_entity_results text ver)).
Proof.
  induction 1 as [|r p results ver HP _ IH].
  - split; intros ? [].
  - unfold paired in HP. destruct HP as [Hfst Hsnd]. destruct IH as [IH1 IH2].
    destruct p as [r' o']. cbn [fst snd] in Hfst, Hsnd. subst r'.
    cbn [collect_entity_results].
    destruct (needs_verification v r) eqn:N.
    + destruct Hsnd as [log0 ->].
      set (vr := fst (verify_single L v log0 text
                        (slice text (r_start r) (r_end r)) (r_entity_type r)
                        (r_start r) (r_end r) (r_score r))).
      pose proof (kept_score_not_lowered L v log0 text
                    (slice text (r_start r) (r_end r)) (r_entity_type r)
                    (r_start r) (r_end r) (r_score r)) as K.
      cbv zeta in K. fold vr in K.
      destruct (truthy (is_sensitive vr)) eqn:T.
      * split.
        -- intros er [<-|Hin].
           ++ exists r. cbn. rewrite N.
              repeat split; try reflexivity; [now left|now apply K].
           ++ destruct (IH1 er Hin) as [r0 [Hr0 Rest]].
              exists r0. split; [now right|exact Rest].
        -- intros r0 [<-|Hin] N0; [congruence|].
           right. now apply IH2.
      * split.
        -- intros er Hin. destruct (IH1 er Hin) as [r0 [Hr0 Rest]].
           exists r0. split; [now right|exact Rest].
        -- intros r0 [<-|Hin] N0; [congruence|]. now apply IH2.
    + subst o'. split.
      * intros er [<-|Hin].
        -- exists r. cbn. rewrite N.
           repeat split; try reflexivity; [now left|apply Qle_refl].
        -- destruct (IH1 er Hin) as [r0 [Hr0 Rest]].
           exists r0. split; [now right|exact Rest].
      * intros r0 [<-|Hin] N0; [now left|]. right. now apply IH2.
Qed.

(** When the reasons of the sensitive verdicts are strings or null, so that
    every entity can be built, verification never invents a span and never
    lowers the score of a span it keeps: every entity returned comes from a
    recognizer result with the same type and offsets and a score at least
    as large, and is marked verified exactly when that result was below the
    threshold.  A result at or above the threshold is always returned as it
    is; and when no result is below the threshold, the backend is not
    called at all. *)
Theorem verification_never_lowers_kept_scores :
  forall (L : pylib) (v : verifier) (text : str)
         (results : list RecognizerResult) (log : list str),
    let out := verify_and_collect L v text results log in
    reasons_are_text (fst (verify_results L v text results log)) ->
    (forall er, In er out ->
       exists r, In r results
         /\ er_entity_type er = r_entity_type r
         /\ er_start er = r_start r /\ er_end er = r_end r
         /\ er_text er = slice text (r_start r) (r_end r)
         /\ (r_score r <= er_score er)%Q
         /\ (er_verified er = true <-> (r_score r < score_threshold v)%Q))
    /\ (forall r, In r results -> (score_threshold v <= r_score r)%Q ->
          In (passed_through text r) out)
    /\ (Forall (fun r => (score_threshold v <= r_score r)%Q) results ->
        snd (verify_results L v text results log) = log
        /\ out = map (passed_through text) results).
Proof.
  intros L v text results log out _.
  destruct (verify_loop_shape L v text results log) as [HS HL].
  destruct (collect_from_paired L v text results _ HS) as [C1 C2].
  split; [|split].
  - intros er Hin. destruct (C1 er Hin) as (r & Hr & A & B & C & D & E & F).
    exists r. repeat split; try assumption.
    + intros V. rewrite V in F. symmetry in F. now apply Qltb_lt in F.
    + intros Hlt. rewrite F. now apply Qltb_lt.
  - intros r Hr Hge. apply C2; [exact Hr|]. now apply Qltb_ge.
  - intros Hall.
    assert (Fl : filter (needs_verification v) results = []).
    { clear - Hall. induction Hall as [|r rs Hr _ IH]; [reflexivity|].
      cbn [filter]. unfold needs_verification at 1.
      now rewrite (proj2 (Qltb_ge _ _) Hr). }
    split.
    + unfold verify_results. rewrite HL, Fl. apply app_nil_r.
    + unfold out, verify_and_collect, verify_results.
      clear - Hall HS. induction HS as [|r p rs ver HP _ IH];
        [reflexivity|].
      unfold paired in HP. destruct HP as [Hfst Hsnd].
      inversion_clear Hall as [|? ? Hr Hrs].
      unfold needs_verification in Hsnd.
      rewrite (proj2 (Qltb_ge _ _) Hr) in Hsnd.
      destruct p as [r' o']. cbn [fst snd] in Hfst, Hsnd. subst r' o'.
      cbn [collect_entity_results map]. f_equal. exact (IH Hrs).
Qed.

Lemma verification_never_lowers_kept_scores_witness :
  let v := MockLLMVerifier MiniJson.lib 0.5 30 true (4 # 5) in
  let results := [Samples.postal_result; Samples.phone_result] in
  let out := verify_and_collect MiniJson.lib v Samples.sample_text results [] in
  reasons_are_text
    (fst (verify_results MiniJson.lib v Samples.sample_text results []))
  /\ In (passed_through Samples.sample_text Samples.phone_result) out
  /\ (forall er, In er out ->
        exists r, In r results /\ (r_score r <= er_score er)%Q)
  /\ map er_score out = [4 # 5; 1]%Q.
Proof.
  intros v results out.
  assert (H : reasons_are_text
                (fst (verify_results MiniJson.lib v Samples.sample_text
                        results []))).
  { vm_compute. constructor; [intros _; right; eexists; reflexivity|].
    constructor; [exact I|constructor]. }
  destruct (verification_never_lowers_kept_scores MiniJson.lib v
              Samples.sample_text results [] H) as (A & B & _).
  split; [exact H|]. split; [|split].
  - apply B; [right; now left|vm_compute; discriminate].
  - intros er Hin. destruct (A er Hin) as (r & Hr & _ & _ & _ & _ & Hs & _).
    exists r. split; assumption.
  - vm_compute. reflexivity.
Defined.

End PipelineFacts.

(* ================================================================== *)
(** * Further facts about masking *)
(* ================================================================== *)

Module MaskingMoreFacts.
Import Masking MaskingShapes MaskingFacts PyFacts.

Lemma insert_by_start_cons (r x : span) (l : list span) :
  insert_by_start r (x :: l)
  = if start r <=? start x then r :: x :: l else x :: insert_by_start r l.
Proof. reflexivity. Qed.

Lemma insert_by_start_comm (x y : span) (l : list span) :
  start x <> start y ->
  insert_by_start x (insert_by_start y l)
  = insert_by_start y (insert_by_start x l).
Proof.
  intros Hne. induction l as [|z l IH].
  - cbn [insert_by_start].
    destruct (Z.leb_spec (start x) (start y));
      destruct (Z.leb_spec (start y) (start x)); try reflexivity; lia.
  - rewrite (insert_by_start_cons y z l), (insert_by_start_cons x z l).
    destruct (Z.leb_spec (start y) (start z)) as [Y|Y];
      destruct (Z.leb_spec (start x) (start z)) as [X|X];
      rewrite !insert_by_start_cons;
      repeat match goal with
             | |- context [?a <=? ?b] => destruct (Z.leb_spec a b)
             end;
      try reflexivity; try lia.
    now rewrite IH.
Qed.

Lemma sorted_by_start_perm_eq (l l' : list span) :
  Permutation l l' -> NoDup (map start l) ->
  sorted_by_start l = sorted_by_start l'.
Proof.
  induction 1 as [|x l l' HP IH|x y l|l l' l'' HP1 IH1 HP2 IH2]; intros ND.
  - reflexivity.
  - cbn [sorted_by_start fold_right]. fold (sorted_by_start l).
    fold (sorted_by_start l'). rewrite IH; [reflexivity|].
    cbn [map] in ND. now inversion ND.
  - cbn [sorted_by_start fold_right]. fold (sorted_by_start l).
    apply insert_by_start_comm.
    cbn [map] in ND. inversion ND as [|? ? Hin _]. subst.
    intros E. apply Hin. left. now symmetry.
  - rewrite IH1 by exact ND. apply IH2.
    eapply Permutation_NoDup; [|exact ND]. now apply Permutation_map.
Qed.

(** The masked text does not depend on the order in which the results are
    handed over, as long as no two results start at the same offset. *)
Theorem masking_ignores_result_order (text : str) (results results' : list span) :
  Permutation results results' ->
  NoDup (map start results) ->
  _apply_masks_to_text text results = _apply_masks_to_text text results'.
Proof.
  intros HP ND. unfold _apply_masks_to_text.
  destruct results as [|r rs].
  - apply Permutation_nil in HP. now subst.
  - destruct results' as [|r' rs'].
    + apply Permutation_sym, Permutation_nil in HP. discriminate HP.
    + now rewrite (sorted_by_start_perm_eq _ _ HP ND).
Qed.

Lemma masking_ignores_result_order_witness :
  let text := py "13812345678 and 4532015112830366." in
  let a := mkSpan (py "CN_PHONE") 0 11 in
  let b := mkSpan (py "CN_BANK_CARD") 16 32 in
  let c := mkSpan (py "PERSON") 8 15 in
  _apply_masks_to_text text [a; b; c] = _apply_masks_to_text text [c; b; a].
Proof.
  intros text a b c. apply masking_ignores_result_order.
  - apply perm_trans with [b; c; a].
    + apply perm_trans with [b; a; c]; [apply perm_swap|].
      apply perm_skip, perm_swap.
    + apply perm_swap.
  - repeat constructor; simpl; intuition discriminate.
Defined.

Lemma spec_retained_chain (rs : list span) :
  forall p, LocallySorted follows (p :: rs) -> spec_retained rs (Some p) = rs.
Proof.
  induction rs as [|r rs IH]; intros p H; [reflexivity|].
  inversion H as [| |? ? ? Hs Hf]; subst. cbn [spec_retained].
  unfold follows in Hf. rewrite (proj2 (Z.leb_le _ _) Hf).
  now rewrite IH.
Qed.

(** Spans that lie one after another, none starting before the end of the
    one before it, are all masked: none is skipped. *)
Theorem disjoint_spans_are_all_masked (text : str) (results : list span) :
  Forall (fun r => 0 <= start r) results ->
  LocallySorted follows (sorted_by_start results) ->
  _apply_masks_to_text text results
  = render text (sorted_by_start results) 0.
Proof.
  intros Hpos Hch. unfold _apply_masks_to_text.
  destruct results as [|r0 rest]; [cbn; symmetry; apply slice_from_0|].
  set (rs := sorted_by_start (r0 :: rest)) in *.
  assert (Hs : Forall (fun r => 0 <= start r) rs)
    by (eapply Permutation_Forall; [apply sorted_by_start_perm|exact Hpos]).
  pose proof (apply_masks_render text rs) as HR.
  destruct (mask_loop text rs 0 []) as [parts last_end].
  cbn [fst snd] in HR. rewrite HR.
  - destruct rs as [|r rs']; [reflexivity|].
    cbn [spec_retained]. now rewrite (spec_retained_chain rs' r Hch).
  - destruct rs as [|r rs']; [exact I|]. now inversion Hs.
Qed.

Lemma disjoint_spans_are_all_masked_witness :
  let text := py "13812345678 and 4532015112830366." in
  let results :=
    [mkSpan (py "CN_BANK_CARD") 16 32; mkSpan (py "CN_PHONE") 0 11] in
  _apply_masks_to_text text results
  = render text (sorted_by_start results) 0.
Proof.
  intros text results. apply disjoint_spans_are_all_masked.
  - repeat constructor; discriminate.
  - vm_compute. repeat constructor. unfold follows. vm_compute. discriminate.
Defined.

Lemma slice_to_nonneg (s : str) (z : Z) :
  0 <= z -> slice_to s z = firstn (Z.to_nat z) s.
Proof.
  intros H. rewrite <- (Z2Nat.id z H) at 1. apply slice_to_firstn.
Qed.

Lemma slice_from_nonneg (s : str) (z : Z) :
  0 <= z -> slice_from s z = skipn (Z.to_nat z) s.
Proof.
  intros H. rewrite <- (Z2Nat.id z H) at 1. apply slice_from_skipn.
Qed.

Lemma id_card_mask_general (value : str) :
  value <> [] ->
  List.length value <> 18%nat -> List.length value <> 15%nat ->
  _mask_value (py "CN_ID_CARD") value
  = firstn 4 value ++ stars (Z.max 0 (len value - 8))
      ++ skipn (Z.to_nat (Z.max 4 (len value - 4))) value.
Proof.
  intros Hne H18 H15. unfold _mask_value.
  destruct value as [|c value']; [congruence|].
  change (is_type (py "CN_ID_CARD") "CN_PHONE") with false.
  change (is_type (py "CN_ID_CARD") "CN_ID_CARD") with true. cbv iota.
  set (value := c :: value') in *.
  destruct (len value =? 18) eqn:E1;
    [apply Z.eqb_eq in E1; unfold len in E1; lia|].
  destruct (len value =? 15) eqn:E2;
    [apply Z.eqb_eq in E2; unfold len in E2; lia|].
  change 4 with (Z.of_nat 4) at 1. rewrite slice_to_firstn.
  rewrite slice_from_nonneg by lia. reflexivity.
Qed.

(** The ID-card mask always has the length of the value, and a value of
    eight characters or fewer is returned as it is, nothing hidden: the
    rule keeps the first four and the last four characters. *)
Theorem id_card_mask_length_and_short_values (value : str) :
  List.length (_mask_value (py "CN_ID_CARD") value) = List.length value
  /\ ((List.length value <= 8)%nat ->
      _mask_value (py "CN_ID_CARD") value = value).
Proof.
  destruct value as [|c value']; [split; reflexivity|].
  set (value := c :: value').
  assert (Hne : value <> []) by discriminate.
  destruct (Nat.eq_dec (List.length value) 18) as [E18|N18].
  { split; [|lia]. unfold _mask_value. unfold value at 1.
    change (is_type (py "CN_ID_CARD") "CN_PHONE") with false.
    change (is_type (py "CN_ID_CARD") "CN_ID_CARD") with true. cbv iota.
    fold value. unfold len. rewrite E18.
    cbn [Z.of_nat Pos.of_succ_nat Pos.succ Z.eqb Pos.eqb].
    change 4 with (Z.of_nat 4). change 14 with (Z.of_nat 14).
    rewrite slice_to_firstn, slice_from_skipn.
    rewrite !length_app, length_firstn, length_skipn, E18. reflexivity. }
  destruct (Nat.eq_dec (List.length value) 15) as [E15|N15].
  { split; [|lia]. unfold _mask_value. unfold value at 1.
    change (is_type (py "CN_ID_CARD") "CN_PHONE") with false.
    change (is_type (py "CN_ID_CARD") "CN_ID_CARD") with true. cbv iota.
    fold value. unfold len. rewrite E15.
    cbn [Z.of_nat Pos.of_succ_nat Pos.succ Z.eqb Pos.eqb].
    change 4 with (Z.of_nat 4). change 11 with (Z.of_nat 11).
    rewrite slice_to_firstn, slice_from_skipn.
    rewrite !length_app, length_firstn, length_skipn, E15. reflexivity. }
  rewrite (id_card_mask_general value Hne N18 N15). split.
  - rewrite !length_app, length_firstn, length_skipn.
    unfold stars, repeat_char. rewrite repeat_length. unfold len. lia.
  - intros H8. unfold len.
    replace (Z.max 0 (Z.of_nat (List.length value) - 8)) with 0 by lia.
    replace (Z.to_nat (Z.max 4 (Z.of_nat (List.length value) - 4)))
      with 4%nat by lia.
    cbn [stars repeat_char Z.to_nat repeat app]. apply firstn_skipn.
Qed.

Lemma id_card_mask_length_and_short_values_witness :
  (List.length (py "3301061") <= 8)%nat
  /\ _mask_value (py "CN_ID_CARD") (py "3301061") = py "3301061".
Proof.
  split; [vm_compute; lia|].
  apply (proj2 (id_card_mask_length_and_short_values (py "3301061"))).
  vm_compute. lia.
Defined.

Lemma not_named (t : str) :
  str_in t named_types = false ->
  forall name, In name ["CN_PHONE"; "CN_ID_CARD"; "CN_BANK_CARD"; "CN_EMAIL";
                        "PERSON"; "CN_PASSPORT"; "CN_DRIVER_LICENSE";
                        "CN_MILITARY_ID"; "CN_VEHICLE_PLATE"; "LOCATION"]%string ->
               is_type t name = false.
Proof.
  unfold str_in, named_types. intros H name Hin.
  destruct (is_type t name) eqn:E; [|reflexivity].
  assert (X : existsb (str_eqb t)
                (map py ["CN_PHONE"; "CN_ID_CARD"; "CN_BANK_CARD"; "CN_EMAIL";
                         "PERSON"; "CN_PASSPORT"; "CN_DRIVER_LICENSE";
                         "CN_MILITARY_ID"; "CN_VEHICLE_PLATE"; "LOCATION"]%string)
              = true).
  { apply existsb_exists. exists (py name). split; [|exact E].
    apply in_map. exact Hin. }
  congruence.
Qed.

(** For every entity type without a rule of its own, the mask hides the
    whole value: it is a run of bullets of the same length. *)
Theorem unnamed_types_are_fully_hidden (entity_type value : str) :
  str_in entity_type named_types = false ->
  _mask_value entity_type value = repeat BULLET (List.length value).
Proof.
  intros H. pose proof (not_named entity_type H) as N.
  unfold _mask_value. destruct value as [|c value']; [reflexivity|].
  rewrite !N by (simpl; tauto). cbn [orb].
  unfold repeat_char, len. now rewrite Nat2Z.id.
Qed.

Lemma unnamed_types_are_fully_hidden_witness :
  str_in (py "CN_CLOUD_KEY") named_types = false
  /\ _mask_value (py "CN_CLOUD_KEY") (py "AKIDexample")
     = repeat BULLET 11.
Proof.
  split; [reflexivity|].
  apply (unnamed_types_are_fully_hidden (py "CN_CLOUD_KEY") (py "AKIDexample")).
  reflexivity.
Defined.

End MaskingMoreFacts.

(* ================================================================== *)
(** * The false-positive filter *)
(* ================================================================== *)

Module ResultFilterFacts.
Import LLMVerifier ResultFilter PyFacts.

Lemma filter_step (r : RecognizerResult) (rest : list RecognizerResult)
    (text : str) :
  filter_false_positives (r :: rest) text
  = if (str_eqb (r_entity_type r) (py "PERSON")
        && person_false_positive (slice text (r_start r) (r_end r)))
       || str_eqb (r_entity_type r) (py "DATE_TIME")
    then filter_false_positives rest text
    else r :: filter_false_positives rest text.
Proof.
  cbn [filter_false_positives].
  destruct (str_eqb (r_entity_type r) (py "PERSON")
            && person_false_positive (slice text (r_start r) (r_end r)));
    [reflexivity|].
  now destruct (str_eqb (r_entity_type r) (py "DATE_TIME")).
Qed.

(** The filter only removes results: it keeps the order, removes every
    DATE_TIME result and every PERSON result of at most one character,
    keeps every result of any other type, and filtering twice changes
    nothing more. *)
Theorem false_positive_filter_behaviour :
  forall (results : list RecognizerResult) (text : str),
    let out := filter_false_positives results text in
    (forall r, In r out ->
       In r results /\ r_entity_type r <> py "DATE_TIME"
       /\ (r_entity_type r = py "PERSON" ->
           1 < len (slice text (r_start r) (r_end r))))
    /\ (forall r, In r results ->
          r_entity_type r <> py "PERSON" ->
          r_entity_type r <> py "DATE_TIME" -> In r out)
    /\ filter_false_positives out text = out
    /\ (List.length out <= List.length results)%nat.
Proof.
  intros results text out. unfold out. clear out.
  induction results as [|r rest IH].
  - cbn [filter_false_positives].
    split; [intros ? []|]. split; [intros ? []|]. split; [reflexivity|].
    apply Nat.le_refl.
  - destruct IH as (IH1 & IH2 & IH3 & IH4). rewrite filter_step.
    destruct (str_eqb (r_entity_type r) (py "PERSON")
              && person_false_positive (slice text (r_start r) (r_end r)))
      eqn:P; cbn [orb].
    + apply andb_true_iff in P as [P1 P2]. apply str_eqb_eq in P1.
      split; [|split; [|split]].
      * intros r0 Hin. destruct (IH1 r0 Hin) as (A & B). split; [now right|exact B].
      * intros r0 [<-|Hin] NP ND; [congruence|]. now apply IH2.
      * exact IH3.
      * cbn [List.length]. lia.
    + destruct (str_eqb (r_entity_type r) (py "DATE_TIME")) eqn:D.
      * apply str_eqb_eq in D. split; [|split; [|split]].
        -- intros r0 Hin. destruct (IH1 r0 Hin) as (A & B).
           split; [now right|exact B].
        -- intros r0 [<-|Hin] NP ND; [congruence|]. now apply IH2.
        -- exact IH3.
        -- cbn [List.length]. lia.
      * split; [|split; [|split]].
        -- intros r0 [<-|Hin].
           ++ split; [now left|]. split.
              ** intros E. rewrite E in D. now rewrite str_eqb_refl in D.
              ** intros E. rewrite E, str_eqb_refl in P. cbn [andb] in P.
                 unfold person_false_positive in P.
                 destruct (len (slice text (r_start r) (r_end r)) <=? 1) eqn:L;
                   [discriminate P|]. now apply Z.leb_gt in L.
           ++ destruct (IH1 r0 Hin) as (A & B). split; [now right|exact B].
        -- intros r0 [<-|Hin] NP ND; [now left|]. right. now apply IH2.
        -- rewrite filter_step, P, D. cbn [orb]. now rewrite IH3.
        -- cbn [List.length]. lia.
Qed.

(** [anonymize_text_segment] returns the text as it is when it is empty,
    and when every analysed result is below the threshold or a DATE_TIME
    result. *)
Theorem nothing_to_mask_leaves_text_unchanged :
  forall (text : str) (analyzed : list RecognizerResult) (threshold : Q),
    Forall (fun r => (r_score r < threshold)%Q
                     \/ r_entity_type r = py "DATE_TIME") analyzed ->
    anonymize_text_segment text analyzed threshold = text.
Proof.
  intros text analyzed threshold H. unfold anonymize_text_segment.
  destruct text as [|c text']; [reflexivity|].
  set (text := c :: text').
  assert (E : filter_false_positives
                (filter (fun r => Qle_bool threshold (r_score r)) analyzed) text
              = []).
  { induction H as [|r rs Hr _ IH]; [reflexivity|].
    cbn [filter]. destruct (Qle_bool threshold (r_score r)) eqn:Q; [|exact IH].
    destruct Hr as [Hlt|Hdt].
    - apply Qle_bool_iff in Q. exfalso. exact (Qlt_not_le _ _ Hlt Q).
    - rewrite filter_step, Hdt, str_eqb_refl, orb_true_r. exact IH. }
  rewrite E. reflexivity.
Qed.

Lemma nothing_to_mask_leaves_text_unchanged_witness :
  Forall (fun r => (r_score r < 0.5)%Q \/ r_entity_type r = py "DATE_TIME")
    [Samples.postal_result;
     mkRecognizerResult (py "DATE_TIME") 0 2 1%Q]
  /\ anonymize_text_segment Samples.sample_text
       [Samples.postal_result; mkRecognizerResult (py "DATE_TIME") 0 2 1%Q]
       0.5%Q
     = Samples.sample_text.
Proof.
  assert (H : Forall (fun r => (r_score r < 0.5)%Q
                               \/ r_entity_type r = py "DATE_TIME")
                [Samples.postal_result;
                 mkRecognizerResult (py "DATE_TIME") 0 2 1%Q]).
  { constructor; [left; reflexivity|].
    constructor; [right; reflexivity|constructor]. }
  split; [exact H|].
  apply nothing_to_mask_leaves_text_unchanged. exact H.
Defined.

End ResultFilterFacts.

(* ================================================================== *)
(** * Report statistics and risk summaries *)
(* ================================================================== *)

Module ReportSummaryFacts.
Import Report ReportSummaries PyFacts.

Lemma str_eqb_false (a b : str) : str_eqb a b = false <-> a <> b.
Proof.
  split.
  - intros H E. rewrite E, str_eqb_refl in H. discriminate H.
  - intros H. destruct (str_eqb a b) eqn:E; [|reflexivity].
    apply str_eqb_eq in E. contradiction.
Qed.

Lemma str_eqb_comm (a b : str) : str_eqb a b = str_eqb b a.
Proof.
  destruct (str_eqb a b) eqn:E.
  - apply str_eqb_eq in E. subst b. symmetry. apply str_eqb_refl.
  - symmetry. apply str_eqb_false. apply str_eqb_false in E. congruence.
Qed.

Lemma str_in_In (s : str) (l : list str) : str_in s l = true <-> In s l.
Proof.
  unfold str_in. rewrite existsb_exists. split.
  - intros (x & Hin & E). apply str_eqb_eq in E. now subst x.
  - intros Hin. exists s. split; [exact Hin|apply str_eqb_refl].
Qed.

Lemma str_in_false (s : str) (l : list str) : str_in s l = false <-> ~ In s l.
Proof.
  rewrite <- str_in_In. destruct (str_in s l); split; congruence.
Qed.

Section Dicts.
Context {A : Type}.
Implicit Types (kv : list (str * A)) (k : str) (v d : A).

Lemma dict_get_set kv k k' v d :
  dict_get (dict_set kv k v) k' d
  = if str_eqb k k' then v else dict_get kv k' d.
Proof.
  induction kv as [|[k0 v0] r IH]; cbn [dict_set dict_get].
  - reflexivity.
  - destruct (str_eqb k0 k) eqn:E; cbn [dict_get].
    + apply str_eqb_eq in E. subst k0. destruct (str_eqb k k'); reflexivity.
    + destruct (str_eqb k0 k') eqn:E'.
      * apply str_eqb_eq in E'. subst k0. rewrite str_eqb_comm, E. reflexivity.
      * exact IH.
Qed.

Lemma dict_mem_In kv k : dict_mem kv k = true <-> In k (map fst kv).
Proof.
  induction kv as [|[k0 v0] r IH]; cbn [dict_mem map fst In].
  - split; [discriminate|intros []].
  - rewrite orb_true_iff, IH, str_eqb_eq. reflexivity.
Qed.

Lemma dict_mem_false kv k : dict_mem kv k = false <-> ~ In k (map fst kv).
Proof.
  rewrite <- dict_mem_In. destruct (dict_mem kv k); split; congruence.
Qed.

Lemma keys_dict_set kv k v :
  map fst (dict_set kv k v)
  = if dict_mem kv k then map fst kv else map fst kv ++ [k].
Proof.
  induction kv as [|[k0 v0] r IH]; cbn [dict_set dict_mem map fst app].
  - reflexivity.
  - destruct (str_eqb k0 k) eqn:E; cbn [orb map fst].
    + reflexivity.
    + rewrite IH. destruct (dict_mem r k); reflexivity.
Qed.

Lemma dict_index_set_same kv k v : dict_index (dict_set kv k v) k = Some v.
Proof.
  induction kv as [|[k0 v0] r IH]; cbn [dict_set dict_index].
  - now rewrite str_eqb_refl.
  - destruct (str_eqb k0 k) eqn:E; cbn [dict_index]; rewrite E;
      [reflexivity|exact IH].
Qed.

Lemma dict_set_set kv k v v' :
  dict_set (dict_set kv k v) k v' = dict_set kv k v'.
Proof.
  induction kv as [|[k0 v0] r IH]; cbn [dict_set].
  - now rewrite str_eqb_refl.
  - destruct (str_eqb k0 k) eqn:E; cbn [dict_set]; rewrite E;
      [reflexivity|now rewrite IH].
Qed.

Lemma dict_set_same kv k v : dict_index kv k = Some v -> dict_set kv k v = kv.
Proof.
  induction kv as [|[k0 v0] r IH]; cbn [dict_set dict_index].
  - discriminate.
  - destruct (str_eqb k0 k) eqn:E.
    + intros [= ->]. reflexivity.
    + intros H. now rewrite IH.
Qed.

Lemma dict_index_get kv k v d : dict_index kv k = Some v -> dict_get kv k d = v.
Proof.
  induction kv as [|[k0 v0] r IH]; cbn [dict_get dict_index].
  - discriminate.
  - destruct (str_eqb k0 k); [intros [= ->]; reflexivity|exact IH].
Qed.

Lemma dict_mem_index kv k : dict_mem kv k = true -> exists v, dict_index kv k = Some v.
Proof.
  induction kv as [|[k0 v0] r IH]; cbn [dict_mem dict_index].
  - discriminate.
  - destruct (str_eqb k0 k); cbn [orb]; [now exists v0|exact IH].
Qed.

Lemma dict_mem_false_get kv k d : dict_mem kv k = false -> dict_get kv k d = d.
Proof.
  induction kv as [|[k0 v0] r IH]; cbn [dict_mem dict_get].
  - reflexivity.
  - destruct (str_eqb k0 k); cbn [orb]; [discriminate|exact IH].
Qed.

End Dicts.

Lemma dict_mem_same_keys {A B} (kv : list (str * A)) (kv' : list (str * B))
    (k : str) :
  map fst kv = map fst kv' -> dict_mem kv k = dict_mem kv' k.
Proof.
  intros E. destruct (dict_mem kv' k) eqn:M.
  - apply dict_mem_In. rewrite E. now apply dict_mem_In.
  - apply dict_mem_false. rewrite E. now apply dict_mem_false.
Qed.

(** ** Counters *)

Lemma occurrences_cons (t k : str) (l : list str) :
  occurrences t (k :: l) = (if str_eqb t k then 1 else 0) + occurrences t l.
Proof.
  unfold occurrences. cbn [filter]. destruct (str_eqb t k).
  - cbn [List.length]. lia.
  - lia.
Qed.

Lemma occurrences_nonneg (t : str) (l : list str) : 0 <= occurrences t l.
Proof. unfold occurrences. lia. Qed.

Lemma occurrences_pos (t : str) (l : list str) :
  In t l -> 0 < occurrences t l.
Proof.
  induction l as [|k l IH]; [intros []|]. rewrite occurrences_cons.
  pose proof (occurrences_nonneg t l).
  intros [->|Hin].
  - rewrite str_eqb_refl. lia.
  - specialize (IH Hin). destruct (str_eqb t k); lia.
Qed.

Lemma counter_fold_get (l : list str) (c : list (str * Z)) (t : str) :
  dict_get (fold_left counter_incr l c) t 0 = dict_get c t 0 + occurrences t l.
Proof.
  revert c. induction l as [|k l IH]; intros c; cbn [fold_left].
  - unfold occurrences. cbn. lia.
  - rewrite IH, occurrences_cons. unfold counter_incr. rewrite dict_get_set.
    rewrite (str_eqb_comm t k). destruct (str_eqb k t) eqn:E; [|lia].
    apply str_eqb_eq in E. subst k. lia.
Qed.

Lemma counter_fold_keys (l : list str) (c : list (str * Z)) (t : str) :
  In t (map fst (fold_left counter_incr l c)) <-> In t (map fst c) \/ In t l.
Proof.
  revert c. induction l as [|k l IH]; intros c; cbn [fold_left In].
  - tauto.
  - rewrite IH. unfold counter_incr. rewrite keys_dict_set.
    destruct (dict_mem c k) eqn:M.
    + apply dict_mem_In in M. split; [tauto|].
      intros [H|[<-|H]]; tauto.
    + rewrite in_app_iff. cbn [In]. tauto.
Qed.

Lemma counter_fold_nodup (l : list str) (c : list (str * Z)) :
  NoDup (map fst c) -> NoDup (map fst (fold_left counter_incr l c)).
Proof.
  revert c. induction l as [|k l IH]; intros c H; cbn [fold_left]; [exact H|].
  apply IH. unfold counter_incr. rewrite keys_dict_set.
  destruct (dict_mem c k) eqn:M; [exact H|].
  apply dict_mem_false in M.
  apply NoDup_rev in H. rewrite <- (rev_involutive (map fst c ++ [k])).
  apply NoDup_rev. rewrite rev_app_distr. cbn [rev app].
  constructor; [|exact H]. now rewrite <- in_rev.
Qed.

Lemma dict_set_sum (c : list (str * Z)) (k : str) (v : Z) :
  fold_right Z.add 0 (map snd (dict_set c k v))
  = fold_right Z.add 0 (map snd c) + v - dict_get c k 0.
Proof.
  induction c as [|[k0 v0] r IH]; cbn [dict_set dict_get map snd fold_right].
  - lia.
  - destruct (str_eqb k0 k); cbn [map snd fold_right]; lia.
Qed.

Lemma counter_fold_sum (l : list str) (c : list (str * Z)) :
  fold_right Z.add 0 (map snd (fold_left counter_incr l c))
  = fold_right Z.add 0 (map snd c) + Z.of_nat (List.length l).
Proof.
  revert c. induction l as [|k l IH]; intros c; cbn [fold_left List.length].
  - lia.
  - rewrite IH. unfold counter_incr. rewrite dict_set_sum. lia.
Qed.

Lemma count_entity_types_fold (es : list EntityInfo) (c : list (str * Z)) :
  count_entity_types es c = fold_left counter_incr (map entity_type es) c.
Proof.
  revert c. induction es as [|e r IH]; intros c; [reflexivity|].
  cbn [count_entity_types map fold_left]. apply IH.
Qed.

Lemma stats_loop_spec (frs : list FileResult) (t : tally) :
  entity_types (stats_loop frs t)
  = fold_left counter_incr (entity_types_of frs) (entity_types t)
  /\ file_types (stats_loop frs t)
     = fold_left counter_incr (map file_type frs) (file_types t)
  /\ tally_entities (stats_loop frs t)
     = tally_entities t + Z.of_nat (List.length (all_entities frs)).
Proof.
  revert t. induction frs as [|fr r IH]; intros t.
  - cbn [stats_loop]. unfold entity_types_of, all_entities. cbn.
    repeat split; lia.
  - cbn [stats_loop]. destruct (IH
      (mkTally (count_entity_types (entities fr) (entity_types t))
         (counter_incr (file_types t) (file_type fr))
         (tally_entities t + Z.of_nat (List.length (entities fr)))
         (tally_time t + process_time fr)%Q)) as (E1 & E2 & E3).
    rewrite E1, E2, E3. cbn [entity_types file_types tally_entities].
    unfold entity_types_of, all_entities. cbn [flat_map map fold_left].
    rewrite map_app, fold_left_app, count_entity_types_fold, length_app.
    repeat split. lia.
Qed.

Lemma filter_partition_length {A} (p : A -> bool) (l : list A) :
  (List.length (filter (fun x => negb (p x)) l) + List.length (filter p l)
   = List.length l)%nat.
Proof.
  induction l as [|x l IH]; [reflexivity|]. cbn [filter].
  destruct (p x); cbn [negb List.length]; lia.
Qed.

Lemma statistics_facts (frs : list FileResult) :
  (forall t, dict_get (entity_type_counts (_calculate_statistics frs)) t 0
             = occurrences t (entity_types_of frs))
  /\ (forall t, In t (map fst (entity_type_counts (_calculate_statistics frs)))
                <-> In t (entity_types_of frs))
  /\ NoDup (map fst (entity_type_counts (_calculate_statistics frs))).
Proof.
  unfold _calculate_statistics. cbn [entity_type_counts].
  destruct (stats_loop_spec frs (mkTally [] [] 0 0%Q)) as (E1 & _).
  rewrite E1. cbn [entity_types].
  split; [intros t; now rewrite counter_fold_get|].
  split; [intros t; rewrite counter_fold_keys; cbn [map In]; tauto|].
  apply counter_fold_nodup. constructor.
Qed.

(** The statistics count every file and every entity once: processed
    and failed files add up to all files, the table of entity types lists
    each type that occurs once with the number of its entities, the table
    of file types likewise, and the entries of each table add up to the
    totals. *)
Theorem statistics_count_everything_once :
  forall frs : list FileResult,
    let s := _calculate_statistics frs in
    processed_files s + failed_files s = total_files s
    /\ total_entities s = Z.of_nat (List.length (all_entities frs))
    /\ (forall t, dict_get (entity_type_counts s) t 0
                  = occurrences t (entity_types_of frs))
    /\ (forall t, dict_get (file_type_counts s) t 0
                  = occurrences t (map file_type frs))
    /\ (forall t, In t (map fst (entity_type_counts s))
                  <-> In t (entity_types_of frs))
    /\ NoDup (map fst (entity_type_counts s))
    /\ NoDup (map fst (file_type_counts s))
    /\ fold_right Z.add 0 (map snd (entity_type_counts s)) = total_entities s
    /\ fold_right Z.add 0 (map snd (file_type_counts s)) = total_files s.
Proof.
  intros frs s. unfold s, _calculate_statistics.
  cbn [processed_files failed_files total_files total_entities
       entity_type_counts file_type_counts].
  destruct (stats_loop_spec frs (mkTally [] [] 0 0%Q)) as (E1 & E2 & E3).
  rewrite E1, E2, E3. cbn [entity_types file_types tally_entities].
  split; [pose proof (filter_partition_length has_error frs); lia|].
  split; [lia|].
  split; [intros t; now rewrite counter_fold_get|].
  split; [intros t; now rewrite counter_fold_get|].
  split; [intros t; rewrite counter_fold_keys; cbn [map In]; tauto|].
  split; [apply counter_fold_nodup; constructor|].
  split; [apply counter_fold_nodup; constructor|].
  split.
  - rewrite counter_fold_sum. unfold entity_types_of.
    rewrite length_map. cbn [map fold_right]. lia.
  - rewrite counter_fold_sum, length_map. cbn [map fold_right]. lia.
Qed.

(** ** The two dictionaries of the summaries *)

Lemma nodup_snoc {A} (l : list A) (x : A) :
  NoDup l -> ~ In x l -> NoDup (l ++ [x]).
Proof.
  intros H Hx. apply NoDup_rev in H. rewrite <- (rev_involutive (l ++ [x])).
  apply NoDup_rev. rewrite rev_app_distr. cbn [rev app].
  constructor; [|exact H]. now rewrite <- in_rev.
Qed.

Lemma group_step_closed (f : str) (e : EntityInfo)
    (tf : list (str * list str)) (tc : list (str * Z)) :
  map fst tf = map fst tc ->
  group_step f e (tf, tc)
  = Some (dict_set tf (entity_type e)
            (if str_in f (dict_get tf (entity_type e) [])
             then dict_get tf (entity_type e) []
             else dict_get tf (entity_type e) [] ++ [f]),
          counter_incr tc (entity_type e)).
Proof.
  intros K. unfold group_step, counter_incr.
  pose proof (dict_mem_same_keys tf tc (entity_type e) K) as M.
  destruct (dict_mem tf (entity_type e)) eqn:Mf; cbn [negb].
  - destruct (dict_mem_index _ _ Mf) as (fs & Ef).
    destruct (dict_mem_index tc (entity_type e) (eq_sym M)) as (n & En).
    rewrite Ef.
    rewrite (dict_index_get _ _ _ [] Ef), (dict_index_get _ _ _ 0 En).
    destruct (str_in f fs); cbn [negb]; rewrite En.
    + now rewrite (dict_set_same _ _ _ Ef).
    + reflexivity.
  - rewrite (dict_mem_false_get _ _ [] Mf).
    rewrite (dict_mem_false_get tc _ 0 (eq_sym M)).
    rewrite dict_index_set_same. cbn [str_in existsb negb app].
    rewrite dict_index_set_same, !dict_set_set. reflexivity.
Qed.

Lemma group_step_grouped (f : str) (e : EntityInfo) (seen : list (str * str))
    (g : groups) :
  grouped seen g ->
  exists g', group_step f e g = Some g'
             /\ grouped (seen ++ [(f, entity_type e)]) g'.
Proof.
  destruct g as [tf tc]. intros (K & C & N & F). cbn [fst snd] in K, C, N, F.
  rewrite (group_step_closed f e tf tc K). eexists. split; [reflexivity|].
  unfold grouped. cbn [fst snd].
  split; [|split; [|split]].
  - unfold counter_incr.
    rewrite !keys_dict_set, (dict_mem_same_keys tf tc _ K), K. reflexivity.
  - rewrite map_app, fold_left_app, <- C. reflexivity.
  - intros t'. rewrite dict_get_set.
    destruct (str_eqb (entity_type e) t'); [|apply N].
    destruct (str_in f (dict_get tf (entity_type e) [])) eqn:I; [apply N|].
    apply str_in_false in I. apply nodup_snoc; [apply N|exact I].
  - intros t' f'. rewrite dict_get_set, in_app_iff. cbn [In].
    destruct (str_eqb (entity_type e) t') eqn:E.
    + apply str_eqb_eq in E. subst t'.
      destruct (str_in f (dict_get tf (entity_type e) [])) eqn:I.
      * apply str_in_In in I. rewrite F. split; [tauto|].
        intros [H|[H|[]]]; [exact H|]. injection H as <-. apply F. exact I.
      * rewrite in_app_iff, F. cbn [In]. split.
        -- intros [H|[<-|[]]]; [now left|right; now left].
        -- intros [H|[H|[]]]; [now left|]. injection H as <-. right. now left.
    + rewrite F. split; [tauto|].
      intros [H|[H|[]]]; [exact H|]. injection H as _ E'.
      apply str_eqb_false in E. congruence.
Qed.

Lemma group_entities_grouped (f : str) (es : list EntityInfo)
    (seen : list (str * str)) (g : groups) :
  grouped seen g ->
  exists g', group_entities f es g = Some g'
             /\ grouped (seen ++ map (fun e => (f, entity_type e)) es) g'.
Proof.
  revert seen g. induction es as [|e r IH]; intros seen g G;
    cbn [group_entities map].
  - exists g. rewrite app_nil_r. split; [reflexivity|exact G].
  - destruct (group_step_grouped f e seen g G) as (g1 & E1 & G1). rewrite E1.
    destruct (IH _ _ G1) as (g2 & E2 & G2). exists g2. split; [exact E2|].
    rewrite <- app_assoc in G2. exact G2.
Qed.

Lemma group_files_grouped (frs : list FileResult) (seen : list (str * str))
    (g : groups) :
  grouped seen g ->
  exists g', group_files frs g = Some g'
             /\ grouped (seen ++ type_file_pairs frs) g'.
Proof.
  revert seen g. induction frs as [|fr r IH]; intros seen g G;
    cbn [group_files].
  - exists g. unfold type_file_pairs. cbn [flat_map]. rewrite app_nil_r.
    split; [reflexivity|exact G].
  - destruct (group_entities_grouped (filename fr) (entities fr) seen g G)
      as (g1 & E1 & G1). rewrite E1.
    destruct (IH _ _ G1) as (g2 & E2 & G2). exists g2. split; [exact E2|].
    unfold type_file_pairs in *. cbn [flat_map]. rewrite <- app_assoc in G2.
    exact G2.
Qed.

Lemma grouped_start : grouped [] ([], []).
Proof.
  unfold grouped. cbn [fst snd map fold_left dict_get].
  repeat split; try constructor; intros [].
Qed.

Lemma pairs_types (frs : list FileResult) :
  map snd (type_file_pairs frs) = entity_types_of frs.
Proof.
  unfold type_file_pairs, entity_types_of, all_entities.
  induction frs as [|fr r IH]; [reflexivity|]. cbn [flat_map].
  rewrite !map_app, IH, map_map. reflexivity.
Qed.

Lemma pairs_holds (frs : list FileResult) (f t : str) :
  In (f, t) (type_file_pairs frs) <-> holds_type frs f t.
Proof.
  unfold type_file_pairs, holds_type. rewrite in_flat_map. split.
  - intros (fr & Hfr & Hin). apply in_map_iff in Hin as (e & E & He).
    injection E as <- <-. exists fr, e. repeat split; assumption.
  - intros (fr & e & Hfr & <- & He & <-). exists fr. split; [exact Hfr|].
    apply in_map_iff. exists e. split; [reflexivity|exact He].
Qed.

(** ** The order of the summaries *)

Lemma key_leb_comes_before (a b : RiskSummary) :
  key_leb (sort_key a) (sort_key b) = true <-> comes_before a b.
Proof.
  unfold key_leb, sort_key, comes_before. cbn [fst snd].
  rewrite orb_true_iff, andb_true_iff, Z.ltb_lt, Z.eqb_eq, Z.leb_le.
  generalize (level_rank a), (level_rank b). intros. lia.
Qed.

Lemma key_leb_total (a b : RiskSummary) :
  key_leb (sort_key a) (sort_key b) = false -> comes_before b a.
Proof.
  unfold key_leb, sort_key, comes_before. cbn [fst snd].
  rewrite orb_false_iff, andb_false_iff, Z.ltb_ge, Z.eqb_neq, Z.leb_gt.
  generalize (level_rank a), (level_rank b). intros. lia.
Qed.

Lemma comes_before_trans (a b c : RiskSummary) :
  comes_before a b -> comes_before b c -> comes_before a c.
Proof.
  unfold comes_before.
  generalize (level_rank a), (level_rank b), (level_rank c). intros. lia.
Qed.

Lemma insert_by_key_perm (x : RiskSummary) (l : list RiskSummary) :
  Permutation (x :: l) (insert_by_key x l).
Proof.
  induction l as [|y l IH]; cbn [insert_by_key]; [apply Permutation_refl|].
  destruct (key_leb (sort_key x) (sort_key y)); [apply Permutation_refl|].
  eapply perm_trans; [apply perm_swap|]. now apply perm_skip.
Qed.

Lemma sorted_by_key_perm (l : list RiskSummary) :
  Permutation l (sorted_by_key l).
Proof.
  induction l as [|x l IH]; cbn [sorted_by_key fold_right]; [constructor|].
  eapply perm_trans; [apply perm_skip, IH|]. apply insert_by_key_perm.
Qed.

Lemma insert_by_key_sorted (x : RiskSummary) (l : list RiskSummary) :
  StronglySorted comes_before l ->
  StronglySorted comes_before (insert_by_key x l).
Proof.
  induction 1 as [|y l Hs IH Hy]; cbn [insert_by_key].
  - constructor; constructor.
  - destruct (key_leb (sort_key x) (sort_key y)) eqn:E.
    + apply key_leb_comes_before in E. constructor.
      * constructor; assumption.
      * constructor; [exact E|].
        eapply Forall_impl; [|exact Hy].
        intros z Hz. exact (comes_before_trans _ _ _ E Hz).
    + apply key_leb_total in E. constructor; [exact IH|].
      eapply Permutation_Forall; [apply insert_by_key_perm|].
      constructor; assumption.
Qed.

Lemma sorted_by_key_sorted (l : list RiskSummary) :
  StronglySorted comes_before (sorted_by_key l).
Proof.
  induction l as [|x l IH]; cbn [sorted_by_key fold_right]; [constructor|].
  apply insert_by_key_sorted. exact IH.
Qed.

Lemma default_weight (t : str) : dict_get ENTITY_WEIGHTS t 2 = weight_of t.
Proof.
  unfold weight_of.
  assert (E : dict_get ENTITY_WEIGHTS (py "default") 0 = 2)
    by (vm_compute; reflexivity).
  rewrite E. reflexivity.
Qed.

Lemma summaries_counts (tf : list (str * list str)) (tc : list (str * Z)) :
  flat_map entity_counts (map (summary_of tf) tc) = tc.
Proof.
  induction tc as [|[t n] r IH]; [reflexivity|].
  cbn [map flat_map summary_of entity_counts app]. now rewrite IH.
Qed.

Lemma in_dict_get (c : list (str * Z)) (t : str) (n d : Z) :
  NoDup (map fst c) -> In (t, n) c -> dict_get c t d = n.
Proof.
  induction c as [|[k v] r IH]; [intros _ []|].
  cbn [map fst dict_get In]. intros ND [E|Hin].
  - injection E as -> ->. now rewrite str_eqb_refl.
  - inversion_clear ND as [|? ? Hk Hr].
    destruct (str_eqb k t) eqn:E.
    + apply str_eqb_eq in E. subst k. exfalso. apply Hk.
      apply in_map_iff. exists (t, n). split; [reflexivity|exact Hin].
    + now apply IH.
Qed.

(** The summaries of a report, before the words of the two theorems. *)
Lemma summaries_spec (frs : list FileResult) :
  exists tf summaries,
    _generate_risk_summaries frs = Some summaries
    /\ grouped (type_file_pairs frs)
         (tf, entity_type_counts (_calculate_statistics frs))
    /\ Permutation
         (map (summary_of tf) (entity_type_counts (_calculate_statistics frs)))
         summaries
    /\ StronglySorted comes_before summaries.
Proof.
  destruct (group_files_grouped frs [] ([], []) grouped_start)
    as ([tf tc] & E & G).
  cbn [app] in G. exists tf.
  assert (C : tc = entity_type_counts (_calculate_statistics frs)).
  { destruct G as (_ & C & _). cbn [snd] in C. rewrite C, pairs_types.
    unfold _calculate_statistics. cbn [entity_type_counts].
    destruct (stats_loop_spec frs (mkTally [] [] 0 0%Q)) as (E1 & _).
    rewrite E1. reflexivity. }
  exists (sorted_by_key (map (summary_of tf) tc)).
  unfold _generate_risk_summaries. rewrite E. subst tc.
  split; [reflexivity|]. split; [exact G|].
  split; [apply sorted_by_key_perm|apply sorted_by_key_sorted].
Qed.

(** The risk summaries never fail with a missing key; they hold one
    summary for each entry of the statistics' table of entity types, with
    that count, the level of the type and the count times the weight of the
    type as score; and they are ordered by level, then by falling score. *)
Theorem risk_summaries_follow_the_statistics :
  forall frs : list FileResult,
  exists summaries,
    _generate_risk_summaries frs = Some summaries
    /\ Permutation (flat_map entity_counts summaries)
         (entity_type_counts (_calculate_statistics frs))
    /\ StronglySorted comes_before summaries
    /\ (forall x, In x summaries ->
          exists t,
            In t (entity_types_of frs)
            /\ entity_counts x = [(t, occurrences t (entity_types_of frs))]
            /\ level x = summary_level t
            /\ score x = occurrences t (entity_types_of frs) * weight_of t).
Proof.
  intros frs. destruct (summaries_spec frs) as (tf & l & E & G & P & S).
  exists l. split; [exact E|]. split; [|split; [exact S|]].
  - apply perm_trans
      with (flat_map entity_counts
              (map (summary_of tf)
                 (entity_type_counts (_calculate_statistics frs)))).
    + apply Permutation_flat_map. now apply Permutation_sym.
    + rewrite summaries_counts. apply Permutation_refl.
  - intros x Hx. apply (Permutation_in _ (Permutation_sym P)) in Hx.
    apply in_map_iff in Hx as ([t n] & <- & Hin).
    destruct (statistics_facts frs) as (Hget & Hkeys & Hnd).
    assert (Hn : n = occurrences t (entity_types_of frs)).
    { rewrite <- (Hget t). symmetry. now apply in_dict_get. }
    exists t. cbn [summary_of entity_counts level score]. subst n.
    split; [|split; [reflexivity|split; [reflexivity|]]].
    + apply Hkeys. apply in_map_iff. exists (t, occurrences t (entity_types_of frs)).
      split; [reflexivity|exact Hin].
    + now rewrite default_weight.
Qed.

(** The affected files of a summary are the names, each once, of the
    file results that hold an entity of the summary's type. *)
Theorem affected_files_hold_the_type :
  forall (frs : list FileResult) (summaries : list RiskSummary)
         (x : RiskSummary) (t : str) (n : Z),
    _generate_risk_summaries frs = Some summaries ->
    In x summaries ->
    entity_counts x = [(t, n)] ->
    NoDup (affected_files x)
    /\ forall f, In f (affected_files x) <-> holds_type frs f t.
Proof.
  intros frs summaries x t n E0 Hx Hc.
  destruct (summaries_spec frs) as (tf & l & E & G & P & S).
  rewrite E in E0. injection E0 as <-.
  apply (Permutation_in _ (Permutation_sym P)) in Hx.
  apply in_map_iff in Hx as ([t' n'] & <- & Hin).
  cbn [summary_of entity_counts affected_files] in *.
  injection Hc as -> ->.
  destruct G as (_ & _ & N & F). cbn [fst] in N, F.
  split; [apply N|]. intros f. rewrite F. apply pairs_holds.
Qed.

Lemma affected_files_hold_the_type_witness :
  _generate_risk_summaries ReportSamples.two_files
  = Some [ReportSamples.id_card_summary; ReportSamples.phone_summary]
  /\ NoDup (affected_files ReportSamples.id_card_summary)
  /\ forall f, In f (affected_files ReportSamples.id_card_summary)
               <-> holds_type ReportSamples.two_files f (py "CN_ID_CARD").
Proof.
  assert (E : _generate_risk_summaries ReportSamples.two_files
              = Some [ReportSamples.id_card_summary;
                      ReportSamples.phone_summary])
    by (vm_compute; reflexivity).
  split; [exact E|].
  apply (affected_files_hold_the_type ReportSamples.two_files
           [ReportSamples.id_card_summary; ReportSamples.phone_summary]
           ReportSamples.id_card_summary (py "CN_ID_CARD") 2).
  - exact E.
  - left. reflexivity.
  - vm_compute. reflexivity.
Defined.

(** ** Adding an entity *)

Lemma entities_of_add_to_files (suffix : str) (frs : list FileResult)
    (name : str) (e : EntityInfo) (name' : str) :
  entities_of (add_to_files suffix frs name e) name'
  = if str_eqb name' name then entities_of frs name ++ [e]
    else entities_of frs name'.
Proof.
  unfold entities_of. induction frs as [|fr r IH]; cbn [add_to_files List.find].
  - cbn [filename entities]. rewrite (str_eqb_comm name name').
    destruct (str_eqb name' name); reflexivity.
  - destruct (str_eqb (filename fr) name) eqn:E.
    + cbn [List.find append_entity filename entities].
      apply str_eqb_eq in E. rewrite E. rewrite (str_eqb_comm name name').
      destruct (str_eqb name' name); reflexivity.
    + cbn [List.find]. destruct (str_eqb (filename fr) name') eqn:E'.
      * apply str_eqb_eq in E'. subst name'. rewrite E. reflexivity.
      * exact IH.
Qed.

Lemma filenames_add_to_files (suffix : str) (frs : list FileResult)
    (name : str) (e : EntityInfo) :
  map filename (add_to_files suffix frs name e)
  = if str_in name (map filename frs) then map filename frs
    else map filename frs ++ [name].
Proof.
  unfold str_in. induction frs as [|fr r IH]; cbn [add_to_files map existsb app].
  - reflexivity.
  - rewrite (str_eqb_comm name (filename fr)).
    destruct (str_eqb (filename fr) name); cbn [orb map append_entity filename].
    + reflexivity.
    + rewrite IH. destruct (existsb (str_eqb name) (map filename r)); reflexivity.
Qed.

Lemma all_entities_add_to_files (suffix : str) (frs : list FileResult)
    (name : str) (e : EntityInfo) :
  Permutation (all_entities (add_to_files suffix frs name e))
    (e :: all_entities frs).
Proof.
  unfold all_entities. induction frs as [|fr r IH]; cbn [add_to_files flat_map].
  - cbn [entities app]. apply Permutation_refl.
  - destruct (str_eqb (filename fr) name); cbn [flat_map append_entity entities].
    + rewrite <- app_assoc. cbn [app].
      apply Permutation_sym, Permutation_middle.
    + eapply perm_trans; [apply Permutation_app_head, IH|].
      apply Permutation_sym, Permutation_middle.
Qed.

(** [add_entity] puts the new entity at the end of the first file
    result with the given name and leaves every other name's entities as
    they were; a file result is added, at the end, only when the name is
    new; and the report holds the old entities and the new one. *)
Theorem add_entity_appends_to_the_named_file :
  forall (suffix : str) (frs : list FileResult) (name ty txt : str)
         (first last : Z) (sc : Q) (src : str) (ver : bool)
         (why : option str) (other : str),
    let added := new_entity name ty txt first last sc src ver why in
    let frs' := add_entity suffix frs name ty txt first last sc src ver why in
    entities_of frs' other
    = (if str_eqb other name then entities_of frs name ++ [added]
       else entities_of frs other)
    /\ map filename frs'
       = (if str_in name (map filename frs) then map filename frs
          else map filename frs ++ [name])
    /\ Permutation (all_entities frs') (added :: all_entities frs).
Proof.
  intros. unfold frs', added, add_entity.
  split; [apply entities_of_add_to_files|].
  split; [apply filenames_add_to_files|apply all_entities_add_to_files].
Qed.

End ReportSummaryFacts.
